(** * Attribute binding for custom elements: a shallow embedding

    The development follows the two sources of the library: [util.ts],
    with the name normalizer ([toKebabCase], [mustKebabCase]) and the
    accessor lookup ([getAccessor]), and [attributable.ts], with the five
    descriptors, the binder [initializeAttributable] and the decorators
    [attributable] and [attribute].  The tests of [attributable.ts] give
    the examples.

    Strings are sequences of code units restricted to U+0000..U+00FF, one
    [ascii] per code unit.  The platform (numbers and their texts, JSON,
    the attributes of an element, the properties of an object) is modelled
    as far as the sources use it; where the model does not follow the
    platform, a function answers [Unmodelled]. *)

From Stdlib Require Import ZArith NArith String Ascii List Lia Bool.
From Stdlib Require Import DecimalString DecimalN DecimalFacts DecimalPos.
From stdpp Require Import gmap strings.

Local Open Scope list_scope.
Local Open Scope string_scope.

Set Warnings "-register-all".

(* ===================================================================== *)
(** * Definitions *)
(* ===================================================================== *)

(* ===================================================================== *)
(** ** Exceptions and completions *)
(* ===================================================================== *)

(** The exception classes the sources throw.  The message of a
    [TypeError] or a [SyntaxError] is not modelled; a [DOMException]
    keeps its message and its name, as [mustKebabCase] builds them. *)
Inductive Exception : Type :=
| TypeError
| SyntaxError
| DOMException (message name : string).

(** A completion: the call returns a value, throws, or leaves the modelled
    fragment of the platform ([Unmodelled]: the model gives no answer). *)
Inductive Completion (A : Type) : Type :=
| Normal (a : A)
| Throw (e : Exception)
| Unmodelled.

Arguments Normal {A} a.
Arguments Throw {A} e.
Arguments Unmodelled {A}.

#[export] Instance Completion_bind : MBind Completion := fun A B k m =>
  match m with
  | Normal a => k a
  | Throw e => Throw e
  | Unmodelled => Unmodelled
  end.

#[export] Instance Completion_ret : MRet Completion := fun A a => Normal a.

(* ===================================================================== *)
(** ** Characters *)
(* ===================================================================== *)

Definition code (c : ascii) : N := N_of_ascii c.

Definition in_range (lo hi : N) (c : ascii) : bool :=
  ((lo <=? code c) && (code c <=? hi))%N.

(** [[A-Z]] and [[a-z]] of the regular expressions. *)
Definition isUpper (c : ascii) : bool := in_range 65 90 c.
Definition isLower (c : ascii) : bool := in_range 97 122 c.
Definition isDigit (c : ascii) : bool := in_range 48 57 c.

Definition dash : ascii := "-"%char.

(** The quotation mark, U+0022. *)
Definition quotation_mark : ascii := Ascii false true false false false true false false.

(** [String.prototype.toLowerCase] on one code unit of U+0000..U+00FF:
    the letters A-Z, and U+00C0..U+00DE without the multiplication sign
    U+00D7, move up by 32. *)
Definition toLowerCase_char (c : ascii) : ascii :=
  if isUpper c || (in_range 192 222 c && negb (code c =? 215)%N)
  then ascii_of_N (code c + 32)
  else c.

Fixpoint toLowerCase (s : string) : string :=
  match s with
  | EmptyString => EmptyString
  | String c rest => String (toLowerCase_char c) (toLowerCase rest)
  end.

(** [String.prototype.includes] for a one-character needle. *)
Fixpoint includes (s : string) (c : ascii) : bool :=
  match s with
  | EmptyString => false
  | String d rest => Ascii.eqb d c || includes rest c
  end.

(* ===================================================================== *)
(** ** The name normalizer ([util.ts]) *)
(* ===================================================================== *)

Module Util.

(** [key.replace(/([A-Z]($|[a-z]))/g, '-$1')]: scanning left to right, a
    match is one capital at the end of the input, or one capital and the
    lower-case letter after it; a match is copied behind a dash and the
    scan goes on behind the match. *)
Fixpoint replace_capital (key : string) : string :=
  match key with
  | EmptyString => EmptyString
  | String c rest =>
      if isUpper c then
        match rest with
        | EmptyString => String dash (String c EmptyString)
        | String d rest' =>
            if isLower d
            then String dash (String c (String d (replace_capital rest')))
            else String c (replace_capital rest)
        end
      else String c (replace_capital rest)
  end.

(** [.replace(/--/g, '-')]: every match of two dashes, found left to right
    without overlap, becomes one dash. *)
Fixpoint replace_double_dash (s : string) : string :=
  match s with
  | EmptyString => EmptyString
  | String c rest =>
      match rest with
      | String d rest' =>
          if Ascii.eqb c dash && Ascii.eqb d dash
          then String dash (replace_double_dash rest')
          else String c (replace_double_dash rest)
      | EmptyString => String c EmptyString
      end
  end.

(** Removes the last character when it is a dash. *)
Fixpoint drop_final_dash (s : string) : string :=
  match s with
  | EmptyString => EmptyString
  | String c EmptyString => if Ascii.eqb c dash then EmptyString else s
  | String c rest => String c (drop_final_dash rest)
  end.

(** [.replace(/^-|-$/, '')]: without the [g] flag only the leftmost match
    is removed, which is the leading dash when there is one and the final
    dash otherwise. *)
Definition replace_edge_dash (s : string) : string :=
  match s with
  | String c rest => if Ascii.eqb c dash then rest else drop_final_dash s
  | EmptyString => EmptyString
  end.

Definition toKebabCase (key : string) : string :=
  toLowerCase (replace_edge_dash (replace_double_dash (replace_capital key))).

Definition mustKebabCase (key : string) : Completion string :=
  let kebabCase := toKebabCase key in
  if negb (includes kebabCase dash)
  then Throw (DOMException (key ++ " is not a valid name") "SyntaxError")
  else Normal kebabCase.

End Util.

(* ===================================================================== *)
(** ** The accessor lookup ([util.ts]) *)
(* ===================================================================== *)

(** [getAccessor(instance, key)] walks the prototype chain, here the list
    of the property tables from the instance upwards, up to the first own
    descriptor of [key]; an accessor that the descriptor lacks, or a
    missing descriptor, gives [None], the function returning [undefined]. *)
Record Accessor (G S : Type) : Type := {
  getter : option G;
  setter : option S;
}.

Arguments getter {G S} _.
Arguments setter {G S} _.

Section GetAccessor.
Context {Obj G S : Type}.
Variable getOwnPropertyDescriptor : Obj -> string -> option (option G * option S).

Fixpoint getAccessor (instance : list Obj) (key : string) : Accessor G S :=
  match instance with
  | [] => {| getter := None; setter := None |}
  | o :: prototype =>
      match getOwnPropertyDescriptor o key with
      | Some descriptor => {| getter := fst descriptor; setter := snd descriptor |}
      | None => getAccessor prototype key
      end
  end.
End GetAccessor.

(* ===================================================================== *)
(** ** Values of the language *)
(* ===================================================================== *)

(** Numbers.  The model holds the integers, both zeros, both infinities and
    NaN.  An integer is a number of the language when it is safe
    ([isSafeInteger]); numbers with a fraction part are outside the model,
    and so are the conversions that would need them. *)
Inductive number : Type :=
| NaN
| Infinity (negative : bool)
| NegZero
| Int (z : Z).

Definition isSafeInteger (z : Z) : bool :=
  ((- (2 ^ 53 - 1) <=? z) && (z <=? 2 ^ 53 - 1))%Z.

(** Values.  An object is a plain object: the list of its own enumerable
    string-keyed properties in the order of their creation.  The language
    enumerates keys that are array indices before the others; where that
    order matters, in [JSON.serialize], the model gives no answer for them.
    Functions and symbols carry no content. *)
Inductive Value : Type :=
| VUndefined
| VNull
| VBoolean (b : bool)
| VNumber (n : number)
| VString (s : string)
| VArray (elements : list Value)
| VObject (properties : list (string * Value))
| VFunction
| VSymbol
| VBigInt (z : Z).

(** The own property [key] of a plain object. *)
Fixpoint own_property (properties : list (string * Value)) (key : string) : option Value :=
  match properties with
  | [] => None
  | (k, v) :: rest => if String.eqb k key then Some v else own_property rest key
  end.

(** The [typeof] operator. *)
Definition typeof (v : Value) : string :=
  match v with
  | VUndefined => "undefined"
  | VNull => "object"
  | VBoolean _ => "boolean"
  | VNumber _ => "number"
  | VString _ => "string"
  | VArray _ => "object"
  | VObject _ => "object"
  | VFunction => "function"
  | VSymbol => "symbol"
  | VBigInt _ => "bigint"
  end.

Definition Array_isArray (v : Value) : bool :=
  match v with VArray _ => true | _ => false end.

Definition is_undefined (v : Value) : bool :=
  match v with VUndefined => true | _ => false end.

Definition is_null (v : Value) : bool :=
  match v with VNull => true | _ => false end.

(** [a ?? b] *)
Definition nullish (a b : Value) : Value :=
  if is_undefined a || is_null a then b else a.

(** ToBoolean: what [||] and a boolean parameter test. *)
Definition ToBoolean (v : Value) : bool :=
  match v with
  | VUndefined | VNull => false
  | VBoolean b => b
  | VNumber NaN | VNumber NegZero | VNumber (Int 0) => false
  | VNumber _ => true
  | VString EmptyString => false
  | VString _ => true
  | VBigInt 0 => false
  | VBigInt _ => true
  | VArray _ | VObject _ | VFunction | VSymbol => true
  end.

(** [a || b] *)
Definition or_else (a b : Value) : Value := if ToBoolean a then a else b.

(* ===================================================================== *)
(** ** Numbers and strings *)
(* ===================================================================== *)

Definition digits (n : N) : string := NilEmpty.string_of_uint (N.to_uint n).

Definition Z_toString (z : Z) : string :=
  match z with
  | Zneg p => String dash (digits (Npos p))
  | _ => digits (Z.to_N z)
  end.

(** Number::toString.  An integer beyond the safe range is printed in a
    rounded or exponent form that the model does not hold. *)
Definition Number_toString (n : number) : Completion string :=
  match n with
  | NaN => Normal "NaN"
  | Infinity false => Normal "Infinity"
  | Infinity true => Normal "-Infinity"
  | NegZero => Normal "0"
  | Int z => if isSafeInteger z then Normal (Z_toString z) else Unmodelled
  end.

Fixpoint join (sep : string) (parts : list string) : string :=
  match parts with
  | [] => ""
  | [p] => p
  | p :: rest => p ++ sep ++ join sep rest
  end.

(** ToString, as a template literal or a DOMString parameter applies it.
    For an object with an own property [toString], which the conversion
    would use, the model gives no answer. *)
Fixpoint ToString (v : Value) : Completion string :=
  match v with
  | VUndefined => Normal "undefined"
  | VNull => Normal "null"
  | VBoolean true => Normal "true"
  | VBoolean false => Normal "false"
  | VNumber n => Number_toString n
  | VString s => Normal s
  | VArray elements =>
      let fix each (l : list Value) : Completion (list string) :=
        match l with
        | [] => Normal []
        | x :: l' =>
            s ← match x with
                | VUndefined | VNull => Normal ""
                | _ => ToString x
                end;
            ss ← each l';
            Normal (s :: ss)
        end in
      ss ← each elements; Normal (join "," ss)
  | VObject properties =>
      match own_property properties "toString" with
      | Some _ => Unmodelled
      | None => Normal "[object Object]"
      end
  | VFunction => Unmodelled
  | VSymbol => Throw TypeError
  | VBigInt z => Normal (Z_toString z)
  end.

(** The longest prefix of decimal digits, and what follows it. *)
Fixpoint span_digits (s : string) : string * string :=
  match s with
  | String c rest =>
      if isDigit c
      then let '(ds, r) := span_digits rest in (String c ds, r)
      else (EmptyString, s)
  | EmptyString => (EmptyString, EmptyString)
  end.

Definition digits_value (ds : string) : N :=
  match NilEmpty.uint_of_string ds with
  | Some u => N.of_uint u
  | None => 0
  end.

(** The number an optional minus sign and a run of digits denote, when it
    is in the model: minus zero, or a safe integer. *)
Definition integer_number (negative : bool) (ds : string) : Completion number :=
  let n := digits_value ds in
  if (n =? 0)%N then Normal (if negative then NegZero else Int 0)
  else
    let z := if negative then (- Z.of_N n)%Z else Z.of_N n in
    if isSafeInteger z then Normal (Int z) else Unmodelled.

(** White space and line terminators of StringToNumber, within U+00FF. *)
Definition isStrWhiteSpace (c : ascii) : bool :=
  in_range 9 13 c || (code c =? 32)%N || (code c =? 160)%N.

Fixpoint trim_start (s : string) : string :=
  match s with
  | String c rest => if isStrWhiteSpace c then trim_start rest else s
  | EmptyString => EmptyString
  end.

Fixpoint all_chars (p : ascii -> bool) (s : string) : bool :=
  match s with
  | String c rest => p c && all_chars p rest
  | EmptyString => true
  end.

(** A key that is written with digits only.  The keys that are array
    indices are among them: the language enumerates those first, in numeric
    order, whatever the order in which the properties were created. *)
Definition index_like (key : string) : bool :=
  negb (String.eqb key "") && all_chars isDigit key.

(** Drops the white space at the end: the string up to its last character
    that is not white space. *)
Fixpoint trim_end (s : string) : string :=
  match s with
  | String c rest => if all_chars isStrWhiteSpace s then EmptyString else String c (trim_end rest)
  | EmptyString => EmptyString
  end.

Definition isDecimalLiteralChar (c : ascii) : bool :=
  isDigit c || includes ".eE+-" c.

(** StringToNumber ([Number(text)]).  Decimal integers and the infinities
    are in the model.  A text that could be a literal with a fraction, an
    exponent or a radix prefix is left to the platform ([Unmodelled]); any
    other text is not a numeric literal and denotes NaN. *)
Definition StringToNumber (text : string) : Completion number :=
  let t := trim_end (trim_start text) in
  let unsigned (negative : bool) (body : string) : Completion number :=
    if String.eqb body "Infinity" then Normal (Infinity negative)
    else
      match span_digits body with
      | (String d ds, EmptyString) => integer_number negative (String d ds)
      | _ => if all_chars isDecimalLiteralChar body then Unmodelled else Normal NaN
      end in
  match t with
  | EmptyString => Normal (Int 0)
  | String c body =>
      if Ascii.eqb c "+" then unsigned false body
      else if Ascii.eqb c dash then unsigned true body
      else if Ascii.eqb c "0" && match body with
                                 | String x _ => includes "xXoObB" x
                                 | EmptyString => false
                                 end
           then Unmodelled
      else unsigned false t
  end.

(** ToNumber ([Number(v)]) on the two kinds of argument the binder passes:
    a text or a number. *)
Definition Number_ (v : Value) : Completion number :=
  match v with
  | VNumber n => Normal n
  | VString s => StringToNumber s
  | _ => Unmodelled
  end.

(* ===================================================================== *)
(** ** JSON text *)
(* ===================================================================== *)

Module JSON.

Definition hex_digit (n : N) : ascii :=
  if (n <? 10)%N then ascii_of_N (48 + n) else ascii_of_N (87 + n).

(** QuoteJSONString on one code unit. *)
Definition quote_char (c : ascii) : string :=
  if (code c =? 34)%N then String "\" (String quotation_mark EmptyString)
  else if (code c =? 92)%N then "\\"
  else if (code c =? 8)%N then "\b"
  else if (code c =? 12)%N then "\f"
  else if (code c =? 10)%N then "\n"
  else if (code c =? 13)%N then "\r"
  else if (code c =? 9)%N then "\t"
  else if (code c <? 32)%N
       then "\u00" ++ String (hex_digit (code c / 16)) (String (hex_digit (code c mod 16)) "")
       else String c "".

Fixpoint quote_chars (s : string) : string :=
  match s with
  | EmptyString => EmptyString
  | String c rest => quote_char c ++ quote_chars rest
  end.

Definition quote (s : string) : string :=
  String quotation_mark (quote_chars s ++ String quotation_mark EmptyString).

(** SerializeJSONProperty without replacer and indentation: [None] is the
    [undefined] result.  For an object with a method [toJSON], which the
    language would call, the model gives no answer.  The members of an
    object are written
    in the order in which the language enumerates its keys; that is the
    order of creation, which the list holds, as long as no key is an array
    index, and for an object with a key of digits only the model gives no
    answer. *)
Fixpoint serialize (v : Value) : Completion (option string) :=
  match v with
  | VNull => Normal (Some "null")
  | VBoolean true => Normal (Some "true")
  | VBoolean false => Normal (Some "false")
  | VString s => Normal (Some (quote s))
  | VNumber (Int z) => t ← Number_toString (Int z); Normal (Some t)
  | VNumber NegZero => Normal (Some "0")
  | VNumber _ => Normal (Some "null")
  | VBigInt _ => Throw TypeError
  | VUndefined | VFunction | VSymbol => Normal None
  | VArray elements =>
      let fix each (l : list Value) : Completion (list string) :=
        match l with
        | [] => Normal []
        | x :: l' =>
            t ← serialize x;
            ts ← each l';
            Normal (default "null" t :: ts)
        end in
      ts ← each elements; Normal (Some ("[" ++ join "," ts ++ "]"))
  | VObject properties =>
      match own_property properties "toJSON" with
      | Some VFunction => Unmodelled
      | _ =>
          let fix each (l : list (string * Value)) : Completion (list string) :=
            match l with
            | [] => Normal []
            | (k, x) :: l' =>
                if index_like k then Unmodelled
                else
                  t ← serialize x;
                  ts ← each l';
                  Normal (match t with
                          | Some t => (quote k ++ ":" ++ t) :: ts
                          | None => ts
                          end)
            end in
          ts ← each properties; Normal (Some ("{" ++ join "," ts ++ "}"))
      end
  end.

(** [JSON.stringify(value)] *)
Definition stringify (v : Value) : Completion (option string) := serialize v.

(** *** Parsing *)

Definition isWhiteSpace (c : ascii) : bool :=
  (code c =? 9)%N || (code c =? 10)%N || (code c =? 13)%N || (code c =? 32)%N.

Fixpoint skip_ws (s : string) : string :=
  match s with
  | String c rest => if isWhiteSpace c then skip_ws rest else s
  | EmptyString => EmptyString
  end.

Definition hex_value (c : ascii) : option N :=
  if isDigit c then Some (code c - 48)%N
  else if in_range 97 102 c then Some (code c - 87)%N
  else if in_range 65 70 c then Some (code c - 55)%N
  else None.

(** The character a two-character escape denotes. *)
Definition unescape (c : ascii) : option ascii :=
  if (code c =? 34)%N then Some c
  else if (code c =? 92)%N then Some c
  else if (code c =? 47)%N then Some c
  else if (code c =? 98)%N then Some (ascii_of_N 8)
  else if (code c =? 102)%N then Some (ascii_of_N 12)
  else if (code c =? 110)%N then Some (ascii_of_N 10)
  else if (code c =? 114)%N then Some (ascii_of_N 13)
  else if (code c =? 116)%N then Some (ascii_of_N 9)
  else None.

(** The characters of a string literal behind its opening quote, and the
    text behind its closing quote.  A [\u] escape above U+00FF denotes a
    code unit that the model's strings do not hold. *)
Fixpoint parse_chars (s : string) : Completion (string * string) :=
  match s with
  | EmptyString => Throw SyntaxError
  | String c rest =>
      if Ascii.eqb c quotation_mark then Normal (EmptyString, rest)
      else if Ascii.eqb c "\" then
        match rest with
        | EmptyString => Throw SyntaxError
        | String e rest1 =>
            match unescape e with
            | Some d => '(t, r) ← parse_chars rest1; Normal (String d t, r)
            | None =>
                if Ascii.eqb e "u" then
                  match rest1 with
                  | String h1 (String h2 (String h3 (String h4 rest2))) =>
                      match hex_value h1, hex_value h2, hex_value h3, hex_value h4 with
                      | Some n1, Some n2, Some n3, Some n4 =>
                          if ((n1 =? 0) && (n2 =? 0))%N
                          then '(t, r) ← parse_chars rest2;
                               Normal (String (ascii_of_N (n3 * 16 + n4)) t, r)
                          else Unmodelled
                      | _, _, _, _ => Throw SyntaxError
                      end
                  | _ => Throw SyntaxError
                  end
                else Throw SyntaxError
            end
        end
      else if (code c <? 32)%N then Throw SyntaxError
      else '(t, r) ← parse_chars rest; Normal (String c t, r)
  end.

(** A number literal.  The integer part has no leading zero; a fraction or
    an exponent part leaves the model. *)
Definition parse_number (s : string) : Completion (Value * string) :=
  let '(negative, body) :=
    match s with
    | String c rest => if Ascii.eqb c dash then (true, rest) else (false, s)
    | EmptyString => (false, s)
    end in
  match span_digits body with
  | (EmptyString, _) => Throw SyntaxError
  | (String d ds, rest) =>
      if Ascii.eqb d "0" && negb (String.eqb ds "") then Throw SyntaxError
      else
        match rest with
        | String c _ =>
            if includes ".eE" c then Unmodelled
            else n ← integer_number negative (String d ds); Normal (VNumber n, rest)
        | EmptyString => n ← integer_number negative (String d ds); Normal (VNumber n, rest)
        end
  end.

(** [literal] is a prefix of [s]: what follows it. *)
Fixpoint strip_prefix (literal s : string) : option string :=
  match literal, s with
  | EmptyString, _ => Some s
  | String a literal', String b s' => if Ascii.eqb a b then strip_prefix literal' s' else None
  | String _ _, EmptyString => None
  end.

(** CreateDataProperty on the list of properties: a key that is there keeps
    its place and takes the new value, a new key goes to the end. *)
Fixpoint set_property (properties : list (string * Value)) (k : string) (v : Value)
  : list (string * Value) :=
  match properties with
  | [] => [(k, v)]
  | (k', v') :: rest =>
      if String.eqb k' k then (k, v) :: rest else (k', v') :: set_property rest k v
  end.

(** [s] starts with the character [c]: what follows it. *)
Definition after (c : ascii) (s : string) : option string :=
  match s with
  | String d rest => if Ascii.eqb d c then Some rest else None
  | EmptyString => None
  end.

(** One value, and the text behind it.  [fuel] bounds the calls that
    follow one another; out of fuel the model gives no answer.  Two units
    for each character are enough: from there on more fuel changes nothing
    ([parse_value_fuel]). *)
Fixpoint parse_value (fuel : nat) (s : string) : Completion (Value * string) :=
  match fuel with
  | O => Unmodelled
  | S fuel' =>
      match skip_ws s with
      | EmptyString => Throw SyntaxError
      | String c rest =>
          if Ascii.eqb c "[" then
            match after "]" (skip_ws rest) with
            | Some rest' => Normal (VArray [], rest')
            | None => parse_elements fuel' rest []
            end
          else if Ascii.eqb c "{" then
            match after "}" (skip_ws rest) with
            | Some rest' => Normal (VObject [], rest')
            | None => parse_members fuel' rest []
            end
          else if Ascii.eqb c quotation_mark then
            '(t, r) ← parse_chars rest; Normal (VString t, r)
          else if Ascii.eqb c dash || isDigit c then parse_number (String c rest)
          else
            match strip_prefix "true" (String c rest),
                  strip_prefix "false" (String c rest),
                  strip_prefix "null" (String c rest) with
            | Some r, _, _ => Normal (VBoolean true, r)
            | _, Some r, _ => Normal (VBoolean false, r)
            | _, _, Some r => Normal (VNull, r)
            | _, _, _ => Throw SyntaxError
            end
      end
  end
with parse_elements (fuel : nat) (s : string) (acc : list Value)
  : Completion (Value * string) :=
  match fuel with
  | O => Unmodelled
  | S fuel' =>
      '(v, r) ← parse_value fuel' s;
      match after "," (skip_ws r), after "]" (skip_ws r) with
      | Some r', _ => parse_elements fuel' r' (acc ++ [v])%list
      | None, Some r' => Normal (VArray (acc ++ [v])%list, r')
      | None, None => Throw SyntaxError
      end
  end
with parse_members (fuel : nat) (s : string) (acc : list (string * Value))
  : Completion (Value * string) :=
  match fuel with
  | O => Unmodelled
  | S fuel' =>
      match after quotation_mark (skip_ws s) with
      | None => Throw SyntaxError
      | Some r =>
          '(k, r1) ← parse_chars r;
          match after ":" (skip_ws r1) with
          | None => Throw SyntaxError
          | Some r2 =>
              '(v, r3) ← parse_value fuel' r2;
              match after "," (skip_ws r3), after "}" (skip_ws r3) with
              | Some r4, _ => parse_members fuel' r4 (set_property acc k v)
              | None, Some r4 => Normal (VObject (set_property acc k v), r4)
              | None, None => Throw SyntaxError
              end
          end
      end
  end.

(** [JSON.parse(text)] without reviver: one value, with nothing but white
    space behind it. *)
Definition parse (text : string) : Completion Value :=
  '(v, r) ← parse_value (S (2 * String.length text)) text;
  match skip_ws r with
  | EmptyString => Normal v
  | String _ _ => Throw SyntaxError
  end.

End JSON.

(* ===================================================================== *)
(** ** The element and the component *)
(* ===================================================================== *)

(** The attributes of the element: a key-value store with presence, as the
    binder uses it.  The checks and the case folding that the DOM applies
    to attribute names are not modelled. *)
Abbreviation Element := (gmap string string).

Definition getAttribute (this : Element) (name : string) : option string := this !! name.

Definition hasAttribute (this : Element) (name : string) : bool :=
  match this !! name with Some _ => true | None => false end.

Definition setAttribute (this : Element) (name value : string) : Element :=
  <[name := value]> this.

Definition removeAttribute (this : Element) (name : string) : Element := delete name this.

(** [toggleAttribute(name, force)]; [force] is [None] when the argument is
    missing. *)
Definition toggleAttribute (this : Element) (name : string) (force : option bool) : Element :=
  match this !! name, force with
  | None, (None | Some true) => <[name := ""]> this
  | None, Some false => this
  | Some _, (None | Some false) => delete name this
  | Some _, Some true => this
  end.

(** What [getAttribute] returns, as a value: the text, or [null]. *)
Definition attribute_value (text : option string) : Value :=
  match text with
  | Some t => VString t
  | None => VNull
  end.

(** A boolean parameter that may be missing: [undefined] counts as a
    missing argument. *)
Definition optional_boolean (v : Value) : option bool :=
  match v with
  | VUndefined => None
  | _ => Some (ToBoolean v)
  end.

(** An accessor descriptor.  The accessors use [this] through the
    attribute methods only, so [this] is the element. *)
Record PropertyDescriptor : Type := {
  configurable : bool;
  get : Element -> Completion Value;
  set : Element -> Value -> Completion Element;
}.

Inductive Property : Type :=
| DataProperty (value : Value)
| AccessorProperty (descriptor : PropertyDescriptor).

(** Calls of the accessors that the author of a class wrote. *)
Inductive Call : Type :=
| AuthorGet (name : string)
| AuthorSet (name : string) (value : Value).

(** A component: the attributes of its element, its own properties, the
    accessor pairs that its class defines, each with the value of the
    private field behind it, and the calls of these accessors so far,
    oldest first. *)
Record Component : Type := {
  attributes : Element;
  own : gmap string Property;
  authored : gmap string Value;
  calls : list Call;
}.

Definition with_attributes (c : Component) (a : Element) : Component :=
  {| attributes := a; own := own c; authored := authored c; calls := calls c |}.

(** [Object.defineProperty(component, name, descriptor)] on an extensible
    component whose own properties are configurable. *)
Definition defineProperty (c : Component) (name : string) (descriptor : PropertyDescriptor)
  : Component :=
  {| attributes := attributes c;
     own := <[name := AccessorProperty descriptor]> (own c);
     authored := authored c;
     calls := calls c |}.

(** [name in component]: an own property, or an accessor pair of the class. *)
Definition has_property (c : Component) (name : string) : bool :=
  match own c !! name, authored c !! name with
  | None, None => false
  | _, _ => true
  end.

(** [descriptor.set.call(component, value)] and
    [descriptor.get.call(component)]. *)
Definition call_set (descriptor : PropertyDescriptor) (c : Component) (value : Value)
  : Component * Completion unit :=
  match set descriptor (attributes c) value with
  | Normal a => (with_attributes c a, Normal tt)
  | Throw e => (c, Throw e)
  | Unmodelled => (c, Unmodelled)
  end.

Definition call_get (descriptor : PropertyDescriptor) (c : Component) : Completion Value :=
  get descriptor (attributes c).

(** Reading [component[name]]: an own property comes first, then the
    accessor pair of the class, whose getter is logged. *)
Definition read_property (c : Component) (name : string) : Component * Completion Value :=
  match own c !! name with
  | Some (AccessorProperty descriptor) => (c, call_get descriptor c)
  | Some (DataProperty v) => (c, Normal v)
  | None =>
      match authored c !! name with
      | Some v =>
          ({| attributes := attributes c; own := own c; authored := authored c;
              calls := (calls c ++ [AuthorGet name])%list |}, Normal v)
      | None => (c, Normal VUndefined)
      end
  end.

(** Writing [component[name] = value]. *)
Definition write_property (c : Component) (name : string) (value : Value)
  : Component * Completion unit :=
  match own c !! name with
  | Some (AccessorProperty descriptor) => call_set descriptor c value
  | Some (DataProperty _) =>
      ({| attributes := attributes c; own := <[name := DataProperty value]> (own c);
          authored := authored c; calls := calls c |}, Normal tt)
  | None =>
      match authored c !! name with
      | Some _ =>
          ({| attributes := attributes c; own := own c;
              authored := <[name := value]> (authored c);
              calls := (calls c ++ [AuthorSet name value])%list |}, Normal tt)
      | None =>
          ({| attributes := attributes c; own := <[name := DataProperty value]> (own c);
              authored := authored c; calls := calls c |}, Normal tt)
      end
  end.

(** The accessors that a lookup finds on a component: the pair that the
    binder installed with a descriptor, or the pair of the author. *)
Inductive Getter : Type :=
| InstalledGetter (descriptor : PropertyDescriptor)
| AuthorGetter (name : string).

Inductive Setter : Type :=
| InstalledSetter (descriptor : PropertyDescriptor)
| AuthorSetter (name : string).

(** The objects on the prototype chain of a component: the instance, then
    the prototype of its class. *)
Inductive ChainObject : Type :=
| Instance (c : Component)
| Prototype (c : Component).

Definition getOwnPropertyDescriptor (o : ChainObject) (key : string)
  : option (option Getter * option Setter) :=
  match o with
  | Instance c =>
      match own c !! key with
      | Some (AccessorProperty d) => Some (Some (InstalledGetter d), Some (InstalledSetter d))
      | Some (DataProperty _) => Some (None, None)
      | None => None
      end
  | Prototype c =>
      match authored c !! key with
      | Some _ => Some (Some (AuthorGetter key), Some (AuthorSetter key))
      | None => None
      end
  end.

Definition prototype_chain (c : Component) : list ChainObject := [Instance c; Prototype c].

(* ===================================================================== *)
(** ** The attribute binder ([attributable.ts]) *)
(* ===================================================================== *)

Definition numberDescriptor (parameterized : string) : PropertyDescriptor := {|
  configurable := true;
  get := fun this =>
    n ← Number_ (or_else (attribute_value (getAttribute this parameterized)) (VNumber (Int 0)));
    Normal (VNumber n);
  set := fun this fresh =>
    text ← ToString fresh;
    Normal (setAttribute this parameterized text);
|}.

Definition booleanDescriptor (parameterized : string) : PropertyDescriptor := {|
  configurable := true;
  get := fun this => Normal (VBoolean (hasAttribute this parameterized));
  set := fun this fresh =>
    Normal (toggleAttribute this parameterized (optional_boolean fresh));
|}.

Definition stringDescriptor (parameterized : string) : PropertyDescriptor := {|
  configurable := true;
  get := fun this =>
    Normal (or_else (attribute_value (getAttribute this parameterized)) (VString ""));
  set := fun this fresh =>
    text ← ToString (or_else fresh (VString ""));
    Normal (setAttribute this parameterized text);
|}.

(** [JSON.stringify(value)] handed to a DOMString parameter: the
    [undefined] result becomes the text [undefined]. *)
Definition stringified (value : Value) : Completion string :=
  text ← JSON.stringify value;
  Normal (default "undefined" text).

Definition arrayDescriptor (parameterized : string) : PropertyDescriptor := {|
  configurable := true;
  get := fun this =>
    text ← ToString (or_else (attribute_value (getAttribute this parameterized)) (VString "[]"));
    value ← JSON.parse text;
    if is_null value || negb (String.eqb (typeof value) "object") || negb (Array_isArray value)
    then Throw TypeError
    else Normal value;
  set := fun this fresh =>
    text ← stringified (or_else fresh (VArray []));
    Normal (setAttribute this parameterized text);
|}.

Definition objectDescriptor (parameterized : string) : PropertyDescriptor := {|
  configurable := true;
  get := fun this =>
    text ← ToString (or_else (attribute_value (getAttribute this parameterized)) (VString "{}"));
    value ← JSON.parse text;
    if is_null value || negb (String.eqb (typeof value) "object") || Array_isArray value
    then Throw TypeError
    else Normal value;
  set := fun this fresh =>
    text ← stringified (or_else fresh (VObject []));
    Normal (setAttribute this parameterized text);
|}.

(** The chain of [typeof] tests of the binder: the descriptor for a
    declared value, or [None] when no test applies and [descriptor] stays
    [undefined]. *)
Definition select_descriptor (parameterized : string) (value : Value)
  : option PropertyDescriptor :=
  if String.eqb (typeof value) "number" then Some (numberDescriptor parameterized)
  else if String.eqb (typeof value) "boolean" then Some (booleanDescriptor parameterized)
  else if String.eqb (typeof value) "string" then Some (stringDescriptor parameterized)
  else if String.eqb (typeof value) "object" && Array_isArray value
       then Some (arrayDescriptor parameterized)
  else if String.eqb (typeof value) "object" && negb (Array_isArray value)
       then Some (objectDescriptor parameterized)
  else None.

(** Modelled from the spec: the registry of [./registry.js], which is not
    among the sources.  It is the ordered sequence of the declarations
    (name, initial value) of one class; [push] appends and [all] reads the
    sequence back in that order. *)
Definition Registry : Type := list (string * Value).

Definition push (registry : Registry) (name : string) (value : Value) : Registry :=
  (registry ++ [(name, value)])%list.

Definition all (registry : Registry) : list (string * Value) := registry.

Section Attributable.

(** [mustParameterize] of [./parameterize.js] is not among the sources;
    the binder is embedded over any such function.  [Util.mustKebabCase]
    is the normalizer that the sources hold. *)
Variable mustParameterize : string -> Completion string.

(** The body of the loop of [initializeAttributable] for one entry of
    the registry.  The component is returned as the body leaves it, also
    when it throws. *)
Definition bind_declaration (component : Component) (entry : string * Value)
  : Component * Completion unit :=
  let '(name, value) := entry in
  match mustParameterize name with
  | Throw e => (component, Throw e)
  | Unmodelled => (component, Unmodelled)
  | Normal parameterized =>
      match select_descriptor parameterized value with
      | None => (component, Throw TypeError)
      | Some descriptor =>
          let component := defineProperty component name descriptor in
          if has_property component name && negb (hasAttribute (attributes component) parameterized)
          then call_set descriptor component value
          else (component, Normal tt)
      end
  end.

Fixpoint for_of (component : Component) (entries : list (string * Value))
  : Component * Completion unit :=
  match entries with
  | [] => (component, Normal tt)
  | entry :: entries' =>
      match bind_declaration component entry with
      | (component', Normal _) => for_of component' entries'
      | stopped => stopped
      end
  end.

Definition initializeAttributable (component : Component) (metadata : Registry)
  : Component * Completion unit :=
  for_of component (all metadata).

End Attributable.

(* ===================================================================== *)
(** ** The decorators ([attributable.ts]) *)
(* ===================================================================== *)

(** The kinds of a decorator context. *)
Inductive DecoratorKind : Type :=
| KindClass | KindMethod | KindGetter | KindSetter | KindField | KindAccessor.

Definition DecoratorKind_eqb (a b : DecoratorKind) : bool :=
  match a, b with
  | KindClass, KindClass | KindMethod, KindMethod | KindGetter, KindGetter
  | KindSetter, KindSetter | KindField, KindField | KindAccessor, KindAccessor => true
  | _, _ => false
  end.

Record DecoratorContext : Type := {
  kind : DecoratorKind;
  name : string;
}.

(** [attributable()]: the class decorator.  The class it returns runs the
    binder in [mountCallback] and then the [mountCallback] of the class it
    extends. *)
Definition attributable (mustParameterize : string -> Completion string)
    (super_mountCallback : Component -> Component * Completion unit)
    (context : DecoratorContext)
  : Completion (Registry -> Component -> Component * Completion unit) :=
  if negb (DecoratorKind_eqb (kind context) KindClass) then Throw TypeError
  else Normal (fun metadata this =>
    match initializeAttributable mustParameterize this metadata with
    | (this', Normal _) => super_mountCallback this'
    | stopped => stopped
    end).

(** The type tokens of [AttributeOptions]. *)
Inductive TypeToken : Type :=
| StringConstructor | NumberConstructor | BooleanConstructor
| ArrayConstructor | ObjectConstructor.

Definition TypeToken_eqb (a b : TypeToken) : bool :=
  match a, b with
  | StringConstructor, StringConstructor | NumberConstructor, NumberConstructor
  | BooleanConstructor, BooleanConstructor | ArrayConstructor, ArrayConstructor
  | ObjectConstructor, ObjectConstructor => true
  | _, _ => false
  end.

Record AttributeOptions : Type := { type : TypeToken }.

(** [value.constructor]: [Some] token when it is one of the five, [None]
    when it is anything else.  A plain object may hold an own property of
    that name; a function in it has no identity in the model. *)
Definition constructor_of (value : Value) : Completion (option TypeToken) :=
  match value with
  | VUndefined | VNull => Throw TypeError
  | VBoolean _ => Normal (Some BooleanConstructor)
  | VNumber _ => Normal (Some NumberConstructor)
  | VString _ => Normal (Some StringConstructor)
  | VArray _ => Normal (Some ArrayConstructor)
  | VObject properties =>
      match own_property properties "constructor" with
      | None => Normal (Some ObjectConstructor)
      | Some VFunction => Unmodelled
      | Some _ => Normal None
      end
  | VFunction | VSymbol | VBigInt _ => Normal None
  end.

(** [value.constructor === t] *)
Definition is_token (c : option TypeToken) (t : TypeToken) : bool :=
  match c with
  | Some t' => TypeToken_eqb t' t
  | None => false
  end.

(** [new options.type().valueOf()] *)
Definition zero_value (t : TypeToken) : Value :=
  match t with
  | StringConstructor => VString ""
  | NumberConstructor => VNumber (Int 0)
  | BooleanConstructor => VBoolean false
  | ArrayConstructor => VArray []
  | ObjectConstructor => VObject []
  end.

(** The function that the field decorator returns: the initializer of the
    field.  The language runs it with the initial value of the field each
    time the field of an instance is initialized.  It returns nothing, so
    the field starts as [undefined]. *)
Definition attribute_initializer (options : AttributeOptions) (context : DecoratorContext)
    (value : Value) (registry : Registry) : Registry * Completion Value :=
  let mismatch : Completion bool :=
    if is_undefined value then Normal false
    else c ← constructor_of value; Normal (negb (is_token c (type options))) in
  match mismatch with
  | Normal true => (registry, Throw TypeError)
  | Normal false =>
      (push registry (name context) (nullish value (zero_value (type options))),
       Normal VUndefined)
  | Throw e => (registry, Throw e)
  | Unmodelled => (registry, Unmodelled)
  end.

(** [attribute(options)]: the field decorator, as the class definition
    applies it to the context of the decorated element. *)
Definition attribute (options : AttributeOptions) (context : DecoratorContext)
  : Completion (Value -> Registry -> Registry * Completion Value) :=
  if negb (DecoratorKind_eqb (kind context) KindField) then Throw TypeError
  else Normal (attribute_initializer options context).

(* ===================================================================== *)
(** ** The specification in its own words *)
(* ===================================================================== *)

Module Spec.

(** *** The name normalizer *)

(** [c] is one of [letters]. *)
Fixpoint one_of (letters : string) (c : ascii) : bool :=
  match letters with
  | EmptyString => false
  | String l rest => Ascii.eqb l c || one_of rest c
  end.

(** An uppercase letter, and a lowercase letter. *)
Definition uppercase (c : ascii) : bool := one_of "ABCDEFGHIJKLMNOPQRSTUVWXYZ" c.
Definition lowercase (c : ascii) : bool := one_of "abcdefghijklmnopqrstuvwxyz" c.

(** A run of [n] separators. *)
Fixpoint separators (n : nat) : string :=
  match n with
  | O => EmptyString
  | S n' => String dash (separators n')
  end.

(** Collapsing doubled separators.  The separators of a run are taken in
    pairs from the left; each pair leaves one separator and a separator
    left over stays, so that a run of n separators becomes a run of n/2,
    rounded up.  [pending] counts the separators of the run read so far. *)
Fixpoint collapse (pending : nat) (s : string) : string :=
  match s with
  | EmptyString => separators (Nat.div2 (S pending))
  | String c rest =>
      if Ascii.eqb c dash then collapse (S pending) rest
      else separators (Nat.div2 (S pending)) ++ String c (collapse 0 rest)
  end.

Definition is_separator (c : option ascii) : bool :=
  match c with
  | Some c => Ascii.eqb c dash
  | None => false
  end.

(** Stripping a leading or trailing separator.  One separator goes: the
    first character when it is a separator, otherwise the last character
    when it is one. *)
Definition strip (s : string) : string :=
  let n := String.length s in
  if is_separator (String.get 0 s) then String.substring 1 (n - 1) s
  else if is_separator (String.get (n - 1) s) then String.substring 0 (n - 1) s
  else s.

(** Lower case.  The capital letters, A-Z and those of U+00C0..U+00DE
    (the multiplication sign U+00D7 is none), differ from their small
    letters in one bit of the code. *)
Definition capital_letter (c : ascii) : bool :=
  uppercase c ||
  ((192 <=? N_of_ascii c) && (N_of_ascii c <=? 222) && negb (N_of_ascii c =? 215))%N.

Definition lower (c : ascii) : ascii :=
  if capital_letter c
  then let 'Ascii b0 b1 b2 b3 b4 _ b6 b7 := c in Ascii b0 b1 b2 b3 b4 true b6 b7
  else c.

Fixpoint lower_case (s : string) : string :=
  match s with
  | EmptyString => EmptyString
  | String c rest => String (lower c) (lower_case rest)
  end.

(** The longest run of uppercase letters at the start of [s], and what
    follows. *)
Fixpoint span_upper (s : string) : string * string :=
  match s with
  | String c rest =>
      if uppercase c
      then let '(run, after) := span_upper rest in (String c run, after)
      else (EmptyString, s)
  | EmptyString => (EmptyString, EmptyString)
  end.

(** The run of uppercase letters that starts [s] is followed by the end of
    the string or by a lowercase letter. *)
Definition run_ends_word (s : string) : bool :=
  match snd (span_upper s) with
  | EmptyString => true
  | String d _ => lowercase d
  end.

(** A separator before every run of one or more uppercase letters that is
    followed by the end of the string or by a lowercase letter; [inside]
    tells that the character before was an uppercase letter, so that no
    separator goes between the letters of a run. *)
Fixpoint insert_before_runs (inside : bool) (s : string) : string :=
  match s with
  | EmptyString => EmptyString
  | String c rest =>
      if uppercase c then
        if negb inside && run_ends_word s
        then String dash (String c (insert_before_runs true rest))
        else String c (insert_before_runs true rest)
      else String c (insert_before_runs false rest)
  end.

(** The normalizer as the sentence of the specification words it. *)
Definition normalize_by_runs (key : string) : string :=
  lower_case (strip (collapse 0 (insert_before_runs false key))).

(** An uppercase letter that is directly followed by the end of the string
    or by a lowercase letter. *)
Definition boundary (c : ascii) (rest : string) : bool :=
  uppercase c &&
  match rest with
  | EmptyString => true
  | String d _ => lowercase d
  end.

(** A separator before every such letter. *)
Fixpoint insert_at_boundaries (s : string) : string :=
  match s with
  | EmptyString => EmptyString
  | String c rest =>
      if boundary c rest
      then String dash (String c (insert_at_boundaries rest))
      else String c (insert_at_boundaries rest)
  end.

Definition normalize_by_boundaries (key : string) : string :=
  lower_case (strip (collapse 0 (insert_at_boundaries key))).

(** The uppercase letters from the start of [s] reach the end of the
    string. *)
Fixpoint capitals_to_end (s : string) : bool :=
  match s with
  | EmptyString => false
  | String c EmptyString => uppercase c
  | String c rest => uppercase c && capitals_to_end rest
  end.

(** The sentence read with its examples: an uppercase letter that a
    lowercase letter follows starts a word and takes a separator, also at
    the end of a run of uppercase letters (URLBar gives URL-Bar); a run
    that ends the string takes its separator before the run; no separator
    goes between two letters of an acronym. *)
Fixpoint insert_before_words (inside : bool) (s : string) : string :=
  match s with
  | EmptyString => EmptyString
  | String c rest =>
      if uppercase c then
        if match rest with
           | String d _ => lowercase d
           | EmptyString => false
           end || (negb inside && capitals_to_end s)
        then String dash (String c (insert_before_words true rest))
        else String c (insert_before_words true rest)
      else String c (insert_before_words false rest)
  end.

Definition normalize_by_words (key : string) : string :=
  lower_case (strip (collapse 0 (insert_before_words false key))).

(** *** The kinds and their table *)

(** The five kinds, and the kind of a value by its runtime shape; [null],
    [undefined], functions, symbols and bigints are of no kind. *)
Inductive Kind : Type := KNumber | KBoolean | KString | KArray | KPlainObject.

Definition kind_of (v : Value) : option Kind :=
  match v with
  | VNumber _ => Some KNumber
  | VBoolean _ => Some KBoolean
  | VString _ => Some KString
  | VArray _ => Some KArray
  | VObject _ => Some KPlainObject
  | _ => None
  end.

(** The column Get of the table of the kinds, for an attribute that is
    present with [text].  Number: the text parsed as a number, 0 for the
    empty text.  Boolean: the presence.  String: the text.  Array and
    PlainObject: the JSON value of the text, of the default text when there
    is none, with a type error for a value of the wrong shape. *)
Definition decode (k : Kind) (text : string) : Completion Value :=
  match k with
  | KNumber =>
      if String.eqb text "" then Normal (VNumber (Int 0))
      else n ← StringToNumber text; Normal (VNumber n)
  | KBoolean => Normal (VBoolean true)
  | KString => Normal (VString text)
  | KArray =>
      v ← JSON.parse (if String.eqb text "" then "[]" else text);
      match v with
      | VArray _ => Normal v
      | _ => Throw TypeError
      end
  | KPlainObject =>
      v ← JSON.parse (if String.eqb text "" then "{}" else text);
      match v with
      | VObject _ => Normal v
      | _ => Throw TypeError
      end
  end.

End Spec.

(* ===================================================================== *)
(** ** Valid values and the text of an attribute *)
(* ===================================================================== *)

(** Numbers that the text of an attribute gives back: all but minus zero,
    which is written as 0, and the integers outside the safe range. *)
Definition valid_number (n : number) : bool :=
  match n with
  | NaN | Infinity _ => true
  | NegZero => false
  | Int z => isSafeInteger z
  end.

(** The values that JSON text holds: null, booleans, safe integers other
    than minus zero, strings, and arrays and objects of such values, the
    keys of an object being distinct and none of them written with digits
    only, so that the order of the list is the order of the text. *)
Fixpoint distinct_keys (properties : list (string * Value)) : bool :=
  match properties with
  | [] => true
  | (k, _) :: rest =>
      match own_property rest k with
      | Some _ => false
      | None => distinct_keys rest
      end
  end.

Definition plain_keys (properties : list (string * Value)) : bool :=
  forallb (fun kv => negb (index_like (fst kv))) properties.

Fixpoint json_valid (v : Value) : bool :=
  match v with
  | VNull | VBoolean _ | VString _ => true
  | VNumber (Int z) => isSafeInteger z
  | VArray elements => forallb json_valid elements
  | VObject properties =>
      distinct_keys properties && plain_keys properties &&
      forallb (fun kv => json_valid (snd kv)) properties
  | _ => false
  end.

(** The values of the five kinds that the text of an attribute holds
    without loss. *)
Definition valid_value (v : Value) : bool :=
  match v with
  | VNumber n => valid_number n
  | VBoolean _ | VString _ => true
  | VArray _ | VObject _ => json_valid v
  | _ => false
  end.

(** The text of the attribute for a value, by the table of the kinds;
    [None] when the value leaves no attribute. *)
Definition encoded (v : Value) : Completion (option string) :=
  match v with
  | VNumber n => t ← Number_toString n; Normal (Some t)
  | VBoolean b => Normal (if b then Some "" else None)
  | VString s => Normal (Some s)
  | VArray _ | VObject _ => JSON.stringify v
  | _ => Unmodelled
  end.

(** The initial value has a constructor, and it is not the declared type. *)
Definition constructor_differs (value : Value) (t : TypeToken) : Prop :=
  exists c, constructor_of value = Normal c /\ is_token c t = false.

(** A declaration of another identifier than [n]. *)
Definition other_name (n : string) (entry : string * Value) : Prop := fst entry <> n.

(** A declaration that shares neither the identifier nor the normalized
    attribute with the declaration of [n], whose attribute is [p]. *)
Definition apart (mustParameterize : string -> Completion string) (n p : string)
    (entry : string * Value) : Prop :=
  fst entry <> n /\ forall p', mustParameterize (fst entry) = Normal p' -> p' <> p.

(* ===================================================================== *)
(** ** The classes of the test suite *)
(* ===================================================================== *)

Definition fresh_component : Component :=
  {| attributes := ∅; own := ∅; authored := ∅; calls := [] |}.

Definition test_declarations : Registry :=
  [ ("testNumber", VNumber (Int 123));
    ("testBool", VBoolean false);
    ("testString", VString "foo");
    ("testArray", VArray [VNumber (Int 1); VNumber (Int 2); VNumber (Int 3)]);
    ("testObject", VObject [("foo", VString "bar")]) ].

Definition mounted : Component :=
  fst (initializeAttributable Util.mustKebabCase fresh_component test_declarations).

Definition test_before : list (string * Value) :=
  [ ("testNumber", VNumber (Int 123));
    ("testBool", VBoolean false);
    ("testString", VString "foo") ].

Definition test_array : Value := VArray [VNumber (Int 1); VNumber (Int 2); VNumber (Int 3)].

Definition test_after : list (string * Value) :=
  [ ("testObject", VObject [("foo", VString "bar")]) ].

Definition field (n : string) : DecoratorContext := {| kind := KindField; name := n |}.

(** The text of an object with the one property foo, of value 1. *)
Definition foo_one : string := "{" ++ JSON.quote "foo" ++ ":1}".

Definition with_markup (markup : Element) : Component :=
  {| attributes := markup; own := ∅; authored := ∅; calls := [] |}.

(* ===================================================================== *)
(** ** Notions for the proofs *)
(* ===================================================================== *)

(** The text behind a run of digits does not go on with a digit. *)
Definition no_digit_ahead (rest : string) : bool :=
  match rest with
  | String c _ => negb (isDigit c)
  | EmptyString => true
  end.

Definition not_space (c : ascii) : bool := negb (isStrWhiteSpace c).

(** Fuel that [JSON.parse_value] needs for the text of a value. *)
Fixpoint size (v : Value) : nat :=
  match v with
  | VArray elements => S (list_sum (List.map (fun x => S (size x)) elements))
  | VObject properties => S (list_sum (List.map (fun kv => S (size (snd kv))) properties))
  | _ => 1
  end.

Definition sizes (elements : list Value) : nat :=
  list_sum (List.map (fun x => S (size x)) elements).

Definition member_sizes (properties : list (string * Value)) : nat :=
  list_sum (List.map (fun kv => S (size (snd kv))) properties).

(** The loops of [JSON.serialize] over the elements and the properties. *)
Fixpoint serialize_elements (l : list Value) : Completion (list string) :=
  match l with
  | [] => Normal []
  | x :: l' =>
      t ← JSON.serialize x;
      ts ← serialize_elements l';
      Normal (default "null" t :: ts)
  end.

Fixpoint serialize_members (l : list (string * Value)) : Completion (list string) :=
  match l with
  | [] => Normal []
  | (k, x) :: l' =>
      if index_like k then Unmodelled
      else
        t ← JSON.serialize x;
        ts ← serialize_members l';
        Normal (match t with
                | Some t => (JSON.quote k ++ ":" ++ t) :: ts
                | None => ts
                end)
  end.

(** A text that starts a value: its first character is no white space and
    closes neither an array nor an object. *)
Definition starts_value (t : string) : bool :=
  match t with
  | String c _ =>
      negb (JSON.isWhiteSpace c) && negb (Ascii.eqb c "]") && negb (Ascii.eqb c "}")
  | EmptyString => false
  end.

(** What may follow a value: the end of the text, a comma, or the closing
    bracket or brace. *)
Definition delimiter_ahead (rest : string) : bool :=
  match rest with
  | String c _ => Ascii.eqb c "," || Ascii.eqb c "]" || Ascii.eqb c "}"
  | EmptyString => true
  end.

Definition roundtrips (v : Value) : Prop :=
  exists t,
    JSON.serialize v = Normal (Some t) /\
    starts_value t = true /\
    (size v <= String.length t)%nat /\
    forall fuel rest,
      (size v <= fuel)%nat -> delimiter_ahead rest = true ->
      JSON.parse_value fuel (t ++ rest) = Normal (v, rest).

(** No key of [acc] is a key of [ps]. *)
Definition disjoint_keys (acc ps : list (string * Value)) : Prop :=
  forall k, own_property acc k = None \/ own_property ps k = None.

Definition starts_with_quote (t : string) : bool :=
  match t with
  | String c _ => Ascii.eqb c quotation_mark
  | EmptyString => false
  end.

Section Value_induction.
Variable P : Value -> Prop.
Hypothesis Hundefined : P VUndefined.
Hypothesis Hnull : P VNull.
Hypothesis Hboolean : forall b, P (VBoolean b).
Hypothesis Hnumber : forall n, P (VNumber n).
Hypothesis Hstring : forall s, P (VString s).
Hypothesis Harray : forall elements, Forall P elements -> P (VArray elements).
Hypothesis Hobject :
  forall properties, Forall (fun kv => P (snd kv)) properties -> P (VObject properties).
Hypothesis Hfunction : P VFunction.
Hypothesis Hsymbol : P VSymbol.
Hypothesis Hbigint : forall z, P (VBigInt z).

Fixpoint Value_nested_ind (v : Value) : P v :=
  match v with
  | VUndefined => Hundefined
  | VNull => Hnull
  | VBoolean b => Hboolean b
  | VNumber n => Hnumber n
  | VString s => Hstring s
  | VArray elements =>
      Harray elements
        ((fix each (l : list Value) : Forall P l :=
            match l with
            | [] => @List.Forall_nil _ P
            | x :: l' => @List.Forall_cons _ P x l' (Value_nested_ind x) (each l')
            end) elements)
  | VObject properties =>
      Hobject properties
        ((fix each (l : list (string * Value)) : Forall (fun kv => P (snd kv)) l :=
            match l with
            | [] => @List.Forall_nil _ _
            | kv :: l' =>
                @List.Forall_cons _ (fun kv => P (snd kv)) kv l' (Value_nested_ind (snd kv)) (each l')
            end) properties)
  | VFunction => Hfunction
  | VSymbol => Hsymbol
  | VBigInt z => Hbigint z
  end.
End Value_induction.

Ltac each_char c := destruct c as [[] [] [] [] [] [] [] []]; try discriminate; try reflexivity.

Ltac stands_apart :=
  repeat (apply List.Forall_cons;
          [split; [discriminate
                  | let p' := fresh "p" in let H := fresh "H" in
                    intros p' H; vm_compute in H; injection H as <-; discriminate] |]);
  apply List.Forall_nil.

Ltac other_names :=
  repeat (apply List.Forall_cons; [discriminate|]); apply List.Forall_nil.

(* ===================================================================== *)
(** ** Notions for the further properties *)
(* ===================================================================== *)

(** Every dash of [s] stands between two characters that are no dashes;
    [after_dash] tells that the character before was a dash, or that the
    string starts here. *)
Fixpoint single_dashes (after_dash : bool) (s : string) : bool :=
  match s with
  | EmptyString => negb after_dash
  | String c rest =>
      if Ascii.eqb c dash then negb after_dash && single_dashes true rest
      else single_dashes false rest
  end.

(** No character of [s] is one of A-Z. *)
Definition no_capital (s : string) : bool := all_chars (fun c => negb (isUpper c)) s.

(** The words of a name in camel case behind its first word, each a
    capital and the letters behind it, written one after the other. *)
Fixpoint camel (words : list (ascii * string)) : string :=
  match words with
  | [] => EmptyString
  | (c, w) :: rest => String c (w ++ camel rest)
  end.

(** The same words, each behind a dash and with its capital in lower case. *)
Fixpoint dashed (words : list (ascii * string)) : string :=
  match words with
  | [] => EmptyString
  | (c, w) :: rest => String dash (String (toLowerCase_char c) (w ++ dashed rest))
  end.

(** Each word is one of A-Z followed by letters of a-z, and only the last
    word may be a capital alone. *)
Fixpoint camel_words (words : list (ascii * string)) : bool :=
  match words with
  | [] => true
  | (c, w) :: rest =>
      isUpper c && all_chars isLower w &&
      match rest, w with
      | _ :: _, EmptyString => false
      | _, _ => true
      end && camel_words rest
  end.

(** The capitals of the words, each behind a dash. *)
Fixpoint dashed_capitals (words : list (ascii * string)) : string :=
  match words with
  | [] => EmptyString
  | (c, w) :: rest => String dash (String c (w ++ dashed_capitals rest))
  end.

(** The own properties after the body of the loop has installed the
    accessor of one declaration; a declaration that the body rejects
    installs nothing. *)
Definition install_one (mustParameterize : string -> Completion string)
    (properties : gmap string Property) (entry : string * Value) : gmap string Property :=
  match mustParameterize (fst entry) with
  | Normal p =>
      match select_descriptor p (snd entry) with
      | Some d => <[fst entry := AccessorProperty d]> properties
      | None => properties
      end
  | _ => properties
  end.

Definition install (mustParameterize : string -> Completion string)
    (properties : gmap string Property) (entries : list (string * Value))
  : gmap string Property :=
  fold_left (install_one mustParameterize) entries properties.

(** A declaration that the binder accepts and whose setter has nothing to
    write into the attributes [a]: where its attribute is absent, the
    setter leaves [a] as it is. *)
Definition settled (mustParameterize : string -> Completion string)
    (a : Element) (entry : string * Value) : Prop :=
  exists p d,
    mustParameterize (fst entry) = Normal p /\
    select_descriptor p (snd entry) = Some d /\
    (a !! p = None -> set d a (snd entry) = Normal a).

(** The attributes after a setter has written, or left out, the text [u]
    of the attribute [p]. *)
Definition written (p : string) (u : option string) (a : Element) : Element :=
  match u with
  | Some text => <[p := text]> a
  | None => a
  end.

Ltac descriptor_cases Hd :=
  unfold select_descriptor in Hd;
  repeat match type of Hd with
         | (if ?b then _ else _) = _ => destruct b
         end; try discriminate; injection Hd as <-.

(* ===================================================================== *)
(** * Theorems *)
(* ===================================================================== *)

#[local] Arguments String.append !s1 s2 : simpl nomatch.

(* ===================================================================== *)
(** ** The sources on the examples of the test suite *)
(* ===================================================================== *)

Example toKebabCase_fooBarBazBing : Util.toKebabCase "fooBarBazBing" = "foo-bar-baz-bing".
Proof. reflexivity. Qed.
Example toKebabCase_URLBar : Util.toKebabCase "URLBar" = "url-bar".
Proof. reflexivity. Qed.
Example toKebabCase_ClipX : Util.toKebabCase "ClipX" = "clip-x".
Proof. reflexivity. Qed.
Example toKebabCase_URL : Util.toKebabCase "fooURL" = "foour-l".
Proof. reflexivity. Qed.
Example mustKebabCase_foo : Util.mustKebabCase "foo" = Throw (DOMException "foo is not a valid name" "SyntaxError").
Proof. reflexivity. Qed.

Example Number_456 : StringToNumber "456" = Normal (Int 456).
Proof. reflexivity. Qed.
Example Number_padded : StringToNumber " -007 " = Normal (Int (-7)).
Proof. reflexivity. Qed.
Example Number_minus_zero : StringToNumber "-0" = Normal NegZero.
Proof. reflexivity. Qed.
Example Number_text : StringToNumber "bing" = Normal NaN.
Proof. reflexivity. Qed.
Example Number_fraction : StringToNumber "1.5" = Unmodelled.
Proof. reflexivity. Qed.
Example Number_huge : StringToNumber "9007199254740993" = Unmodelled.
Proof. reflexivity. Qed.
Example Number_toString_neg : Number_toString (Int (-123)) = Normal "-123".
Proof. reflexivity. Qed.

Example stringify_array :
  JSON.stringify (VArray [VNumber (Int 1); VNumber (Int 2); VNumber (Int 3)]) = Normal (Some "[1,2,3]").
Proof. reflexivity. Qed.
Example stringify_object :
  JSON.stringify (VObject [("foo", VString "bar")]) = Normal (Some ("{" ++ JSON.quote "foo" ++ ":" ++ JSON.quote "bar" ++ "}")).
Proof. reflexivity. Qed.
Example stringify_lossy :
  JSON.stringify (VArray [VUndefined; VNumber NaN; VFunction]) = Normal (Some "[null,null,null]").
Proof. reflexivity. Qed.
Example parse_array :
  JSON.parse " [4, 5,6 ] " = Normal (VArray [VNumber (Int 4); VNumber (Int 5); VNumber (Int 6)]).
Proof. reflexivity. Qed.
Example parse_object :
  JSON.parse ("{" ++ JSON.quote "foo" ++ ":" ++ JSON.quote "baz" ++ ","
                  ++ JSON.quote "n" ++ ":[null,true,{}]}")
  = Normal (VObject [("foo", VString "baz"); ("n", VArray [VNull; VBoolean true; VObject []])]).
Proof. reflexivity. Qed.
Example parse_duplicate :
  JSON.parse ("{" ++ JSON.quote "a" ++ ":1," ++ JSON.quote "b" ++ ":2," ++ JSON.quote "a" ++ ":3}")
  = Normal (VObject [("a", VNumber (Int 3)); ("b", VNumber (Int 2))]).
Proof. reflexivity. Qed.
Example parse_bad : JSON.parse "[1,]" = Throw SyntaxError.
Proof. reflexivity. Qed.
Example parse_leading_zero : JSON.parse "01" = Throw SyntaxError.
Proof. reflexivity. Qed.

Example mounted_number : attributes mounted !! "test-number" = Some "123".
Proof. vm_compute. reflexivity. Qed.
Example mounted_bool : attributes mounted !! "test-bool" = None.
Proof. vm_compute. reflexivity. Qed.
Example mounted_string : attributes mounted !! "test-string" = Some "foo".
Proof. vm_compute. reflexivity. Qed.
Example mounted_array : attributes mounted !! "test-array" = Some "[1,2,3]".
Proof. vm_compute. reflexivity. Qed.
Example mounted_object :
  attributes mounted !! "test-object"
  = Some ("{" ++ JSON.quote "foo" ++ ":" ++ JSON.quote "bar" ++ "}").
Proof. vm_compute. reflexivity. Qed.
Example mounted_reads :
  snd (read_property mounted "testNumber") = Normal (VNumber (Int 123)) /\
  snd (read_property mounted "testBool") = Normal (VBoolean false) /\
  snd (read_property mounted "testString") = Normal (VString "foo") /\
  snd (read_property mounted "testArray")
    = Normal (VArray [VNumber (Int 1); VNumber (Int 2); VNumber (Int 3)]) /\
  snd (read_property mounted "testObject") = Normal (VObject [("foo", VString "bar")]).
Proof. vm_compute. repeat split. Qed.

(* ===================================================================== *)
(** ** The name normalizer *)
(* ===================================================================== *)

Lemma isUpper_not_isLower c : isLower c = true -> isUpper c = false.
Proof.
  unfold isLower, isUpper, in_range. intros H.
  apply andb_true_iff in H as [H1 H2]. apply N.leb_le in H1.
  apply andb_false_iff. right. apply N.leb_gt. lia.
Qed.

Lemma uppercase_isUpper c : Spec.uppercase c = isUpper c.
Proof. each_char c. Qed.

Lemma lowercase_isLower c : Spec.lowercase c = isLower c.
Proof. each_char c. Qed.

Lemma lower_toLowerCase_char c : Spec.lower c = toLowerCase_char c.
Proof. each_char c. Qed.

Lemma lower_case_toLowerCase s : Spec.lower_case s = toLowerCase s.
Proof. induction s as [|c s IH]; simpl; [reflexivity|]. now rewrite lower_toLowerCase_char, IH. Qed.

Lemma separators_append n s :
  Spec.separators n ++ String dash s = Spec.separators (S n) ++ s.
Proof. induction n as [|n IH]; simpl; [reflexivity|]. now rewrite IH. Qed.

(** The replacement of the code on a run of separators: two at a time. *)
Lemma replace_double_dash_run n t :
  (match t with String c _ => Ascii.eqb c dash = false | EmptyString => True end) ->
  Util.replace_double_dash (Spec.separators n ++ t)
  = Spec.separators (Nat.div2 (S n)) ++ Util.replace_double_dash t.
Proof.
  intros Ht.
  assert (H : forall m, (m <= n)%nat ->
            Util.replace_double_dash (Spec.separators m ++ t)
            = Spec.separators (Nat.div2 (S m)) ++ Util.replace_double_dash t).
  { induction n as [|n IH]; intros m Hm.
    - assert (m = 0)%nat as -> by lia. reflexivity.
    - destruct m as [|[|m]].
      + reflexivity.
      + cbn [Spec.separators String.append Nat.div2].
        destruct t as [|c t']; [reflexivity|].
        change (Util.replace_double_dash (String dash (String c t')))
          with (if Ascii.eqb dash dash && Ascii.eqb c dash
                then String dash (Util.replace_double_dash t')
                else String dash (Util.replace_double_dash (String c t'))).
        now rewrite Ht, andb_false_r.
      + change (Spec.separators (S (S m)) ++ t)
          with (String dash (String dash (Spec.separators m ++ t))).
        change (Util.replace_double_dash (String dash (String dash (Spec.separators m ++ t))))
          with (String dash (Util.replace_double_dash (Spec.separators m ++ t))).
        rewrite (IH m) by lia. reflexivity. }
  apply (H n). lia.
Qed.

Lemma append_empty s : s ++ "" = s.
Proof. induction s as [|c s IH]; simpl; [reflexivity | now rewrite IH]. Qed.

Lemma collapse_replace_double_dash s : forall n,
  Spec.collapse n s = Util.replace_double_dash (Spec.separators n ++ s).
Proof.
  induction s as [|c s IH]; intros n.
  - cbn [Spec.collapse]. rewrite (replace_double_dash_run n "" I).
    change (Util.replace_double_dash "") with "". now rewrite append_empty.
  - cbn [Spec.collapse]. destruct (Ascii.eqb c dash) eqn:Hc.
    + apply Ascii.eqb_eq in Hc. subst c. now rewrite IH, separators_append.
    + rewrite (replace_double_dash_run n (String c s) Hc). f_equal.
      rewrite (IH 0%nat). cbn [Spec.separators String.append].
      destruct s as [|d s']; [reflexivity|].
      change (Util.replace_double_dash (String c (String d s')))
        with (if Ascii.eqb c dash && Ascii.eqb d dash
              then String dash (Util.replace_double_dash s')
              else String c (Util.replace_double_dash (String d s'))).
      now rewrite Hc.
Qed.

Lemma substring_all s : String.substring 0 (String.length s) s = s.
Proof. induction s as [|c s IH]; simpl; [reflexivity | now rewrite IH]. Qed.

Lemma drop_final_dash_strip s :
  Util.drop_final_dash s
  = if Spec.is_separator (String.get (String.length s - 1) s)
    then String.substring 0 (String.length s - 1) s
    else s.
Proof.
  induction s as [|c s IH]; [reflexivity|].
  destruct s as [|d s'].
  - simpl. now destruct (Ascii.eqb c dash).
  - change (Util.drop_final_dash (String c (String d s')))
      with (String c (Util.drop_final_dash (String d s'))).
    rewrite IH.
    change (String.length (String c (String d s')) - 1)%nat with (S (String.length s')).
    change (String.length (String d s') - 1)%nat with (String.length s' - 0)%nat.
    rewrite Nat.sub_0_r.
    change (String.get (S (String.length s')) (String c (String d s')))
      with (String.get (String.length s') (String d s')).
    destruct (Spec.is_separator (String.get (String.length s') (String d s'))); reflexivity.
Qed.

Lemma strip_replace_edge_dash s : Spec.strip s = Util.replace_edge_dash s.
Proof.
  unfold Spec.strip. destruct s as [|c s]; [reflexivity|].
  cbn [String.get Spec.is_separator Util.replace_edge_dash].
  destruct (Ascii.eqb c dash).
  - cbn [String.length]. rewrite Nat.sub_succ, Nat.sub_0_r. cbn [String.substring].
    apply substring_all.
  - now rewrite drop_final_dash_strip.
Qed.

(** The scan of the regular expression puts a separator exactly before the
    capitals that are followed by the end of the string or by a lower-case
    letter: the lower-case letter that a match takes along starts no match
    of its own. *)
Lemma replace_capital_boundaries key :
  Util.replace_capital key = Spec.insert_at_boundaries key.
Proof.
  assert (H : forall n s, (String.length s <= n)%nat ->
            Util.replace_capital s = Spec.insert_at_boundaries s).
  { induction n as [|n IH]; intros s Hlen.
    - destruct s; [reflexivity | simpl in Hlen; lia].
    - destruct s as [|c rest]; [reflexivity|].
      simpl in Hlen. simpl. unfold Spec.boundary. rewrite uppercase_isUpper.
      destruct (isUpper c) eqn:Hc; simpl.
      + destruct rest as [|d rest']; [reflexivity|]. rewrite lowercase_isLower.
        destruct (isLower d) eqn:Hd.
        * simpl. unfold Spec.boundary.
          rewrite uppercase_isUpper, (isUpper_not_isLower d Hd). simpl.
          rewrite (IH rest'); [reflexivity | simpl in Hlen; lia].
        * rewrite (IH (String d rest')); [reflexivity | lia].
      + rewrite (IH rest); [reflexivity | lia]. }
  apply (H (String.length key)). lia.
Qed.

(** C5, as amended: for every input the normalizer inserts a separator
    before every letter of A-Z that is directly followed by the end of the
    string or by a letter of a-z (of a run of capitals that is the last
    letter only); then it replaces the separators two by two, from left to
    right, by one (a run of three leaves two); then it removes one
    separator from the ends, the leading one if there is one and otherwise
    the trailing one; then it lower-cases the whole result. *)
Theorem toKebabCase_by_boundaries (key : string) :
  Util.toKebabCase key = Spec.normalize_by_boundaries key.
Proof.
  unfold Util.toKebabCase, Spec.normalize_by_boundaries.
  rewrite lower_case_toLowerCase, strip_replace_edge_dash.
  rewrite (collapse_replace_double_dash _ 0). cbn [Spec.separators String.append].
  now rewrite replace_capital_boundaries.
Qed.

(** What the last steps leave: of three separators in a row two stay, the
    capital adding a fourth before the replacement, and a trailing
    separator stays when a leading one was removed. *)
Example toKebabCase_separators :
  Util.toKebabCase "foo---Bar" = "foo--bar" /\
  Util.toKebabCase "a---b" = "a--b" /\
  Util.toKebabCase "-fooBar-" = "foo-bar-" /\
  Util.toKebabCase "fooBar-" = "foo-bar".
Proof. repeat split. Qed.

Example normalize_by_words_names :
  Spec.normalize_by_words "fooBarBazBing" = "foo-bar-baz-bing" /\
  Spec.normalize_by_words "URLBar" = "url-bar" /\
  Spec.normalize_by_words "ClipX" = "clip-x".
Proof. repeat split. Qed.

(** C5, as stated, fails on a run of capitals that ends the string: the
    code splits the run before its last letter, a separator between two
    letters of the acronym, where the sentence, read by the letter or with
    its examples, puts the separator before the run. *)
Lemma toKebabCase_by_runs_counterexample :
  Util.replace_capital "URL" = "UR-L" /\
  Util.toKebabCase "URL" = "ur-l" /\
  Spec.normalize_by_runs "URL" = "url" /\
  Spec.normalize_by_words "URL" = "url" /\
  Util.toKebabCase "URL" <> Spec.normalize_by_runs "URL" /\
  Util.toKebabCase "URL" <> Spec.normalize_by_words "URL".
Proof. repeat split; try reflexivity; discriminate. Qed.

(** C6: the three names of the test suite, and the naming error for every
    input whose normalized form holds no separator. *)
Theorem mustKebabCase_names_and_error :
  Util.mustKebabCase "fooBarBazBing" = Normal "foo-bar-baz-bing" /\
  Util.mustKebabCase "URLBar" = Normal "url-bar" /\
  Util.mustKebabCase "ClipX" = Normal "clip-x" /\
  forall key : string,
    includes (Util.toKebabCase key) dash = false ->
    Util.mustKebabCase key = Throw (DOMException (key ++ " is not a valid name") "SyntaxError") /\
    forall normalized, Util.mustKebabCase key <> Normal normalized.
Proof.
  repeat split; try reflexivity.
  - unfold Util.mustKebabCase. now rewrite H.
  - unfold Util.mustKebabCase. rewrite H. discriminate.
Qed.

Lemma mustKebabCase_names_and_error_witness :
  includes (Util.toKebabCase "foo") dash = false /\
  Util.mustKebabCase "foo" = Throw (DOMException "foo is not a valid name" "SyntaxError").
Proof.
  split; [reflexivity|].
  apply (proj2 (proj2 (proj2 mustKebabCase_names_and_error)) "foo"). reflexivity.
Defined.

(* ===================================================================== *)
(** ** The declaration step *)
(* ===================================================================== *)

(** C10: a field without initial value passes the declaration without
    the constructor test, and the registry receives the zero value of the
    declared type: 0, false, the empty string, the empty array, the empty
    object. *)
Theorem attribute_without_initial_value
    (options : AttributeOptions) (context : DecoratorContext) (registry : Registry) :
  kind context = KindField ->
  (exists initializer,
      attribute options context = Normal initializer /\
      initializer VUndefined registry
      = (push registry (name context) (zero_value (type options)), Normal VUndefined)) /\
  zero_value NumberConstructor = VNumber (Int 0) /\
  zero_value BooleanConstructor = VBoolean false /\
  zero_value StringConstructor = VString "" /\
  zero_value ArrayConstructor = VArray [] /\
  zero_value ObjectConstructor = VObject [].
Proof.
  intros Hk. repeat split.
  exists (attribute_initializer options context). split.
  - unfold attribute. now rewrite Hk.
  - reflexivity.
Qed.

Lemma attribute_without_initial_value_witness :
  exists initializer,
    attribute {| type := ArrayConstructor |} (field "testArray") = Normal initializer /\
    initializer VUndefined [("testNumber", VNumber (Int 123))]
    = ([("testNumber", VNumber (Int 123)); ("testArray", VArray [])], Normal VUndefined).
Proof.
  apply (attribute_without_initial_value
           {| type := ArrayConstructor |} (field "testArray")
           [("testNumber", VNumber (Int 123))]).
  reflexivity.
Defined.

(** C9, as amended: for a field with a defined initial value whose
    constructor is not the declared type, the declaration step of the class
    definition completes, and the initializer it returns throws the type
    error when it is run with the initial value, which is when the field of
    an instance is initialized; nothing is recorded in the registry. *)
Theorem attribute_mismatch_throws_in_initializer
    (options : AttributeOptions) (context : DecoratorContext)
    (value : Value) (registry : Registry) :
  kind context = KindField ->
  value <> VUndefined ->
  constructor_differs value (type options) ->
  exists initializer,
    attribute options context = Normal initializer /\
    initializer value registry = (registry, Throw TypeError).
Proof.
  intros Hk Hv (c & Hc & Ht).
  exists (attribute_initializer options context). split.
  - unfold attribute. now rewrite Hk.
  - unfold attribute_initializer.
    destruct (is_undefined value) eqn:Hu.
    + destruct value; try discriminate; congruence.
    + rewrite Hc. simpl. now rewrite Ht.
Qed.

Lemma attribute_mismatch_throws_in_initializer_witness :
  exists initializer,
    attribute {| type := NumberConstructor |} (field "testNumber") = Normal initializer /\
    initializer (VString "123") [] = ([], Throw TypeError).
Proof.
  apply (attribute_mismatch_throws_in_initializer
           {| type := NumberConstructor |} (field "testNumber") (VString "123") []).
  - reflexivity.
  - discriminate.
  - exists (Some StringConstructor). split; reflexivity.
Defined.

(** C9, as stated, fails: with the initial value "123" under the declared
    type Number, the declaration step does not throw; it returns the
    initializer. *)
Lemma attribute_mismatch_counterexample :
  let options := {| type := NumberConstructor |} in
  let value := VString "123" in
  value <> VUndefined /\
  constructor_differs value (type options) /\
  attribute options (field "testNumber") <> Throw TypeError /\
  attribute options (field "testNumber") = Normal (attribute_initializer options (field "testNumber")).
Proof.
  repeat split; try discriminate.
  exists (Some StringConstructor). split; reflexivity.
Qed.

(** C7 at the declaration of the test suite, the field decorator on the
    setter of an accessor pair that the author wrote: the decorator throws
    a type error for a setter, a getter and an accessor, and returns no
    initializer, so that the pair of the author is never declared and the
    binder never comes to call it. *)
Theorem author_accessor_declaration_throws
    (options : AttributeOptions) (context : DecoratorContext) :
  kind context = KindSetter \/ kind context = KindGetter \/ kind context = KindAccessor ->
  attribute options context = Throw TypeError /\
  forall initializer, attribute options context <> Normal initializer.
Proof.
  intros Hk. assert (H : attribute options context = Throw TypeError).
  { unfold attribute. now destruct Hk as [-> | [-> | ->]]. }
  split; [exact H|]. intros initializer. rewrite H. discriminate.
Qed.

Lemma author_accessor_declaration_throws_witness :
  attribute {| type := StringConstructor |} {| kind := KindSetter; name := "testGetterSetter" |}
  = Throw TypeError.
Proof.
  apply (author_accessor_declaration_throws {| type := StringConstructor |}
           {| kind := KindSetter; name := "testGetterSetter" |}).
  now left.
Defined.

(** The initial value [null] has no [constructor] to read: the initializer
    of the field decorator throws and records nothing, so that [null]
    reaches the binder only in a registry that is filled by other means. *)
Example attribute_null_throws :
  attribute_initializer {| type := ObjectConstructor |} (field "fooBar") VNull []
  = ([], Throw TypeError).
Proof. reflexivity. Qed.

(* ===================================================================== *)
(** ** The element, the component and the loop of the binder *)
(* ===================================================================== *)

Lemma hasAttribute_true (this : Element) (p text : string) :
  this !! p = Some text -> hasAttribute this p = true.
Proof. intros H. unfold hasAttribute. now rewrite H. Qed.

Lemma hasAttribute_false (this : Element) (p : string) :
  this !! p = None -> hasAttribute this p = false.
Proof. intros H. unfold hasAttribute. now rewrite H. Qed.

Lemma hasAttribute_iff (this : Element) (p : string) :
  hasAttribute this p = false <-> this !! p = None.
Proof. unfold hasAttribute. destruct (this !! p); split; congruence. Qed.

Lemma getAttribute_setAttribute (this : Element) (p text : string) :
  getAttribute (setAttribute this p text) p = Some text.
Proof. apply lookup_insert_eq. Qed.

Lemma defineProperty_attributes c n d : attributes (defineProperty c n d) = attributes c.
Proof. reflexivity. Qed.

Lemma defineProperty_own c n d : own (defineProperty c n d) !! n = Some (AccessorProperty d).
Proof. apply lookup_insert_eq. Qed.

(** After [Object.defineProperty], [name in component] holds: the first
    half of the guard of the binder never fails. *)
Lemma has_property_defineProperty c n d : has_property (defineProperty c n d) n = true.
Proof. unfold has_property. now rewrite defineProperty_own. Qed.

Lemma read_property_accessor c n d :
  own c !! n = Some (AccessorProperty d) -> read_property c n = (c, get d (attributes c)).
Proof. intros H. unfold read_property. now rewrite H. Qed.

Section BinderFacts.
Variable mustParameterize : string -> Completion string.

(** The body of the loop when the attribute is there: install, and leave
    the attributes alone. *)
Lemma bind_declaration_present c n value p d text :
  mustParameterize n = Normal p ->
  select_descriptor p value = Some d ->
  attributes c !! p = Some text ->
  bind_declaration mustParameterize c (n, value) = (defineProperty c n d, Normal tt).
Proof.
  intros Hp Hd Ha. unfold bind_declaration. rewrite Hp, Hd.
  rewrite defineProperty_attributes, (hasAttribute_true _ _ _ Ha).
  now rewrite andb_false_r.
Qed.

(** The body of the loop when the attribute is absent: install, and call
    the installed setter with the declared value. *)
Lemma bind_declaration_absent c n value p d :
  mustParameterize n = Normal p ->
  select_descriptor p value = Some d ->
  attributes c !! p = None ->
  bind_declaration mustParameterize c (n, value)
  = call_set d (defineProperty c n d) value.
Proof.
  intros Hp Hd Ha. unfold bind_declaration. rewrite Hp, Hd.
  rewrite defineProperty_attributes, (hasAttribute_false _ _ Ha).
  now rewrite has_property_defineProperty.
Qed.

Lemma initializeAttributable_one c entry :
  initializeAttributable mustParameterize c [entry]
  = bind_declaration mustParameterize c entry.
Proof.
  unfold initializeAttributable, all. simpl.
  destruct (bind_declaration mustParameterize c entry) as [c' [[]| |]]; reflexivity.
Qed.

Lemma call_set_calls d c value : calls (fst (call_set d c value)) = calls c.
Proof. unfold call_set. now destruct (set d (attributes c) value). Qed.

Lemma call_set_own d c value : own (fst (call_set d c value)) = own c.
Proof. unfold call_set. now destruct (set d (attributes c) value). Qed.

(** The binder never runs an accessor of the author. *)
Lemma bind_declaration_calls c entry :
  calls (fst (bind_declaration mustParameterize c entry)) = calls c.
Proof.
  destruct entry as [n value]. unfold bind_declaration.
  destruct (mustParameterize n) as [p| |]; try reflexivity.
  destruct (select_descriptor p value) as [d|]; try reflexivity.
  destruct (_ && _); [now rewrite call_set_calls | reflexivity].
Qed.

Lemma for_of_calls entries : forall c,
  calls (fst (for_of mustParameterize c entries)) = calls c.
Proof.
  induction entries as [|entry entries IH]; intros c; simpl; [reflexivity|].
  pose proof (bind_declaration_calls c entry) as H.
  destruct (bind_declaration mustParameterize c entry) as [c' [[]| |]]; simpl in *;
    try assumption.
  now rewrite IH.
Qed.

End BinderFacts.

(** A getter of the binder looks at its own attribute only. *)
Lemma get_depends_on_attribute p value d (this this' : Element) :
  select_descriptor p value = Some d ->
  this !! p = this' !! p ->
  get d this = get d this'.
Proof.
  intros Hd Heq. unfold select_descriptor in Hd.
  repeat match type of Hd with
         | (if ?b then _ else _) = _ => destruct b
         end; try discriminate; injection Hd as <-; simpl;
    unfold getAttribute, hasAttribute; now rewrite Heq.
Qed.

(** A setter of the binder writes its own attribute only. *)
Lemma set_keeps_other_attributes p' value d (this this' : Element) fresh q :
  select_descriptor p' value = Some d ->
  set d this fresh = Normal this' ->
  q <> p' -> this' !! q = this !! q.
Proof.
  intros Hd Hset Hq. unfold select_descriptor in Hd.
  repeat match type of Hd with
         | (if ?b then _ else _) = _ => destruct b
         end; try discriminate; injection Hd as <-; simpl in Hset.
  - destruct (ToString fresh); try discriminate. injection Hset as <-.
    unfold setAttribute. now rewrite lookup_insert_ne.
  - injection Hset as <-. unfold toggleAttribute.
    destruct (this !! p'), (optional_boolean fresh) as [[]|];
      rewrite ?lookup_insert_ne, ?lookup_delete_ne by congruence; reflexivity.
  - destruct (ToString (or_else fresh (VString ""))); try discriminate. injection Hset as <-.
    unfold setAttribute. now rewrite lookup_insert_ne.
  - destruct (stringified (or_else fresh (VArray []))); try discriminate. injection Hset as <-.
    unfold setAttribute. now rewrite lookup_insert_ne.
  - destruct (stringified (or_else fresh (VObject []))); try discriminate. injection Hset as <-.
    unfold setAttribute. now rewrite lookup_insert_ne.
Qed.

Section Present.
Variable mustParameterize : string -> Completion string.

(** The body of the loop leaves the own property of another identifier as
    it is. *)
Lemma bind_declaration_other_name c entry n :
  other_name n entry ->
  own (fst (bind_declaration mustParameterize c entry)) !! n = own c !! n.
Proof.
  destruct entry as [n' value]. unfold other_name. simpl. intros Hn.
  unfold bind_declaration.
  destruct (mustParameterize n') as [p'| |]; try reflexivity.
  destruct (select_descriptor p' value) as [d|]; try reflexivity.
  destruct (_ && _); [rewrite call_set_own|]; simpl; now rewrite lookup_insert_ne.
Qed.

Lemma for_of_other_names entries n : forall c,
  Forall (other_name n) entries ->
  own (fst (for_of mustParameterize c entries)) !! n = own c !! n.
Proof.
  induction entries as [|entry entries IH]; intros c Hall; [reflexivity|].
  apply Forall_cons in Hall as [Hentry Hall].
  pose proof (bind_declaration_other_name c entry n Hentry) as H.
  simpl. destruct (bind_declaration mustParameterize c entry) as [c1 [[]| |]];
    simpl in *; try assumption.
  now rewrite (IH c1 Hall).
Qed.

(** An attribute that is present keeps its text through the body of the
    loop, whatever the declaration is: the declaration of this attribute
    skips its setter, and every other setter writes another attribute. *)
Lemma bind_declaration_keeps_present c entry p text :
  attributes c !! p = Some text ->
  attributes (fst (bind_declaration mustParameterize c entry)) !! p = Some text.
Proof.
  destruct entry as [n' value]. intros Ha. unfold bind_declaration.
  destruct (mustParameterize n') as [p'| |]; try assumption.
  destruct (select_descriptor p' value) as [d|] eqn:Hd; try assumption.
  destruct (String.eqb_spec p' p) as [-> | Hne].
  - rewrite defineProperty_attributes, (hasAttribute_true _ _ _ Ha), andb_false_r.
    exact Ha.
  - destruct (_ && _); [|exact Ha].
    unfold call_set. rewrite defineProperty_attributes.
    destruct (set d (attributes c) value) as [a| |] eqn:Hset; simpl; try assumption.
    rewrite (set_keeps_other_attributes p' value d _ _ value p Hd Hset); [exact Ha|].
    congruence.
Qed.

Lemma for_of_keeps_present entries p text : forall c,
  attributes c !! p = Some text ->
  attributes (fst (for_of mustParameterize c entries)) !! p = Some text.
Proof.
  induction entries as [|entry entries IH]; intros c Ha; [exact Ha|].
  pose proof (bind_declaration_keeps_present c entry p text Ha) as H.
  simpl. destruct (bind_declaration mustParameterize c entry) as [c1 [[]| |]];
    simpl in *; try assumption.
  now apply IH.
Qed.

End Present.

Section Interference.
Variable mustParameterize : string -> Completion string.

(** The body of the loop for a declaration that is apart from [n] and [p]
    leaves the own property [n] and the attribute [p] as they are. *)
Lemma bind_declaration_apart c entry n p :
  apart mustParameterize n p entry ->
  let c' := fst (bind_declaration mustParameterize c entry) in
  own c' !! n = own c !! n /\ attributes c' !! p = attributes c !! p.
Proof.
  destruct entry as [n' value]. intros [Hn Hp]. simpl in Hn, Hp.
  unfold bind_declaration.
  destruct (mustParameterize n') as [p'| |] eqn:Hp'; try (now split).
  destruct (select_descriptor p' value) as [d|] eqn:Hd; try (now split).
  assert (Hown : own (defineProperty c n' d) !! n = own c !! n).
  { simpl. now rewrite lookup_insert_ne. }
  destruct (_ && _); [|now split].
  unfold call_set. simpl attributes.
  destruct (set d (attributes c) value) as [a| |] eqn:Hset; simpl; try (now split).
  split; [exact Hown|].
  apply (set_keeps_other_attributes p' value d _ _ value); auto.
  intros ->. now apply (Hp p').
Qed.

Lemma for_of_apart entries n p : forall c,
  Forall (apart mustParameterize n p) entries ->
  let c' := fst (for_of mustParameterize c entries) in
  own c' !! n = own c !! n /\ attributes c' !! p = attributes c !! p.
Proof.
  induction entries as [|entry entries IH]; intros c Hall; [now split|].
  apply Forall_cons in Hall as [Hentry Hall].
  destruct (bind_declaration_apart c entry n p Hentry) as [H1 H2].
  simpl. destruct (bind_declaration mustParameterize c entry) as [c1 [[]| |]];
    simpl in *; try (now split).
  destruct (IH c1 Hall) as [H3 H4]. split; congruence.
Qed.

(** The loop over a registry that is split at one declaration. *)
Lemma for_of_app before after : forall c,
  for_of mustParameterize c (before ++ after)
  = match for_of mustParameterize c before with
    | (c', Normal _) => for_of mustParameterize c' after
    | stopped => stopped
    end.
Proof.
  induction before as [|entry before IH]; intros c; [reflexivity|].
  simpl. destruct (bind_declaration mustParameterize c entry) as [c1 [[]| |]];
    try reflexivity.
  apply IH.
Qed.

Lemma for_of_completes_app before after c :
  snd (for_of mustParameterize c (before ++ after)) = Normal tt ->
  snd (for_of mustParameterize c before) = Normal tt /\
  for_of mustParameterize c (before ++ after)
  = for_of mustParameterize (fst (for_of mustParameterize c before)) after.
Proof.
  rewrite for_of_app.
  destruct (for_of mustParameterize c before) as [c' [[]| |]]; simpl; intros H;
    try discriminate.
  now split.
Qed.

Lemma for_of_completes_cons entry after c :
  snd (for_of mustParameterize c (entry :: after)) = Normal tt ->
  snd (bind_declaration mustParameterize c entry) = Normal tt /\
  for_of mustParameterize c (entry :: after)
  = for_of mustParameterize (fst (bind_declaration mustParameterize c entry)) after.
Proof.
  simpl. destruct (bind_declaration mustParameterize c entry) as [c' [[]| |]]; simpl;
    intros H; try discriminate.
  now split.
Qed.

End Interference.

Section Split.
Variable mustParameterize : string -> Completion string.

(** The binding of a registry in which the declaration [entry] of [n],
    with the attribute [p], stands apart from all others: the declarations
    before it leave [n] and [p] alone, the body of the loop runs for
    [entry], and the declarations after it leave [n] and [p] alone. *)
Lemma binding_split c before entry after n p :
  Forall (apart mustParameterize n p) before ->
  Forall (apart mustParameterize n p) after ->
  snd (initializeAttributable mustParameterize c (before ++ entry :: after)%list) = Normal tt ->
  let c1 := fst (initializeAttributable mustParameterize c before) in
  let c2 := fst (bind_declaration mustParameterize c1 entry) in
  let bound := fst (initializeAttributable mustParameterize c (before ++ entry :: after)%list) in
  own c1 !! n = own c !! n /\ attributes c1 !! p = attributes c !! p /\
  calls c1 = calls c /\
  snd (bind_declaration mustParameterize c1 entry) = Normal tt /\
  own bound !! n = own c2 !! n /\ attributes bound !! p = attributes c2 !! p /\
  calls bound = calls c.
Proof.
  intros Hbefore Hafter Hdone. unfold initializeAttributable, all in *.
  destruct (for_of_completes_app mustParameterize before (entry :: after) c Hdone)
    as [Hb Heq].
  rewrite Heq in Hdone |- *.
  destruct (for_of_completes_cons mustParameterize entry after _ Hdone) as [He Heq'].
  rewrite Heq'.
  destruct (for_of_apart mustParameterize before n p c Hbefore) as [H1 H2].
  destruct (for_of_apart mustParameterize after n p
              (fst (bind_declaration mustParameterize
                      (fst (for_of mustParameterize c before)) entry)) Hafter) as [H3 H4].
  cbv zeta. repeat split; try assumption.
  - apply for_of_calls.
  - now rewrite for_of_calls, bind_declaration_calls, for_of_calls.
Qed.

End Split.

(* ===================================================================== *)
(** ** Precedence of the attribute *)
(* ===================================================================== *)

(** The getter that the binder selects for a value of a kind decodes a
    present attribute as the table of the kinds says. *)
Lemma get_decodes (p : string) (value : Value) (k : Spec.Kind) (d : PropertyDescriptor)
    (this : Element) (text : string) :
  select_descriptor p value = Some d ->
  Spec.kind_of value = Some k ->
  this !! p = Some text ->
  get d this = Spec.decode k text.
Proof.
  intros Hd Hk Ha.
  destruct value; simpl in Hk; try discriminate; injection Hk as <-;
    simpl in Hd; injection Hd as <-;
    cbn [get numberDescriptor booleanDescriptor stringDescriptor arrayDescriptor objectDescriptor
         Spec.decode];
    unfold hasAttribute, getAttribute; rewrite Ha; cbn [attribute_value].
  - reflexivity.
  - destruct text as [|c t]; reflexivity.
  - destruct text as [|c t]; reflexivity.
  - destruct text as [|c t]; cbn [or_else ToBoolean ToString String.eqb];
      cbn [mbind Completion_bind];
      (destruct (JSON.parse _) as [v| |]; [|reflexivity|reflexivity]);
      cbn [mbind Completion_bind]; now destruct v.
  - destruct text as [|c t]; cbn [or_else ToBoolean ToString String.eqb];
      cbn [mbind Completion_bind];
      (destruct (JSON.parse _) as [v| |]; [|reflexivity|reflexivity]);
      cbn [mbind Completion_bind]; now destruct v.
Qed.

Lemma kind_of_selects (p : string) (value : Value) (k : Spec.Kind) :
  Spec.kind_of value = Some k -> exists d, select_descriptor p value = Some d.
Proof. destruct value; simpl; try discriminate; eauto. Qed.

(** C2: when the element already has the normalized attribute, the binder
    installs the accessor without calling the setter, the attribute keeps
    its text, and the property reads the text decoded by the rule of its
    kind in the table (the number of the text, true, the text, the array or
    the object of the JSON text), whatever the declared default is. *)
Theorem attribute_present_takes_precedence
    (mustParameterize : string -> Completion string)
    (c : Component) (before after : list (string * Value))
    (n : string) (value : Value) (k : Spec.Kind) (p text : string) :
  mustParameterize n = Normal p ->
  Spec.kind_of value = Some k ->
  attributes c !! p = Some text ->
  Forall (other_name n) after ->
  snd (initializeAttributable mustParameterize c (before ++ (n, value) :: after)%list)
  = Normal tt ->
  let c1 := fst (initializeAttributable mustParameterize c before) in
  let bound :=
    fst (initializeAttributable mustParameterize c (before ++ (n, value) :: after)%list) in
  (exists d, select_descriptor p value = Some d /\
             bind_declaration mustParameterize c1 (n, value)
             = (defineProperty c1 n d, Normal tt)) /\
  attributes bound !! p = Some text /\
  read_property bound n = (bound, Spec.decode k text).
Proof.
  intros Hp Hk Ha Hafter Hdone c1 bound.
  destruct (kind_of_selects p value k Hk) as [d Hd].
  assert (Ha1 : attributes c1 !! p = Some text) by now apply for_of_keeps_present.
  assert (Hb : attributes bound !! p = Some text) by now apply for_of_keeps_present.
  pose proof (bind_declaration_present mustParameterize c1 n value p d text Hp Hd Ha1) as Hstep.
  split; [exists d; now split|]. split; [exact Hb|].
  assert (Hown : own bound !! n = Some (AccessorProperty d)).
  { subst bound c1. unfold initializeAttributable, all in *.
    destruct (for_of_completes_app mustParameterize before ((n, value) :: after) c Hdone)
      as [_ Heq].
    rewrite Heq in Hdone |- *.
    destruct (for_of_completes_cons mustParameterize (n, value) after _ Hdone) as [_ Heq'].
    rewrite Heq', (for_of_other_names mustParameterize after n _ Hafter), Hstep.
    apply defineProperty_own. }
  rewrite (read_property_accessor _ _ _ Hown). f_equal.
  exact (get_decodes p value k d (attributes bound) text Hd Hk Hb).
Qed.

Lemma attribute_present_takes_precedence_witness :
  let c := with_markup {[ "test-number" := "456" ]} in
  let bound := fst (initializeAttributable Util.mustKebabCase c test_declarations) in
  attributes bound !! "test-number" = Some "456" /\
  read_property bound "testNumber" = (bound, Normal (VNumber (Int 456))).
Proof.
  refine (proj2 (attribute_present_takes_precedence Util.mustKebabCase
            (with_markup {[ "test-number" := "456" ]}) [] (tl test_declarations)
            "testNumber" (VNumber (Int 123)) Spec.KNumber "test-number" "456"
            _ _ _ _ _)); try reflexivity; other_names.
Defined.

Example precedence_number :
  get (numberDescriptor "test-number") {[ "test-number" := "456" ]} = Normal (VNumber (Int 456)).
Proof. reflexivity. Qed.

Example precedence_array :
  get (arrayDescriptor "test-array") {[ "test-array" := "[4,5,6]" ]}
  = Normal (VArray [VNumber (Int 4); VNumber (Int 5); VNumber (Int 6)]).
Proof. vm_compute. reflexivity. Qed.

(* ===================================================================== *)
(** ** Failures: the shape of the decoded value, unsupported kinds *)
(* ===================================================================== *)

Lemma parse_not_empty text value : JSON.parse text = Normal value -> text <> "".
Proof. intros H ->. discriminate. Qed.

Lemma or_else_text text dflt : text <> "" -> or_else (VString text) dflt = VString text.
Proof. destruct text; [congruence | reflexivity]. Qed.

(** C4: a text that decodes to something that is no array makes the getter
    of an Array property throw a type error; a text that decodes to an
    array, to null or to something that is no object makes the getter of a
    PlainObject property throw one; the read of the property ends with that
    error. *)
Theorem decode_shape_mismatch_throws
    (c : Component) (n p text : string) (value : Value) :
  attributes c !! p = Some text ->
  JSON.parse text = Normal value ->
  (Array_isArray value = false ->
     get (arrayDescriptor p) (attributes c) = Throw TypeError /\
     (own c !! n = Some (AccessorProperty (arrayDescriptor p)) ->
      read_property c n = (c, Throw TypeError))) /\
  (Array_isArray value = true \/ value = VNull \/ typeof value <> "object" ->
     get (objectDescriptor p) (attributes c) = Throw TypeError /\
     (own c !! n = Some (AccessorProperty (objectDescriptor p)) ->
      read_property c n = (c, Throw TypeError))).
Proof.
  intros Ha Hparse.
  pose proof (parse_not_empty _ _ Hparse) as Hne.
  assert (Harr : Array_isArray value = false ->
                 get (arrayDescriptor p) (attributes c) = Throw TypeError).
  { intros Hv. simpl. unfold getAttribute. rewrite Ha. simpl.
    rewrite (or_else_text _ _ Hne). simpl. rewrite Hparse. simpl.
    rewrite Hv. simpl. now rewrite !orb_true_r. }
  assert (Hobj : Array_isArray value = true \/ value = VNull \/ typeof value <> "object" ->
                 get (objectDescriptor p) (attributes c) = Throw TypeError).
  { intros Hv. simpl. unfold getAttribute. rewrite Ha. simpl.
    rewrite (or_else_text _ _ Hne). simpl. rewrite Hparse. simpl.
    destruct Hv as [Hv | [-> | Hv]].
    - rewrite Hv. now rewrite !orb_true_r.
    - reflexivity.
    - destruct value; simpl in *; congruence. }
  split; intros Hv; (split; [auto|]); intros Hown;
    rewrite (read_property_accessor _ _ _ Hown); unfold call_get; f_equal; auto.
Qed.

Lemma decode_shape_mismatch_throws_witness :
  let c := defineProperty (with_markup {[ "test-array" := foo_one ]})
             "testArray" (arrayDescriptor "test-array") in
  read_property c "testArray" = (c, Throw TypeError).
Proof.
  refine (proj2 (proj1 (decode_shape_mismatch_throws
           (defineProperty (with_markup {[ "test-array" := foo_one ]})
              "testArray" (arrayDescriptor "test-array"))
           "testArray" "test-array" foo_one (VObject [("foo", VNumber (Int 1))])
           _ _) _) _); reflexivity.
Defined.

Section Unsupported.
Variable mustParameterize : string -> Completion string.

(** A declared value whose [typeof] is none of number, boolean, string and
    object stops the binder with a type error: the declarations before it
    are bound, nothing is installed for it, and the declarations after it
    are not reached. *)
Lemma unsupported_typeof_throws c before after n value p :
  mustParameterize n = Normal p ->
  typeof value <> "number" -> typeof value <> "boolean" ->
  typeof value <> "string" -> typeof value <> "object" ->
  snd (initializeAttributable mustParameterize c before) = Normal tt ->
  initializeAttributable mustParameterize c (before ++ (n, value) :: after)%list
  = (fst (initializeAttributable mustParameterize c before), Throw TypeError).
Proof.
  intros Hp H1 H2 H3 H4 Hb. unfold initializeAttributable, all in *.
  rewrite for_of_app.
  destruct (for_of mustParameterize c before) as [c1 [[]| |]]; simpl in Hb; try discriminate.
  simpl. unfold bind_declaration. rewrite Hp.
  destruct value; simpl in *; congruence.
Qed.

End Unsupported.

Example undefined_declaration_throws :
  initializeAttributable Util.mustKebabCase fresh_component
    (test_before ++ ("fooBar", VUndefined) :: test_after)%list
  = (fst (initializeAttributable Util.mustKebabCase fresh_component test_before),
     Throw TypeError).
Proof.
  apply (unsupported_typeof_throws _ _ _ _ _ _ "foo-bar"); (reflexivity || discriminate).
Qed.



(* ===================================================================== *)
(** ** Numbers and their decimal text *)
(* ===================================================================== *)

Lemma string_of_uint_digits (u : Decimal.uint) :
  all_chars isDigit (NilEmpty.string_of_uint u) = true.
Proof. induction u; simpl; auto. Qed.

Lemma digits_all n : all_chars isDigit (digits n) = true.
Proof. apply string_of_uint_digits. Qed.

Lemma to_uint_unorm n : N.to_uint n = Decimal.unorm (N.to_uint n).
Proof.
  rewrite <- (DecimalN.Unsigned.to_of (N.to_uint n)).
  now rewrite DecimalN.Unsigned.of_to.
Qed.

Lemma to_uint_nonnil n : N.to_uint n <> Decimal.Nil.
Proof. rewrite to_uint_unorm. apply unorm_nonnil. Qed.

Lemma to_uint_no_leading_zero n u : N.to_uint n = Decimal.D0 u -> u = Decimal.Nil.
Proof.
  rewrite to_uint_unorm. unfold Decimal.unorm.
  destruct (Decimal.nzhead (N.to_uint n)) eqn:Hnz; intros H; try discriminate.
  - now injection H as <-.
  - exfalso. exact (nzhead_nonzero _ _ Hnz).
Qed.

Lemma digits_nonempty n : exists c ds, digits n = String c ds.
Proof.
  unfold digits. pose proof (to_uint_nonnil n) as H.
  destruct (N.to_uint n); try congruence; simpl; eauto.
Qed.

Lemma digits_no_leading_zero n ds : digits n = String "0" ds -> ds = "".
Proof.
  unfold digits. intros H.
  destruct (N.to_uint n) as [|u|u|u|u|u|u|u|u|u|u] eqn:Hu; simpl in H; try discriminate.
  injection H as <-. now rewrite (to_uint_no_leading_zero n u Hu).
Qed.

Lemma digits_value_digits n : digits_value (digits n) = n.
Proof.
  unfold digits_value, digits. rewrite NilEmpty.usu.
  apply DecimalN.Unsigned.of_to.
Qed.

Lemma span_digits_app ds rest :
  all_chars isDigit ds = true -> no_digit_ahead rest = true ->
  span_digits (ds ++ rest) = (ds, rest).
Proof.
  intros Hds Hrest. induction ds as [|c ds IH]; simpl in *.
  - destruct rest as [|c r]; [reflexivity|]. simpl in Hrest.
    destruct (isDigit c) eqn:E; [discriminate|]. simpl. now rewrite E.
  - apply andb_true_iff in Hds as [Hc Hds]. rewrite Hc, (IH Hds). reflexivity.
Qed.

Lemma span_digits_all ds : all_chars isDigit ds = true -> span_digits ds = (ds, "").
Proof.
  intros H. induction ds as [|c ds IH]; simpl in *; [reflexivity|].
  apply andb_true_iff in H as [Hc Hds]. now rewrite Hc, (IH Hds).
Qed.

Lemma integer_number_digits (negative : bool) (n : N) :
  let z := if negative then (- Z.of_N n)%Z else Z.of_N n in
  isSafeInteger z = true -> (negative = true -> n <> 0%N) ->
  integer_number negative (digits n) = Normal (Int z).
Proof.
  intros z Hsafe Hneg. unfold integer_number. rewrite digits_value_digits.
  destruct (N.eqb_spec n 0) as [-> | Hn].
  - destruct negative; [now destruct Hneg | reflexivity].
  - fold z. now rewrite Hsafe.
Qed.

Lemma all_chars_impl (p q : ascii -> bool) s :
  (forall c, p c = true -> q c = true) -> all_chars p s = true -> all_chars q s = true.
Proof.
  intros Hpq. induction s as [|c s IH]; simpl; [reflexivity|].
  intros H. apply andb_true_iff in H as [Hc Hs]. now rewrite (Hpq c Hc), (IH Hs).
Qed.

Lemma digit_not_space c : isDigit c = true -> not_space c = true.
Proof. each_char c. Qed.

Lemma trim_end_id s : all_chars not_space s = true -> trim_end s = s.
Proof.
  induction s as [|c s IH]; [reflexivity|]. intros H.
  simpl in H. apply andb_true_iff in H as [Hc Hs]. unfold not_space in Hc.
  cbn [trim_end all_chars]. destruct (isStrWhiteSpace c); [discriminate|].
  simpl. now rewrite (IH Hs).
Qed.

Lemma trim_start_id c s : not_space c = true -> trim_start (String c s) = String c s.
Proof. unfold not_space. simpl. now destruct (isStrWhiteSpace c). Qed.

Lemma digit_not_sign c : isDigit c = true -> Ascii.eqb c "+" = false /\ Ascii.eqb c dash = false.
Proof. each_char c; now split. Qed.

Lemma digit_text_not_Infinity c s : isDigit c = true -> String.eqb (String c s) "Infinity" = false.
Proof. intros H. simpl. each_char c. Qed.

Lemma digit_not_radix c : isDigit c = true -> includes "xXoObB" c = false.
Proof. each_char c. Qed.

(** StringToNumber reads back the decimal text of an integer. *)
Lemma StringToNumber_digits (n : N) :
  isSafeInteger (Z.of_N n) = true ->
  StringToNumber (digits n) = Normal (Int (Z.of_N n)).
Proof.
  intros Hsafe.
  pose proof (digits_all n) as Hall.
  destruct (digits_nonempty n) as (c & ds & Hd).
  assert (Hc : isDigit c = true).
  { rewrite Hd in Hall. simpl in Hall. now apply andb_true_iff in Hall as [? _]. }
  unfold StringToNumber.
  rewrite Hd, (trim_start_id _ _ (digit_not_space c Hc)), <- Hd.
  rewrite trim_end_id by (apply (all_chars_impl isDigit); [apply digit_not_space | exact Hall]).
  rewrite Hd. cbv beta iota zeta.
  destruct (digit_not_sign c Hc) as [-> ->].
  assert (Hlead : Ascii.eqb c "0" && match ds with
                                     | String x _ => includes "xXoObB" x
                                     | EmptyString => false
                                     end = false).
  { destruct (Ascii.eqb_spec c "0") as [-> | _]; [|reflexivity].
    now rewrite (digits_no_leading_zero n ds Hd). }
  rewrite Hlead, (digit_text_not_Infinity c ds Hc), <- Hd.
  rewrite (span_digits_all _ Hall), Hd, <- Hd.
  apply (integer_number_digits false n Hsafe). discriminate.
Qed.

Lemma StringToNumber_minus_digits (p : positive) :
  isSafeInteger (Zneg p) = true ->
  StringToNumber (String dash (digits (Npos p))) = Normal (Int (Zneg p)).
Proof.
  intros Hsafe.
  pose proof (digits_all (Npos p)) as Hall.
  destruct (digits_nonempty (Npos p)) as (c & ds & Hd).
  assert (Hc : isDigit c = true).
  { rewrite Hd in Hall. simpl in Hall. now apply andb_true_iff in Hall as [? _]. }
  unfold StringToNumber.
  rewrite (trim_start_id dash) by reflexivity.
  rewrite trim_end_id.
  2:{ simpl. apply (all_chars_impl isDigit); [apply digit_not_space | exact Hall]. }
  cbv beta iota zeta.
  change (Ascii.eqb dash "+") with false. rewrite Ascii.eqb_refl.
  cbv iota. rewrite Hd, (digit_text_not_Infinity c ds Hc), <- Hd.
  rewrite (span_digits_all _ Hall), Hd, <- Hd.
  apply (integer_number_digits true (Npos p) Hsafe). discriminate.
Qed.

Lemma Z_toString_nonempty z : Z_toString z <> "".
Proof.
  destruct z; simpl; try discriminate;
    match goal with |- digits ?n <> _ => destruct (digits_nonempty n) as (c & ds & ->) end;
    discriminate.
Qed.

Lemma Number_roundtrip (n : number) :
  valid_number n = true ->
  exists text, Number_toString n = Normal text /\ text <> "" /\ StringToNumber text = Normal n.
Proof.
  destruct n as [| [] | | z]; simpl; intros H; try discriminate.
  - exists "NaN". repeat split. discriminate.
  - exists "-Infinity". repeat split. discriminate.
  - exists "Infinity". repeat split. discriminate.
  - rewrite H. exists (Z_toString z). split; [reflexivity|]. split; [apply Z_toString_nonempty|].
    destruct z as [|p|p].
    + reflexivity.
    + apply (StringToNumber_digits (Npos p)). exact H.
    + apply StringToNumber_minus_digits. exact H.
Qed.

(* ===================================================================== *)
(** ** JSON text: the parser does not depend on its fuel *)
(* ===================================================================== *)

Lemma append_assoc (a b c : string) : (a ++ b) ++ c = a ++ (b ++ c).
Proof. induction a as [|x a IH]; simpl; [reflexivity | now rewrite IH]. Qed.

Lemma length_append (a b : string) :
  String.length (a ++ b) = (String.length a + String.length b)%nat.
Proof. induction a as [|x a IH]; simpl; [reflexivity | now rewrite IH]. Qed.

Lemma skip_ws_length s : (String.length (JSON.skip_ws s) <= String.length s)%nat.
Proof.
  induction s as [|c s IH]; simpl; [lia|].
  destruct (JSON.isWhiteSpace c); simpl; lia.
Qed.

Lemma after_length c s r : JSON.after c s = Some r -> String.length s = S (String.length r).
Proof.
  destruct s as [|d s]; simpl; [discriminate|].
  destruct (Ascii.eqb d c); [|discriminate]. now intros [= ->].
Qed.

Lemma after_skip_ws_length c s r :
  JSON.after c (JSON.skip_ws s) = Some r -> (String.length r < String.length s)%nat.
Proof.
  intros H. apply after_length in H. pose proof (skip_ws_length s). lia.
Qed.

Lemma parse_chars_length s : forall t r,
  JSON.parse_chars s = Normal (t, r) -> (String.length r < String.length s)%nat.
Proof.
  assert (H : forall n s, (String.length s <= n)%nat -> forall t r,
             JSON.parse_chars s = Normal (t, r) -> (String.length r < String.length s)%nat).
  { induction n as [|n IH]; intros s0 Hlen t r.
    - destruct s0; [discriminate | simpl in Hlen; lia].
    - destruct s0 as [|c rest]; [discriminate|]. simpl in Hlen. simpl.
      destruct (Ascii.eqb c quotation_mark).
      { intros [= <- <-]. lia. }
      destruct (Ascii.eqb c "\").
      + destruct rest as [|e rest1]; [discriminate|].
        destruct (JSON.unescape e).
        * destruct (JSON.parse_chars rest1) as [[t1 r1]| |] eqn:Hrec; try discriminate.
          simpl. intros [= <- <-].
          pose proof (IH rest1 ltac:(simpl in Hlen; lia) _ _ Hrec). simpl. lia.
        * destruct (Ascii.eqb e "u"); [|discriminate].
          destruct rest1 as [|h1 [|h2 [|h3 [|h4 rest2]]]]; try discriminate.
          destruct (JSON.hex_value h1), (JSON.hex_value h2),
            (JSON.hex_value h3), (JSON.hex_value h4); try discriminate.
          destruct (_ && _); [|discriminate].
          destruct (JSON.parse_chars rest2) as [[t1 r1]| |] eqn:Hrec; try discriminate.
          simpl. intros [= <- <-].
          pose proof (IH rest2 ltac:(simpl in Hlen; lia) _ _ Hrec). simpl. lia.
      + destruct (code c <? 32)%N; [discriminate|].
        destruct (JSON.parse_chars rest) as [[t1 r1]| |] eqn:Hrec; try discriminate.
        simpl. intros [= <- <-].
        pose proof (IH rest ltac:(lia) _ _ Hrec). lia. }
  intros t r. apply (H (String.length s)). lia.
Qed.

Lemma span_digits_length s : forall ds r,
  span_digits s = (ds, r) -> String.length s = (String.length ds + String.length r)%nat.
Proof.
  induction s as [|c s IH]; simpl; intros ds r.
  - now intros [= <- <-].
  - destruct (isDigit c).
    + destruct (span_digits s) as [ds' r'] eqn:Hs. intros [= <- <-].
      simpl. now rewrite (IH _ _ eq_refl).
    + now intros [= <- <-].
Qed.

Lemma parse_number_length s v r :
  JSON.parse_number s = Normal (v, r) -> (String.length r < String.length s)%nat.
Proof.
  unfold JSON.parse_number.
  set (split := match s with
                | String c rest => if Ascii.eqb c dash then (true, rest) else (false, s)
                | EmptyString => (false, s)
                end).
  assert (Hbody : (String.length (snd split) <= String.length s)%nat).
  { subst split. destruct s as [|c rest]; simpl; [lia|].
    destruct (Ascii.eqb c dash); simpl; lia. }
  destruct split as [negative body]. simpl in Hbody.
  destruct (span_digits body) as [[|d ds] rest] eqn:Hspan; [discriminate|].
  apply span_digits_length in Hspan. simpl in Hspan.
  destruct (_ && _); [discriminate|].
  destruct rest as [|c rest'].
  - destruct (integer_number negative (String d ds)); try discriminate.
    simpl. intros [= <- <-]. simpl. lia.
  - destruct (includes ".eE" c); [discriminate|].
    destruct (integer_number negative (String d ds)); try discriminate.
    simpl. intros [= <- <-]. simpl in *. lia.
Qed.

Lemma strip_prefix_length literal : forall s r,
  JSON.strip_prefix literal s = Some r ->
  String.length s = (String.length literal + String.length r)%nat.
Proof.
  induction literal as [|a literal IH]; intros s r; simpl.
  - now intros [= ->].
  - destruct s as [|b s]; [discriminate|].
    destruct (Ascii.eqb a b); [|discriminate]. intros H. simpl. now rewrite (IH _ _ H).
Qed.

(** A value takes at least one character of the text. *)
Lemma parse_value_shorter fuel :
  (forall s v r, JSON.parse_value fuel s = Normal (v, r) ->
                 (String.length r < String.length s)%nat) /\
  (forall s acc v r, JSON.parse_elements fuel s acc = Normal (v, r) ->
                     (String.length r < String.length s)%nat) /\
  (forall s acc v r, JSON.parse_members fuel s acc = Normal (v, r) ->
                     (String.length r < String.length s)%nat).
Proof.
  induction fuel as [|fuel (IHv & IHe & IHm)]; [repeat split; discriminate|].
  split; [|split].
  - intros s v r. cbn [JSON.parse_value].
    pose proof (skip_ws_length s) as Hws.
    destruct (JSON.skip_ws s) as [|c rest] eqn:Hs; [discriminate|]. simpl in Hws.
    destruct (Ascii.eqb c "[").
    { destruct (JSON.after "]" (JSON.skip_ws rest)) as [rest'|] eqn:Ha.
      - intros [= <- <-]. apply after_skip_ws_length in Ha. lia.
      - intros H. apply IHe in H. lia. }
    destruct (Ascii.eqb c "{").
    { destruct (JSON.after "}" (JSON.skip_ws rest)) as [rest'|] eqn:Ha.
      - intros [= <- <-]. apply after_skip_ws_length in Ha. lia.
      - intros H. apply IHm in H. lia. }
    destruct (Ascii.eqb c quotation_mark).
    { destruct (JSON.parse_chars rest) as [[t r1]| |] eqn:Hc; try discriminate.
      simpl. intros [= <- <-]. apply parse_chars_length in Hc. lia. }
    destruct (_ || _).
    { intros H. apply parse_number_length in H. simpl in H. lia. }
    destruct (JSON.strip_prefix "true" (String c rest)) eqn:H1.
    { intros [= <- <-]. apply strip_prefix_length in H1. simpl in H1. lia. }
    destruct (JSON.strip_prefix "false" (String c rest)) eqn:H2.
    { intros [= <- <-]. apply strip_prefix_length in H2. simpl in H2. lia. }
    destruct (JSON.strip_prefix "null" (String c rest)) eqn:H3; [|discriminate].
    intros [= <- <-]. apply strip_prefix_length in H3. simpl in H3. lia.
  - intros s acc v r. cbn [JSON.parse_elements].
    destruct (JSON.parse_value fuel s) as [[v1 r1]| |] eqn:Hv; try discriminate.
    apply IHv in Hv. simpl.
    destruct (JSON.after "," (JSON.skip_ws r1)) as [r'|] eqn:Ha.
    + intros H. apply IHe in H. apply after_skip_ws_length in Ha. lia.
    + destruct (JSON.after "]" (JSON.skip_ws r1)) as [r'|] eqn:Hb; [|discriminate].
      intros [= <- <-]. apply after_skip_ws_length in Hb. lia.
  - intros s acc v r. cbn [JSON.parse_members].
    destruct (JSON.after quotation_mark (JSON.skip_ws s)) as [r0|] eqn:Hq; [|discriminate].
    apply after_skip_ws_length in Hq.
    destruct (JSON.parse_chars r0) as [[k r1]| |] eqn:Hk; try discriminate.
    apply parse_chars_length in Hk. simpl.
    destruct (JSON.after ":" (JSON.skip_ws r1)) as [r2|] eqn:Hc; [|discriminate].
    apply after_skip_ws_length in Hc.
    destruct (JSON.parse_value fuel r2) as [[v1 r3]| |] eqn:Hv; try discriminate.
    apply IHv in Hv. simpl.
    destruct (JSON.after "," (JSON.skip_ws r3)) as [r4|] eqn:Ha.
    + intros H. apply IHm in H. apply after_skip_ws_length in Ha. lia.
    + destruct (JSON.after "}" (JSON.skip_ws r3)) as [r4|] eqn:Hb; [|discriminate].
      intros [= <- <-]. apply after_skip_ws_length in Hb. lia.
Qed.

(** With two units of fuel for each character, more fuel changes nothing. *)
Lemma parse_value_fuel fuel :
  (forall s fuel', (2 * String.length s + 1 <= fuel)%nat -> (fuel <= fuel')%nat ->
                   JSON.parse_value fuel s = JSON.parse_value fuel' s) /\
  (forall s acc fuel', (2 * String.length s + 2 <= fuel)%nat -> (fuel <= fuel')%nat ->
                       JSON.parse_elements fuel s acc = JSON.parse_elements fuel' s acc) /\
  (forall s acc fuel', (2 * String.length s + 2 <= fuel)%nat -> (fuel <= fuel')%nat ->
                       JSON.parse_members fuel s acc = JSON.parse_members fuel' s acc).
Proof.
  induction fuel as [|fuel (IHv & IHe & IHm)]; [repeat split; intros; lia|].
  split; [|split].
  - intros s [|fuel'] Hs Hle; [lia|]. cbn [JSON.parse_value].
    pose proof (skip_ws_length s) as Hws.
    destruct (JSON.skip_ws s) as [|c rest] eqn:Hskip; [reflexivity|]. simpl in Hws.
    destruct (Ascii.eqb c "[").
    { destruct (JSON.after "]" (JSON.skip_ws rest)); [reflexivity|]. apply IHe; lia. }
    destruct (Ascii.eqb c "{").
    { destruct (JSON.after "}" (JSON.skip_ws rest)); [reflexivity|]. apply IHm; lia. }
    reflexivity.
  - intros s acc [|fuel'] Hs Hle; [lia|]. cbn [JSON.parse_elements].
    rewrite (IHv s fuel') by lia.
    destruct (JSON.parse_value fuel' s) as [[v1 r1]| |] eqn:Hv; try reflexivity.
    apply (proj1 (parse_value_shorter fuel')) in Hv. simpl.
    destruct (JSON.after "," (JSON.skip_ws r1)) as [r'|] eqn:Ha; [|reflexivity].
    apply after_skip_ws_length in Ha. apply IHe; lia.
  - intros s acc [|fuel'] Hs Hle; [lia|]. cbn [JSON.parse_members].
    destruct (JSON.after quotation_mark (JSON.skip_ws s)) as [r0|] eqn:Hq; [|reflexivity].
    apply after_skip_ws_length in Hq.
    destruct (JSON.parse_chars r0) as [[k r1]| |] eqn:Hk; try reflexivity.
    apply parse_chars_length in Hk. simpl.
    destruct (JSON.after ":" (JSON.skip_ws r1)) as [r2|] eqn:Hc; [|reflexivity].
    apply after_skip_ws_length in Hc.
    rewrite (IHv r2 fuel') by lia.
    destruct (JSON.parse_value fuel' r2) as [[v1 r3]| |] eqn:Hv; try reflexivity.
    apply (proj1 (parse_value_shorter fuel')) in Hv. simpl.
    destruct (JSON.after "," (JSON.skip_ws r3)) as [r4|] eqn:Ha; [|reflexivity].
    apply after_skip_ws_length in Ha. apply IHm; lia.
Qed.

(** The fuel that [JSON.parse] gives is enough: any greater amount gives
    the same result. *)
Lemma parse_enough_fuel (text : string) (fuel : nat) :
  (2 * String.length text + 1 <= fuel)%nat ->
  JSON.parse_value fuel text = JSON.parse_value (S (2 * String.length text)) text.
Proof.
  intros H. symmetry. apply (proj1 (parse_value_fuel (S (2 * String.length text)))); lia.
Qed.

(* ===================================================================== *)
(** ** JSON text: the text of a value parses back to the value *)
(* ===================================================================== *)

(** An escaped character reads back as the character. *)
Lemma parse_chars_quote_char (c : ascii) (t : string) :
  JSON.parse_chars (JSON.quote_char c ++ t)
  = '(s, r) ← JSON.parse_chars t; Normal (String c s, r).
Proof. each_char c. Qed.

Lemma parse_chars_quote_chars (s rest : string) :
  JSON.parse_chars (JSON.quote_chars s ++ String quotation_mark rest) = Normal (s, rest).
Proof.
  induction s as [|c s IH]; [reflexivity|].
  cbn [JSON.quote_chars]. rewrite append_assoc, parse_chars_quote_char, IH.
  reflexivity.
Qed.

Lemma quote_char_length c : (1 <= String.length (JSON.quote_char c))%nat.
Proof. each_char c; simpl; lia. Qed.

Lemma serialize_array elements :
  JSON.serialize (VArray elements)
  = ts ← serialize_elements elements; Normal (Some ("[" ++ join "," ts ++ "]")).
Proof. reflexivity. Qed.

Lemma serialize_object properties :
  own_property properties "toJSON" <> Some VFunction ->
  JSON.serialize (VObject properties)
  = ts ← serialize_members properties; Normal (Some ("{" ++ join "," ts ++ "}")).
Proof.
  intros H. cbn [JSON.serialize].
  destruct (own_property properties "toJSON") as [[]|]; try reflexivity. congruence.
Qed.

Lemma delimiter_no_digit rest : delimiter_ahead rest = true -> no_digit_ahead rest = true.
Proof. destruct rest as [|c r]; [reflexivity|]. simpl. each_char c. Qed.

Lemma delimiter_no_fraction c r :
  delimiter_ahead (String c r) = true -> includes ".eE" c = false.
Proof. simpl. each_char c. Qed.

Lemma parse_number_digits (negative : bool) (n : N) (rest : string) :
  let z := if negative then (- Z.of_N n)%Z else Z.of_N n in
  isSafeInteger z = true -> (negative = true -> n <> 0%N) ->
  delimiter_ahead rest = true ->
  JSON.parse_number ((if negative then String dash (digits n) else digits n) ++ rest)
  = Normal (VNumber (Int z), rest).
Proof.
  intros z Hsafe Hneg Hrest.
  pose proof (digits_all n) as Hall.
  destruct (digits_nonempty n) as (c & ds & Hd).
  assert (Hc : isDigit c = true).
  { rewrite Hd in Hall. simpl in Hall. now apply andb_true_iff in Hall as [? _]. }
  assert (Hbody : forall s,
            (let '(neg, body) := (negative, digits n ++ rest) in
             match span_digits body with
             | (EmptyString, _) => Throw SyntaxError
             | (String d ds, rest) =>
                 if Ascii.eqb d "0" && negb (String.eqb ds "") then Throw SyntaxError
                 else
                   match rest with
                   | String c _ =>
                       if includes ".eE" c then Unmodelled
                       else n ← integer_number neg (String d ds); Normal (VNumber n, rest)
                   | EmptyString =>
                       n ← integer_number neg (String d ds); Normal (VNumber n, rest)
                   end
             end) = s -> s = Normal (VNumber (Int z), rest)).
  { intros s <-.
    rewrite (span_digits_app _ _ Hall (delimiter_no_digit _ Hrest)). rewrite Hd.
    assert (Hlead : Ascii.eqb c "0" && negb (String.eqb ds "") = false).
    { destruct (Ascii.eqb_spec c "0") as [-> | _]; [|reflexivity].
      now rewrite (digits_no_leading_zero n ds Hd). }
    rewrite Hlead, <- Hd.
    pose proof (integer_number_digits negative n Hsafe Hneg) as Hint. fold z in Hint.
    destruct rest as [|c' r'].
    - now rewrite Hint.
    - now rewrite (delimiter_no_fraction c' r' Hrest), Hint. }
  apply Hbody. unfold JSON.parse_number.
  destruct negative.
  - reflexivity.
  - rewrite Hd. simpl. destruct (digit_not_sign c Hc) as [_ ->]. reflexivity.
Qed.

Lemma digit_starts c :
  isDigit c = true ->
  JSON.isWhiteSpace c = false /\ Ascii.eqb c "[" = false /\ Ascii.eqb c "{" = false /\
  Ascii.eqb c quotation_mark = false /\ Ascii.eqb c "]" = false /\ Ascii.eqb c "}" = false.
Proof. each_char c; repeat split. Qed.

(** The text of a number in the fragment goes to [JSON.parse_number]. *)
Lemma parse_value_number (negative : bool) (n : N) (fuel : nat) (rest : string) :
  let t := (if negative then String dash (digits n) else digits n) in
  JSON.parse_value (S fuel) (t ++ rest) = JSON.parse_number (t ++ rest).
Proof.
  destruct (digits_nonempty n) as (c & ds & Hd).
  pose proof (digits_all n) as Hall. rewrite Hd in Hall. simpl in Hall.
  apply andb_true_iff in Hall as [Hc _].
  destruct (digit_starts c Hc) as (Hw & H1 & H2 & H3 & _).
  destruct negative; simpl.
  - reflexivity.
  - rewrite Hd. simpl. rewrite Hw, H1, H2, H3, Hc, orb_true_r. reflexivity.
Qed.

Lemma roundtrips_null : roundtrips VNull.
Proof.
  exists "null". repeat split; simpl; try lia.
  intros [|fuel] rest Hf _; [simpl in Hf; lia | reflexivity].
Qed.

Lemma roundtrips_boolean b : roundtrips (VBoolean b).
Proof.
  destruct b; [exists "true" | exists "false"]; repeat split; simpl; try lia;
    intros [|fuel] rest Hf _; (simpl in Hf; lia) || reflexivity.
Qed.

Lemma roundtrips_string s : roundtrips (VString s).
Proof.
  exists (JSON.quote s). repeat split; simpl; try lia.
  intros [|fuel] rest Hf _; [simpl in Hf; lia|].
  simpl. rewrite append_assoc. simpl. now rewrite parse_chars_quote_chars.
Qed.

Lemma roundtrips_integer z : isSafeInteger z = true -> roundtrips (VNumber (Int z)).
Proof.
  intros Hsafe.
  set (negative := match z with Zneg _ => true | _ => false end).
  set (n := Z.to_N (Z.abs z)).
  assert (Ht : Z_toString z = if negative then String dash (digits n) else digits n).
  { destruct z; reflexivity. }
  assert (Hz : z = if negative then (- Z.of_N n)%Z else Z.of_N n).
  { destruct z; subst negative n; simpl; try reflexivity; now rewrite ?positive_N_Z. }
  assert (Hneg : negative = true -> n <> 0%N).
  { destruct z; subst negative n; simpl; discriminate. }
  exists (Z_toString z). split; [|split; [|split]].
  - simpl. now rewrite Hsafe.
  - rewrite Ht. destruct (digits_nonempty n) as (c & ds & Hd).
    pose proof (digits_all n) as Hall. rewrite Hd in Hall. simpl in Hall.
    apply andb_true_iff in Hall as [Hc _].
    destruct (digit_starts c Hc) as (Hw & _ & _ & _ & H4 & H5).
    destruct negative; [reflexivity|]. rewrite Hd. simpl. now rewrite Hw, H4, H5.
  - simpl. rewrite Ht. destruct (digits_nonempty n) as (c & ds & ->).
    destruct negative; simpl; lia.
  - intros [|fuel] rest Hf Hrest; [simpl in Hf; lia|].
    rewrite Ht, (parse_value_number negative n fuel rest).
    rewrite (parse_number_digits negative n rest); try assumption.
    + now rewrite <- Hz.
    + now rewrite <- Hz.
Qed.

Lemma starts_value_nonempty t : starts_value t = true -> exists c r, t = String c r.
Proof. destruct t as [|c r]; [discriminate | eauto]. Qed.

Lemma starts_value_app t r : starts_value t = true -> starts_value (t ++ r) = true.
Proof. destruct t; [discriminate | trivial]. Qed.

Lemma skip_ws_starts_value t r :
  starts_value t = true -> JSON.skip_ws (t ++ r) = t ++ r.
Proof.
  destruct t as [|c t]; [discriminate|]. simpl.
  destruct (JSON.isWhiteSpace c); [discriminate | reflexivity].
Qed.

Lemma after_bracket_starts_value t r :
  starts_value t = true -> JSON.after "]" (t ++ r) = None /\ JSON.after "}" (t ++ r) = None.
Proof.
  destruct t as [|c t]; [discriminate|]. simpl.
  destruct (JSON.isWhiteSpace c); [discriminate|].
  destruct (Ascii.eqb c "]"); [discriminate|].
  destruct (Ascii.eqb c "}"); [discriminate|]. now split.
Qed.

Lemma join_cons sep t t' ts : join sep (t :: t' :: ts) = t ++ sep ++ join sep (t' :: ts).
Proof. reflexivity. Qed.

Lemma elements_roundtrip (xs : list Value) :
  Forall roundtrips xs -> xs <> [] ->
  exists ts,
    serialize_elements xs = Normal ts /\
    starts_value (join "," ts) = true /\
    (sizes xs <= String.length (join "," ts) + 1)%nat /\
    forall fuel acc rest,
      (sizes xs <= fuel)%nat ->
      JSON.parse_elements fuel (join "," ts ++ String "]" rest) acc
      = Normal (VArray (acc ++ xs)%list, rest).
Proof.
  induction xs as [|x xs IH]; [congruence|]. intros Hall _.
  apply Forall_cons in Hall as [(t & Hser & Hstart & Hsize & Hparse) Hall].
  destruct xs as [|y xs'].
  - exists [t]. split; [|split; [|split]].
    + simpl. now rewrite Hser.
    + exact Hstart.
    + change (sizes [x]) with (S (size x) + 0)%nat.
      change (join "," [t]) with t. clear -Hsize. lia.
    + intros [|fuel] acc rest Hf;
        change (sizes [x]) with (S (size x) + 0)%nat in Hf; [clear -Hf; lia|].
      simpl. rewrite Hparse by (trivial || (clear -Hf; lia)). reflexivity.
  - destruct (IH Hall ltac:(discriminate)) as (ts & Hsers & Hstarts & Hsizes & Hparses).
    destruct ts as [|t' ts]; [discriminate|].
    exists (t :: t' :: ts). split; [|split; [|split]].
    + change (serialize_elements (x :: y :: xs'))
        with (t ← JSON.serialize x; ts ← serialize_elements (y :: xs');
              Normal (default "null" t :: ts)).
      now rewrite Hser, Hsers.
    + rewrite join_cons. now apply starts_value_app.
    + rewrite join_cons, !length_append.
      change (sizes (x :: y :: xs')) with (S (size x) + sizes (y :: xs'))%nat.
      change (String.length ",") with 1%nat. clear -Hsize Hsizes. lia.
    + intros [|fuel] acc rest Hf;
        change (sizes (x :: y :: xs')) with (S (size x) + sizes (y :: xs'))%nat in Hf;
        [clear -Hf; lia|].
      rewrite join_cons, !append_assoc.
      cbn [JSON.parse_elements]. rewrite Hparse by (trivial || (clear -Hf; lia)).
      simpl. rewrite Hparses by (clear -Hf; lia). now rewrite <- app_assoc.
Qed.

Lemma roundtrips_array elements : Forall roundtrips elements -> roundtrips (VArray elements).
Proof.
  intros Hall. destruct elements as [|x xs].
  - exists "[]". repeat split; simpl; try lia.
    intros [|fuel] rest Hf _; [simpl in Hf; lia | reflexivity].
  - destruct (elements_roundtrip (x :: xs) Hall ltac:(discriminate))
      as (ts & Hser & Hstart & Hsize & Hparse).
    exists ("[" ++ join "," ts ++ "]"). split; [|split; [|split]].
    + rewrite serialize_array, Hser. reflexivity.
    + reflexivity.
    + change (size (VArray (x :: xs))) with (S (sizes (x :: xs))).
      simpl. rewrite length_append. simpl. clear -Hsize. lia.
    + intros [|fuel] rest Hf Hrest;
        change (size (VArray (x :: xs))) with (S (sizes (x :: xs))) in Hf; [clear -Hf; lia|].
      simpl. rewrite append_assoc. simpl.
      rewrite (skip_ws_starts_value _ _ Hstart).
      destruct (after_bracket_starts_value (join "," ts) (String "]" rest) Hstart) as [-> _].
      now rewrite Hparse by (clear -Hf; lia).
Qed.

Lemma own_property_app a b k :
  own_property (a ++ b)%list k
  = match own_property a k with
    | Some v => Some v
    | None => own_property b k
    end.
Proof.
  induction a as [|[k' v'] a IH]; simpl; [reflexivity|].
  destruct (String.eqb k' k); [reflexivity | exact IH].
Qed.

Lemma set_property_new acc k v :
  own_property acc k = None -> JSON.set_property acc k v = (acc ++ [(k, v)])%list.
Proof.
  induction acc as [|[k' v'] acc IH]; simpl; [reflexivity|].
  destruct (String.eqb k' k); [discriminate|]. intros H. now rewrite (IH H).
Qed.

Lemma disjoint_keys_step acc k v ps :
  disjoint_keys acc ((k, v) :: ps) -> own_property ps k = None ->
  own_property acc k = None /\ disjoint_keys (acc ++ [(k, v)])%list ps.
Proof.
  intros Hdis Hk. split.
  - destruct (Hdis k) as [H | H]; [exact H|]. simpl in H. now rewrite String.eqb_refl in H.
  - intros k'. destruct (String.eqb_spec k k') as [<- | Hne]; [now right|].
    destruct (Hdis k') as [H | H].
    + left. rewrite own_property_app, H. simpl.
      destruct (String.eqb_spec k k'); [congruence | reflexivity].
    + right. simpl in H. destruct (String.eqb_spec k k'); [congruence | exact H].
Qed.

Lemma member_text k t r :
  (JSON.quote k ++ ":" ++ t) ++ r
  = String quotation_mark (JSON.quote_chars k ++ String quotation_mark (String ":" (t ++ r))).
Proof.
  unfold JSON.quote. simpl. now rewrite !append_assoc.
Qed.

Lemma members_roundtrip (ps : list (string * Value)) :
  Forall (fun kv => roundtrips (snd kv)) ps -> ps <> [] -> distinct_keys ps = true ->
  plain_keys ps = true ->
  exists ts,
    serialize_members ps = Normal ts /\
    starts_with_quote (join "," ts) = true /\
    (member_sizes ps <= String.length (join "," ts) + 1)%nat /\
    forall fuel acc rest,
      (member_sizes ps <= fuel)%nat -> disjoint_keys acc ps ->
      JSON.parse_members fuel (join "," ts ++ String "}" rest) acc
      = Normal (VObject (acc ++ ps)%list, rest).
Proof.
  induction ps as [|[k x] ps IH]; [congruence|]. intros Hall _ Hkeys Hplain.
  apply Forall_cons in Hall as [(t & Hser & Hstart & Hsize & Hparse) Hall].
  cbn [plain_keys forallb fst] in Hplain. apply andb_true_iff in Hplain as [Hk0 Hplain].
  apply negb_true_iff in Hk0.
  simpl in Hkeys. destruct (own_property ps k) eqn:Hk; [discriminate|].
  simpl in Hser, Hsize, Hparse.
  assert (Hstep : forall fuel acc r,
             (size x <= fuel)%nat -> delimiter_ahead r = true ->
             own_property acc k = None ->
             JSON.parse_members (S fuel) ((JSON.quote k ++ ":" ++ t) ++ r) acc
             = match JSON.after "," (JSON.skip_ws r), JSON.after "}" (JSON.skip_ws r) with
               | Some r4, _ => JSON.parse_members fuel r4 (acc ++ [(k, x)])%list
               | None, Some r4 => Normal (VObject (acc ++ [(k, x)])%list, r4)
               | None, None => Throw SyntaxError
               end).
  { intros fuel acc r Hf Hr Hacc. rewrite member_text.
    cbn [JSON.parse_members]. simpl JSON.skip_ws. simpl JSON.after. cbv beta iota.
    rewrite parse_chars_quote_chars. simpl.
    rewrite Hparse by assumption. simpl.
    now rewrite (set_property_new _ _ _ Hacc). }
  destruct ps as [|[k' y] ps'].
  - exists [JSON.quote k ++ ":" ++ t]. split; [|split; [|split]].
    + cbn [serialize_members]. now rewrite Hk0, Hser.
    + reflexivity.
    + change (member_sizes [(k, x)]) with (S (size x) + 0)%nat.
      change (join "," [JSON.quote k ++ ":" ++ t]) with (JSON.quote k ++ ":" ++ t).
      rewrite !length_append. change (String.length ":") with 1%nat.
      clear -Hsize. lia.
    + intros [|fuel] acc rest Hf Hdis;
        change (member_sizes [(k, x)]) with (S (size x) + 0)%nat in Hf; [clear -Hf; lia|].
      destruct (disjoint_keys_step acc k x [] Hdis eq_refl) as [Hacc _].
      change (join "," [JSON.quote k ++ ":" ++ t]) with (JSON.quote k ++ ":" ++ t).
      rewrite (Hstep fuel acc (String "}" rest)) by (trivial || (clear -Hf; lia)).
      reflexivity.
  - destruct (IH Hall ltac:(discriminate) Hkeys Hplain)
      as (ts & Hsers & Hstarts & Hsizes & Hparses).
    destruct ts as [|t' ts]; [discriminate|].
    exists ((JSON.quote k ++ ":" ++ t) :: t' :: ts). split; [|split; [|split]].
    + change (serialize_members ((k, x) :: (k', y) :: ps'))
        with (if index_like k then Unmodelled
              else t ← JSON.serialize x; ts ← serialize_members ((k', y) :: ps');
                   Normal (match t with
                           | Some t => (JSON.quote k ++ ":" ++ t) :: ts
                           | None => ts
                           end)).
      now rewrite Hk0, Hser, Hsers.
    + reflexivity.
    + rewrite join_cons, !length_append.
      change (member_sizes ((k, x) :: (k', y) :: ps'))
        with (S (size x) + member_sizes ((k', y) :: ps'))%nat.
      change (String.length ",") with 1%nat. change (String.length ":") with 1%nat.
      clear -Hsize Hsizes. lia.
    + intros [|fuel] acc rest Hf Hdis;
        change (member_sizes ((k, x) :: (k', y) :: ps'))
          with (S (size x) + member_sizes ((k', y) :: ps'))%nat in Hf;
        [clear -Hf; lia|].
      destruct (disjoint_keys_step acc k x _ Hdis Hk) as [Hacc Hdis'].
      rewrite join_cons, (append_assoc (JSON.quote k ++ ":" ++ t)).
      rewrite (Hstep fuel acc) by (trivial || (clear -Hf; lia)).
      simpl. rewrite Hparses by (trivial || (clear -Hf; lia)).
      now rewrite <- app_assoc.
Qed.

Lemma quote_starts t r :
  starts_with_quote t = true ->
  JSON.skip_ws (t ++ r) = t ++ r /\ JSON.after "}" (t ++ r) = None.
Proof.
  destruct t as [|c t]; [discriminate|]. simpl. intros H.
  apply Ascii.eqb_eq in H. subst c. now split.
Qed.

(** A value that JSON text holds is no function. *)
Lemma roundtrips_no_method properties key :
  Forall (fun kv => roundtrips (snd kv)) properties ->
  own_property properties key <> Some VFunction.
Proof.
  induction 1 as [|[k x] ps (t & Hser & _) _ IH]; simpl; [discriminate|].
  destruct (String.eqb k key); [|exact IH].
  intros [= ->]. discriminate.
Qed.

Lemma roundtrips_object properties :
  distinct_keys properties = true ->
  plain_keys properties = true ->
  Forall (fun kv => roundtrips (snd kv)) properties -> roundtrips (VObject properties).
Proof.
  intros Hkeys Hplain Hall. destruct properties as [|kv ps].
  - exists "{}". repeat split; simpl; try lia.
    intros [|fuel] rest Hf _; [simpl in Hf; lia | reflexivity].
  - destruct (members_roundtrip (kv :: ps) Hall ltac:(discriminate) Hkeys Hplain)
      as (ts & Hser & Hstart & Hsize & Hparse).
    exists ("{" ++ join "," ts ++ "}"). split; [|split; [|split]].
    + rewrite serialize_object, Hser by (now apply roundtrips_no_method). reflexivity.
    + reflexivity.
    + change (size (VObject (kv :: ps))) with (S (member_sizes (kv :: ps))).
      simpl. rewrite length_append. simpl. clear -Hsize. lia.
    + intros [|fuel] rest Hf Hrest;
        change (size (VObject (kv :: ps))) with (S (member_sizes (kv :: ps))) in Hf;
        [clear -Hf; lia|].
      simpl. rewrite append_assoc. simpl.
      destruct (quote_starts (join "," ts) (String "}" rest) Hstart) as [-> ->].
      now rewrite Hparse by (trivial || (clear -Hf; lia) || (intros k; now left)).
Qed.

(** Every value that JSON text holds is written as a text that parses back
    to the value. *)
Lemma json_valid_roundtrips (v : Value) : json_valid v = true -> roundtrips v.
Proof.
  induction v as [| |b|n|s|elements IH|properties IH| | |z] using Value_nested_ind;
    simpl; try discriminate.
  - intros _. apply roundtrips_null.
  - intros _. apply roundtrips_boolean.
  - destruct n; try discriminate. apply roundtrips_integer.
  - intros _. apply roundtrips_string.
  - intros H. apply roundtrips_array.
    induction IH as [|x l Hx _ IHl]; [constructor|].
    simpl in H. apply andb_true_iff in H as [H1 H2]. constructor; auto.
  - intros H. apply andb_true_iff in H as [Hkeys H].
    apply andb_true_iff in Hkeys as [Hkeys Hplain].
    apply roundtrips_object; [exact Hkeys | exact Hplain|].
    clear Hkeys Hplain.
    induction IH as [|x l Hx _ IHl]; [constructor|].
    simpl in H. apply andb_true_iff in H as [H1 H2]. constructor; auto.
Qed.

Theorem parse_stringify (v : Value) :
  json_valid v = true ->
  exists text, JSON.stringify v = Normal (Some text) /\ text <> "" /\
               JSON.parse text = Normal v.
Proof.
  intros Hv. destruct (json_valid_roundtrips v Hv) as (t & Hser & Hstart & Hsize & Hparse).
  exists t. split; [exact Hser|]. split.
  - destruct t; [discriminate | discriminate].
  - unfold JSON.parse.
    pose proof (Hparse (S (2 * String.length t)) "" ltac:(lia) eq_refl) as H.
    assert (Ht : t ++ "" = t).
    { clear. induction t as [|c t IH]; simpl; [reflexivity | now rewrite IH]. }
    rewrite Ht in H. now rewrite H.
Qed.

(* ===================================================================== *)
(** ** Writing a value and reading it back *)
(* ===================================================================== *)

Lemma select_descriptor_valid p v d :
  select_descriptor p v = Some d -> valid_value v = true ->
  match v with
  | VNumber _ => d = numberDescriptor p
  | VBoolean _ => d = booleanDescriptor p
  | VString _ => d = stringDescriptor p
  | VArray _ => d = arrayDescriptor p
  | VObject _ => d = objectDescriptor p
  | _ => False
  end.
Proof. destruct v; simpl; try discriminate; intros H _; now injection H as <-. Qed.

Lemma or_else_array elements dflt : or_else (VArray elements) dflt = VArray elements.
Proof. reflexivity. Qed.

(** Writing a valid value through the setter and reading it through the
    getter gives the value; on an element without the attribute the setter
    stores the text of the table. *)
Lemma set_get (p : string) (this : Element) (v : Value) (d : PropertyDescriptor) :
  select_descriptor p v = Some d -> valid_value v = true ->
  exists this',
    set d this v = Normal this' /\
    get d this' = Normal v /\
    exists text, encoded v = Normal text /\ (this !! p = None -> this' !! p = text).
Proof.
  intros Hd Hv. pose proof (select_descriptor_valid p v d Hd Hv) as Hk.
  destruct v; try contradiction; subst d; simpl in Hv.
  - (* Boolean *)
    exists (toggleAttribute this p (Some b)). split; [now destruct b|].
    unfold toggleAttribute. simpl. unfold hasAttribute.
    destruct b, (this !! p) eqn:Hp; simpl.
    + rewrite Hp. split; [reflexivity|]. exists (Some ""). split; [reflexivity | discriminate].
    + rewrite lookup_insert_eq. split; [reflexivity|]. exists (Some ""). now split.
    + rewrite lookup_delete_eq. split; [reflexivity|]. exists None. now split.
    + rewrite Hp. split; [reflexivity|]. exists None. now split.
  - (* Number *)
    destruct (Number_roundtrip n Hv) as (text & Hto & Hne & Hback).
    exists (setAttribute this p text). simpl. rewrite Hto. simpl.
    split; [reflexivity|]. split.
    + rewrite getAttribute_setAttribute. simpl. rewrite (or_else_text _ _ Hne).
      simpl. now rewrite Hback.
    + exists (Some text). split; [reflexivity|]. intros _. apply lookup_insert_eq.
  - (* String *)
    exists (setAttribute this p s). simpl. split; [now destruct s|]. split.
    + rewrite getAttribute_setAttribute. now destruct s.
    + exists (Some s). split; [reflexivity|]. intros _. apply lookup_insert_eq.
  - (* Array *)
    destruct (parse_stringify (VArray elements) Hv) as (text & Hto & Hne & Hback).
    exists (setAttribute this p text). simpl. unfold stringified.
    change (or_else (VArray elements) (VArray [])) with (VArray elements).
    rewrite Hto. simpl. split; [reflexivity|]. split.
    + rewrite getAttribute_setAttribute. simpl. rewrite (or_else_text _ _ Hne).
      simpl. now rewrite Hback.
    + exists (Some text). split; [exact Hto|]. intros _. apply lookup_insert_eq.
  - (* PlainObject *)
    destruct (parse_stringify (VObject properties) Hv) as (text & Hto & Hne & Hback).
    exists (setAttribute this p text). simpl. unfold stringified.
    change (or_else (VObject properties) (VObject [])) with (VObject properties).
    rewrite Hto. simpl. split; [reflexivity|]. split.
    + rewrite getAttribute_setAttribute. simpl. rewrite (or_else_text _ _ Hne).
      simpl. now rewrite Hback.
    + exists (Some text). split; [exact Hto|]. intros _. apply lookup_insert_eq.
Qed.

(** C3: a valid value of kind Number, String, Array or PlainObject that is
    written through the setter is read back through the getter; for Boolean
    the getter tells the presence of the attribute: it returns true
    whatever text the attribute holds, the text false included, and false
    exactly when the attribute is absent. *)
Theorem write_then_read (p : string) (this : Element) :
  (forall (v : Value) (d : PropertyDescriptor),
      select_descriptor p v = Some d -> valid_value v = true ->
      exists this', set d this v = Normal this' /\ get d this' = Normal v) /\
  (forall text : string,
      get (booleanDescriptor p) (setAttribute this p text) = Normal (VBoolean true)) /\
  get (booleanDescriptor p) (setAttribute this p "false") = Normal (VBoolean true) /\
  (get (booleanDescriptor p) this = Normal (VBoolean false) <-> getAttribute this p = None).
Proof.
  split; [|split; [|split]].
  - intros v d Hd Hv. destruct (set_get p this v d Hd Hv) as (this' & Hs & Hg & _). eauto.
  - intros text. simpl. unfold hasAttribute, setAttribute. now rewrite lookup_insert_eq.
  - simpl. unfold hasAttribute, setAttribute. now rewrite lookup_insert_eq.
  - simpl. unfold hasAttribute, getAttribute. destruct (this !! p); split; congruence.
Qed.

Lemma write_then_read_witness :
  exists this',
    set (arrayDescriptor "test-array") ∅
      (VArray [VNumber (Int 4); VNumber (Int 5); VNumber (Int 6)]) = Normal this' /\
    get (arrayDescriptor "test-array") this'
    = Normal (VArray [VNumber (Int 4); VNumber (Int 5); VNumber (Int 6)]).
Proof.
  apply (proj1 (write_then_read "test-array" ∅)
           (VArray [VNumber (Int 4); VNumber (Int 5); VNumber (Int 6)])
           (arrayDescriptor "test-array")); reflexivity.
Defined.

(* ===================================================================== *)
(** ** Binding a fresh instance *)
(* ===================================================================== *)



(** Two declarations with one normalized attribute: the first writes the
    attribute, the second finds it and keeps its setter back, so that the
    second property reads the text of the first default. *)
Example shared_attribute :
  let bound := fst (initializeAttributable Util.mustKebabCase fresh_component
                      [("fooBar", VNumber (Int 1)); ("FooBar", VString "a")]) in
  Util.mustKebabCase "fooBar" = Normal "foo-bar" /\
  Util.mustKebabCase "FooBar" = Normal "foo-bar" /\
  attributes bound !! "foo-bar" = Some "1" /\
  snd (read_property bound "FooBar") = Normal (VString "1").
Proof. vm_compute. repeat split. Qed.


(* ===================================================================== *)
(** ** Further properties of the name normalizer *)
(* ===================================================================== *)

Lemma toLowerCase_char_fixed c : toLowerCase_char c = c -> isUpper c = false.
Proof. destruct c as [[] [] [] [] [] [] [] []]; vm_compute; congruence. Qed.

Lemma toLowerCase_char_twice c : toLowerCase_char (toLowerCase_char c) = toLowerCase_char c.
Proof. each_char c. Qed.

Lemma toLowerCase_char_no_capital c : isUpper (toLowerCase_char c) = false.
Proof. each_char c. Qed.

Lemma toLowerCase_char_dash c : Ascii.eqb (toLowerCase_char c) dash = Ascii.eqb c dash.
Proof. each_char c. Qed.

Lemma isLower_fixed c : isLower c = true -> toLowerCase_char c = c.
Proof. destruct c as [[] [] [] [] [] [] [] []]; vm_compute; congruence. Qed.

Lemma isLower_no_dash c : isLower c = true -> Ascii.eqb c dash = false.
Proof. destruct c as [[] [] [] [] [] [] [] []]; vm_compute; congruence. Qed.

Lemma isUpper_no_dash c : isUpper c = true -> Ascii.eqb c dash = false.
Proof. destruct c as [[] [] [] [] [] [] [] []]; vm_compute; congruence. Qed.

Lemma toLowerCase_twice s : toLowerCase (toLowerCase s) = toLowerCase s.
Proof. induction s as [|c s IH]; simpl; [reflexivity|]. now rewrite toLowerCase_char_twice, IH. Qed.

Lemma toLowerCase_no_capital s : no_capital (toLowerCase s) = true.
Proof.
  induction s as [|c s IH]; simpl; [reflexivity|].
  unfold no_capital in *. simpl. now rewrite toLowerCase_char_no_capital, IH.
Qed.

Lemma toLowerCase_includes_dash s : includes (toLowerCase s) dash = includes s dash.
Proof. induction s as [|c s IH]; simpl; [reflexivity|]. now rewrite toLowerCase_char_dash, IH. Qed.

Lemma toLowerCase_fixed_no_capital s : toLowerCase s = s -> no_capital s = true.
Proof. intros H. rewrite <- H. apply toLowerCase_no_capital. Qed.

Lemma toLowerCase_app a b : toLowerCase (a ++ b) = toLowerCase a ++ toLowerCase b.
Proof. induction a as [|c a IH]; simpl; [reflexivity | now rewrite IH]. Qed.

Lemma toLowerCase_lower s : all_chars isLower s = true -> toLowerCase s = s.
Proof.
  induction s as [|c s IH]; simpl; [reflexivity|]. intros H.
  apply andb_true_iff in H as [Hc H]. now rewrite (isLower_fixed c Hc), (IH H).
Qed.

(** X1: a name that [mustKebabCase] returns is the normalized key; it
    holds a dash and none of the letters A-Z, and lower-casing it again
    changes nothing. *)
Theorem mustKebabCase_returns_attribute_name (key normalized : string) :
  Util.mustKebabCase key = Normal normalized ->
  normalized = Util.toKebabCase key /\
  includes normalized dash = true /\
  no_capital normalized = true /\
  toLowerCase normalized = normalized.
Proof.
  unfold Util.mustKebabCase. destruct (includes (Util.toKebabCase key) dash) eqn:Hd; simpl;
    intros H; [|discriminate].
  injection H as <-. split; [reflexivity|]. split; [exact Hd|].
  unfold Util.toKebabCase. split; [apply toLowerCase_no_capital | apply toLowerCase_twice].
Qed.

Lemma mustKebabCase_returns_attribute_name_witness :
  includes "url-bar" dash = true /\ no_capital "url-bar" = true.
Proof.
  destruct (mustKebabCase_returns_attribute_name "URLBar" "url-bar" eq_refl) as (_ & H1 & H2 & _).
  split; assumption.
Defined.

Lemma plain_replace_capital s : no_capital s = true -> Util.replace_capital s = s.
Proof.
  unfold no_capital. induction s as [|c s IH]; intros H; [reflexivity|].
  simpl in H. apply andb_true_iff in H as [Hc H]. apply negb_true_iff in Hc.
  simpl. rewrite Hc. now rewrite (IH H).
Qed.

Lemma single_replace_double_dash s :
  forall b, single_dashes b s = true -> Util.replace_double_dash s = s.
Proof.
  induction s as [|c s IH]; intros b H; [reflexivity|].
  simpl in H.
  destruct s as [|d s']; [reflexivity|].
  change (Util.replace_double_dash (String c (String d s')))
    with (if Ascii.eqb c dash && Ascii.eqb d dash
          then String dash (Util.replace_double_dash s')
          else String c (Util.replace_double_dash (String d s'))).
  destruct (Ascii.eqb c dash) eqn:Hc.
  - apply andb_true_iff in H as [_ H]. pose proof (IH _ H) as IH'.
    simpl in H. destruct (Ascii.eqb d dash).
    + discriminate.
    + simpl. f_equal. exact IH'.
  - simpl. f_equal. exact (IH _ H).
Qed.

Lemma single_drop_final_dash s : forall b, single_dashes b s = true -> Util.drop_final_dash s = s.
Proof.
  induction s as [|c s IH]; intros b H; [reflexivity|].
  simpl in H.
  destruct s as [|d s'].
  - simpl. destruct (Ascii.eqb c dash); [|reflexivity].
    apply andb_true_iff in H as [_ H]. discriminate.
  - change (Util.drop_final_dash (String c (String d s')))
      with (String c (Util.drop_final_dash (String d s'))).
    f_equal. destruct (Ascii.eqb c dash).
    + apply andb_true_iff in H as [_ H]. exact (IH _ H).
    + exact (IH _ H).
Qed.

Lemma single_replace_edge_dash s : single_dashes true s = true -> Util.replace_edge_dash s = s.
Proof.
  intros H. destruct s as [|c s]; [reflexivity|].
  pose proof (single_drop_final_dash _ _ H) as Hd.
  simpl in H. unfold Util.replace_edge_dash.
  destruct (Ascii.eqb c dash); [discriminate | exact Hd].
Qed.

(** The normalizer on a name without capitals in which the dashes stand
    alone and inside: the name itself. *)
Lemma toKebabCase_fixed key :
  toLowerCase key = key -> single_dashes true key = true -> Util.toKebabCase key = key.
Proof.
  intros Hl Hd. unfold Util.toKebabCase.
  rewrite (plain_replace_capital _ (toLowerCase_fixed_no_capital _ Hl)),
    (single_replace_double_dash _ _ Hd), (single_replace_edge_dash _ Hd). exact Hl.
Qed.

(** X2: a key that is in lower case and in which every dash stands alone
    between two other characters is in normal form already: [toKebabCase]
    returns it as it is, and [mustKebabCase] returns it when it holds a
    dash and throws the naming error when it holds none. *)
Theorem toKebabCase_keeps_kebab (key : string) :
  toLowerCase key = key ->
  single_dashes true key = true ->
  Util.toKebabCase key = key /\
  Util.mustKebabCase key
  = if includes key dash then Normal key
    else Throw (DOMException (key ++ " is not a valid name") "SyntaxError").
Proof.
  intros Hl Hd. pose proof (toKebabCase_fixed key Hl Hd) as Hk.
  split; [exact Hk|].
  unfold Util.mustKebabCase. rewrite Hk. now destruct (includes key dash).
Qed.

Lemma toKebabCase_keeps_kebab_witness :
  Util.toKebabCase "test-getter-setter" = "test-getter-setter" /\
  Util.mustKebabCase "test-getter-setter" = Normal "test-getter-setter".
Proof. apply (toKebabCase_keeps_kebab "test-getter-setter"); reflexivity. Defined.

Lemma single_dashes_plain s : forall b,
  includes s dash = false -> s <> "" -> single_dashes b s = true.
Proof.
  induction s as [|c s IH]; intros b H Hne; [congruence|].
  simpl in H. apply orb_false_iff in H as [Hc H]. simpl. rewrite Hc.
  destruct s as [|d s']; [reflexivity|]. apply IH; [exact H | discriminate].
Qed.

(** X3: [mustKebabCase] throws the naming error, with the key in the
    message, for every key that holds neither one of the letters A-Z nor a
    dash. *)
Theorem mustKebabCase_rejects_plain_names (key : string) :
  no_capital key = true ->
  includes key dash = false ->
  Util.mustKebabCase key = Throw (DOMException (key ++ " is not a valid name") "SyntaxError").
Proof.
  intros Hc Hd. unfold Util.mustKebabCase, Util.toKebabCase.
  rewrite (plain_replace_capital _ Hc).
  assert (He : Util.replace_edge_dash (Util.replace_double_dash key) = key).
  { destruct key as [|c s]; [reflexivity|].
    pose proof (single_dashes_plain (String c s) true Hd ltac:(discriminate)) as Hs.
    now rewrite (single_replace_double_dash _ _ Hs), (single_replace_edge_dash _ Hs). }
  now rewrite He, toLowerCase_includes_dash, Hd.
Qed.

Lemma mustKebabCase_rejects_plain_names_witness :
  Util.mustKebabCase "label" = Throw (DOMException "label is not a valid name" "SyntaxError").
Proof. apply (mustKebabCase_rejects_plain_names "label"); reflexivity. Defined.

Lemma lower_no_capital s : all_chars isLower s = true -> no_capital s = true.
Proof.
  unfold no_capital. induction s as [|c s IH]; simpl; [reflexivity|]. intros H.
  apply andb_true_iff in H as [Hc H]. now rewrite (isUpper_not_isLower c Hc), (IH H).
Qed.

Lemma includes_app a b c : includes (a ++ b) c = includes a c || includes b c.
Proof. induction a as [|x a IH]; simpl; [reflexivity|]. now rewrite IH, orb_assoc. Qed.

Lemma lower_includes_dash s : all_chars isLower s = true -> includes s dash = false.
Proof.
  induction s as [|c s IH]; simpl; [reflexivity|]. intros H.
  apply andb_true_iff in H as [Hc H]. now rewrite (isLower_no_dash c Hc), (IH H).
Qed.

(** The three steps of the normalizer pass over letters in lower case. *)
Lemma replace_capital_lower (l s : string) :
  all_chars isLower l = true -> Util.replace_capital (l ++ s) = l ++ Util.replace_capital s.
Proof.
  induction l as [|x l IH]; intros H; [reflexivity|].
  simpl in H. apply andb_true_iff in H as [Hx H].
  simpl. rewrite (isUpper_not_isLower x Hx). now rewrite (IH H).
Qed.

Lemma single_dashes_lower (l s : string) (b : bool) :
  all_chars isLower l = true ->
  single_dashes b (l ++ s) = match l with
                             | EmptyString => single_dashes b s
                             | String _ _ => single_dashes false s
                             end.
Proof.
  revert b. induction l as [|x l IH]; intros b H; [reflexivity|].
  simpl in H. apply andb_true_iff in H as [Hx H].
  change (single_dashes b (String x l ++ s))
    with (if Ascii.eqb x dash then negb b && single_dashes true (l ++ s)
          else single_dashes false (l ++ s)).
  rewrite (isLower_no_dash x Hx), (IH false H). now destruct l.
Qed.

Lemma replace_capital_camel words :
  camel_words words = true -> Util.replace_capital (camel words) = dashed_capitals words.
Proof.
  induction words as [|[c w] rest IH]; [reflexivity|].
  cbn [camel_words camel dashed_capitals]. intros H.
  apply andb_true_iff in H as [H Hrest]. apply andb_true_iff in H as [H Hlast].
  apply andb_true_iff in H as [Hc Hw].
  destruct w as [|d w'].
  - destruct rest as [|word rest']; [|discriminate]. simpl. now rewrite Hc.
  - simpl in Hw. apply andb_true_iff in Hw as [Hd Hw].
    change (Util.replace_capital (String c (String d w' ++ camel rest)))
      with (if isUpper c
            then if isLower d
                 then String dash (String c (String d (Util.replace_capital (w' ++ camel rest))))
                 else String c (Util.replace_capital (String d (w' ++ camel rest)))
            else String c (Util.replace_capital (String d (w' ++ camel rest)))).
    rewrite Hc, Hd, (replace_capital_lower _ _ Hw), (IH Hrest). reflexivity.
Qed.

Lemma single_dashes_camel words :
  camel_words words = true -> single_dashes false (dashed_capitals words) = true.
Proof.
  induction words as [|[c w] rest IH]; [reflexivity|].
  cbn [camel_words dashed_capitals]. intros H.
  apply andb_true_iff in H as [H Hrest]. apply andb_true_iff in H as [H _].
  apply andb_true_iff in H as [Hc Hw].
  change (single_dashes false (String dash (String c (w ++ dashed_capitals rest))))
    with (if Ascii.eqb dash dash
          then negb false &&
               (if Ascii.eqb c dash
                then negb true && single_dashes true (w ++ dashed_capitals rest)
                else single_dashes false (w ++ dashed_capitals rest))
          else single_dashes false (String c (w ++ dashed_capitals rest))).
  rewrite (isUpper_no_dash c Hc). simpl.
  rewrite (single_dashes_lower w _ false Hw). destruct w; exact (IH Hrest).
Qed.

Lemma toLowerCase_camel words :
  camel_words words = true -> toLowerCase (dashed_capitals words) = dashed words.
Proof.
  induction words as [|[c w] rest IH]; [reflexivity|].
  cbn [camel_words dashed_capitals dashed]. intros H.
  apply andb_true_iff in H as [H Hrest]. apply andb_true_iff in H as [H _].
  apply andb_true_iff in H as [Hc Hw].
  simpl. now rewrite toLowerCase_app, (toLowerCase_lower _ Hw), (IH Hrest).
Qed.

Lemma includes_dashed words :
  includes (dashed words) dash = match words with [] => false | _ :: _ => true end.
Proof. destruct words as [|[c w] rest]; reflexivity. Qed.

(** X4: the normalizer on names in camel case.  For a first word in
    lower case, which may be empty, followed by capitalized words (a
    capital of A-Z and letters of a-z, only the last word may be a capital
    alone), the result is the words in lower case joined by single dashes;
    a name that starts with its first capitalized word gets no dash in
    front.  [mustKebabCase] returns that name when there are two words at
    least and throws the naming error for a single word. *)
Theorem toKebabCase_camel_case (first : string) (words : list (ascii * string)) :
  all_chars isLower first = true ->
  camel_words words = true ->
  let key := first ++ camel words in
  let normalized := match first, dashed words with
                    | EmptyString, String _ behind => behind
                    | _, separated => first ++ separated
                    end in
  Util.toKebabCase key = normalized /\
  Util.mustKebabCase key
  = match first, words with
    | String _ _, _ :: _ | EmptyString, _ :: _ :: _ => Normal normalized
    | _, _ => Throw (DOMException (key ++ " is not a valid name") "SyntaxError")
    end.
Proof.
  intros Hf Hw key normalized.
  assert (Hk : Util.toKebabCase key = normalized).
  { subst key normalized. unfold Util.toKebabCase.
    rewrite (replace_capital_lower _ _ Hf), (replace_capital_camel _ Hw).
    pose proof (single_dashes_camel _ Hw) as Hs.
    destruct first as [|x first].
    - cbn [String.append].
      rewrite (single_replace_double_dash _ _ Hs).
      destruct words as [|[c w] rest]; [reflexivity|].
      cbn [dashed_capitals dashed]. unfold Util.replace_edge_dash.
      change (Ascii.eqb dash dash) with true. cbv iota.
      cbn [camel_words] in Hw.
      apply andb_true_iff in Hw as [Hw Hrest]. apply andb_true_iff in Hw as [Hw _].
      apply andb_true_iff in Hw as [Hc Hl].
      simpl. now rewrite toLowerCase_app, (toLowerCase_lower _ Hl), (toLowerCase_camel _ Hrest).
    - assert (Hs' : single_dashes true (String x first ++ dashed_capitals words) = true).
      { now rewrite (single_dashes_lower _ _ true Hf). }
      rewrite (single_replace_double_dash _ _ Hs'), (single_replace_edge_dash _ Hs').
      rewrite toLowerCase_app, (toLowerCase_lower _ Hf), (toLowerCase_camel _ Hw).
      now destruct (dashed words). }
  split; [exact Hk|].
  unfold Util.mustKebabCase. rewrite Hk. subst normalized.
  destruct first as [|x first].
  - destruct words as [|[c w] rest]; [reflexivity|].
    cbn [dashed]. cbn [camel_words] in Hw.
    apply andb_true_iff in Hw as [Hw Hrest]. apply andb_true_iff in Hw as [Hw _].
    apply andb_true_iff in Hw as [Hc Hl].
    cbn [includes]. rewrite toLowerCase_char_dash, (isUpper_no_dash c Hc).
    rewrite includes_app, (lower_includes_dash _ Hl), includes_dashed.
    now destruct rest.
  - assert (Hi : includes (String x first ++ dashed words) dash
                 = match words with [] => false | _ :: _ => true end).
    { rewrite includes_app, (lower_includes_dash _ Hf), includes_dashed. reflexivity. }
    destruct words as [|word rest].
    + cbn [dashed] in *. rewrite Hi. reflexivity.
    + destruct (dashed (word :: rest)) eqn:Hd; rewrite Hi; reflexivity.
Qed.

Lemma toKebabCase_camel_case_witness :
  Util.mustKebabCase "fooBarBazBing" = Normal "foo-bar-baz-bing" /\
  Util.mustKebabCase "ClipX" = Normal "clip-x" /\
  Util.mustKebabCase "Clip" = Throw (DOMException "Clip is not a valid name" "SyntaxError").
Proof.
  split; [|split].
  - apply (proj2 (toKebabCase_camel_case "foo"
                    [("B"%char, "ar"); ("B"%char, "az"); ("B"%char, "ing")] eq_refl eq_refl)).
  - apply (proj2 (toKebabCase_camel_case ""
                    [("C"%char, "lip"); ("X"%char, "")] eq_refl eq_refl)).
  - apply (proj2 (toKebabCase_camel_case "" [("C"%char, "lip")] eq_refl eq_refl)).
Defined.

(* ===================================================================== *)
(** ** Further properties of the accessor lookup *)
(* ===================================================================== *)

Section AccessorLookup.
Context {Obj G S : Type}.
Variable getOwnPropertyDescriptor : Obj -> string -> option (option G * option S).

Lemma getAccessor_skips (skipped rest : list Obj) (key : string) :
  Forall (fun o => getOwnPropertyDescriptor o key = None) skipped ->
  getAccessor getOwnPropertyDescriptor (skipped ++ rest)%list key
  = getAccessor getOwnPropertyDescriptor rest key.
Proof.
  induction skipped as [|o skipped IH]; intros H; [reflexivity|].
  apply Forall_cons in H as [Ho H]. simpl. rewrite Ho. now apply IH.
Qed.

(** X5: [getAccessor] answers with the first own descriptor of the key on
    the chain: the objects before it that hold no descriptor are passed
    over, and nothing behind it is looked at, so that a descriptor without
    accessors hides the accessors further up; on a chain without any
    descriptor of the key it answers with the two defaults. *)
Theorem getAccessor_stops_at_first_descriptor
    (skipped : list Obj) (o : Obj) (further : list Obj) (key : string)
    (descriptor : option G * option S) :
  Forall (fun o' => getOwnPropertyDescriptor o' key = None) skipped ->
  (getOwnPropertyDescriptor o key = Some descriptor ->
   getAccessor getOwnPropertyDescriptor (skipped ++ o :: further)%list key
   = {| getter := fst descriptor; setter := snd descriptor |}) /\
  getAccessor getOwnPropertyDescriptor skipped key = {| getter := None; setter := None |}.
Proof.
  intros H. split.
  - intros Ho. rewrite (getAccessor_skips _ _ _ H). simpl. now rewrite Ho.
  - rewrite <- (app_nil_r skipped) at 1. now rewrite (getAccessor_skips _ _ _ H).
Qed.

End AccessorLookup.

(** A data property of the instance hides the accessor pair of the class:
    the lookup answers with the two defaults. *)
Lemma getAccessor_stops_at_first_descriptor_witness :
  let c := {| attributes := ∅; own := {[ "testGetterSetter" := DataProperty (VString "baz") ]};
              authored := {[ "testGetterSetter" := VString "baz" ]}; calls := [] |} in
  getAccessor getOwnPropertyDescriptor (prototype_chain c) "testGetterSetter"
  = {| getter := None; setter := None |}.
Proof.
  refine (proj1 (getAccessor_stops_at_first_descriptor getOwnPropertyDescriptor
                   [] (Instance _) [Prototype _] "testGetterSetter" (None, None) _) _).
  - apply List.Forall_nil.
  - reflexivity.
Defined.

(* ===================================================================== *)
(** ** Further properties of the getters *)
(* ===================================================================== *)

(** The text that a getter works on: the attribute, or the default of the
    kind when the attribute is absent or empty. *)
Lemma attribute_or_default (text : option string) (dflt : string) :
  or_else (attribute_value text) (VString dflt)
  = VString match text with
            | Some (String c t) => String c t
            | _ => dflt
            end.
Proof. destruct text as [[|c t]|]; reflexivity. Qed.

(** X6: whatever the attributes hold, a value that an installed getter
    returns is of the kind of its accessor: the binder would choose the
    same descriptor for it. *)
Theorem getter_returns_its_kind (p : string) (declared : Value) (d : PropertyDescriptor)
    (this : Element) (v : Value) :
  select_descriptor p declared = Some d ->
  get d this = Normal v ->
  select_descriptor p v = Some d.
Proof.
  intros Hd. descriptor_cases Hd; cbn [get numberDescriptor booleanDescriptor stringDescriptor
                                         arrayDescriptor objectDescriptor].
  - destruct (Number_ _); simpl; try discriminate. now intros [= <-].
  - now intros [= <-].
  - rewrite attribute_or_default. now intros [= <-].
  - rewrite attribute_or_default. cbn [ToString]. simpl.
    destruct (JSON.parse _) as [value| |]; simpl; try discriminate.
    destruct value; simpl; try discriminate. now intros [= <-].
  - rewrite attribute_or_default. cbn [ToString]. simpl.
    destruct (JSON.parse _) as [value| |]; simpl; try discriminate.
    destruct value; simpl; try discriminate. now intros [= <-].
Qed.

Lemma getter_returns_its_kind_witness :
  select_descriptor "test-array" (VArray [VNumber (Int 4); VNumber (Int 5); VNumber (Int 6)])
  = Some (arrayDescriptor "test-array").
Proof.
  apply (getter_returns_its_kind "test-array" test_array (arrayDescriptor "test-array")
           {[ "test-array" := "[4,5,6]" ]}); reflexivity.
Defined.

Lemma integer_number_no_throw negative ds e : integer_number negative ds <> Throw e.
Proof.
  unfold integer_number. destruct (_ =? _)%N; [discriminate|].
  destruct (isSafeInteger _); discriminate.
Qed.

Lemma StringToNumber_no_throw text e : StringToNumber text <> Throw e.
Proof.
  assert (H : forall negative body,
             (if String.eqb body "Infinity" then Normal (Infinity negative)
              else match span_digits body with
                   | (String d ds, EmptyString) => integer_number negative (String d ds)
                   | _ => if all_chars isDecimalLiteralChar body
                          then Unmodelled else Normal NaN
                   end) <> Throw e).
  { intros negative body.
    destruct (String.eqb body "Infinity"); [discriminate|].
    destruct (span_digits body) as [[|d ds] [|c r]];
      try (destruct (all_chars isDecimalLiteralChar body); discriminate).
    apply integer_number_no_throw. }
  unfold StringToNumber. cbv zeta.
  destruct (trim_end (trim_start text)) as [|c body]; [discriminate|].
  destruct (Ascii.eqb c "+"); [apply H|].
  destruct (Ascii.eqb c dash); [apply H|].
  destruct (_ && _); [discriminate | apply H].
Qed.

Lemma parse_chars_throws s : forall e, JSON.parse_chars s = Throw e -> e = SyntaxError.
Proof.
  assert (H : forall n s, (String.length s <= n)%nat -> forall e,
             JSON.parse_chars s = Throw e -> e = SyntaxError).
  { induction n as [|n IH]; intros s0 Hlen e.
    - destruct s0; [now intros [= <-] | simpl in Hlen; lia].
    - destruct s0 as [|c rest]; [now intros [= <-]|]. simpl in Hlen. simpl.
      destruct (Ascii.eqb c quotation_mark); [discriminate|].
      destruct (Ascii.eqb c "\").
      + destruct rest as [|e' rest1]; [now intros [= <-]|].
        destruct (JSON.unescape e').
        * destruct (JSON.parse_chars rest1) as [[t1 r1]| |] eqn:Hrec; try discriminate.
          simpl. intros [= <-]. apply (IH rest1); [simpl in Hlen; lia | exact Hrec].
        * destruct (Ascii.eqb e' "u"); [|now intros [= <-]].
          destruct rest1 as [|h1 [|h2 [|h3 [|h4 rest2]]]]; try (now intros [= <-]).
          destruct (JSON.hex_value h1), (JSON.hex_value h2),
            (JSON.hex_value h3), (JSON.hex_value h4); try (now intros [= <-]).
          destruct (_ && _); [|discriminate].
          destruct (JSON.parse_chars rest2) as [[t1 r1]| |] eqn:Hrec; try discriminate.
          simpl. intros [= <-]. apply (IH rest2); [simpl in Hlen; lia | exact Hrec].
      + destruct (code c <? 32)%N; [now intros [= <-]|].
        destruct (JSON.parse_chars rest) as [[t1 r1]| |] eqn:Hrec; try discriminate.
        simpl. intros [= <-]. apply (IH rest); [lia | exact Hrec]. }
  intros e. apply (H (String.length s)). lia.
Qed.

Lemma parse_number_throws s e : JSON.parse_number s = Throw e -> e = SyntaxError.
Proof.
  unfold JSON.parse_number.
  destruct (match s with
            | String c rest => if Ascii.eqb c dash then (true, rest) else (false, s)
            | EmptyString => (false, s)
            end) as [negative body].
  destruct (span_digits body) as [[|d ds] rest]; [now intros [= <-]|].
  destruct (_ && _); [now intros [= <-]|].
  destruct rest as [|c rest'].
  - destruct (integer_number negative (String d ds)) eqn:Hn; try discriminate.
    now apply integer_number_no_throw in Hn.
  - destruct (includes ".eE" c); [discriminate|].
    destruct (integer_number negative (String d ds)) eqn:Hn; try discriminate.
    now apply integer_number_no_throw in Hn.
Qed.

Lemma parse_value_throws fuel :
  (forall s e, JSON.parse_value fuel s = Throw e -> e = SyntaxError) /\
  (forall s acc e, JSON.parse_elements fuel s acc = Throw e -> e = SyntaxError) /\
  (forall s acc e, JSON.parse_members fuel s acc = Throw e -> e = SyntaxError).
Proof.
  induction fuel as [|fuel (IHv & IHe & IHm)]; [repeat split; discriminate|].
  split; [|split].
  - intros s e. cbn [JSON.parse_value].
    destruct (JSON.skip_ws s) as [|c rest]; [now intros [= <-]|].
    destruct (Ascii.eqb c "[").
    { destruct (JSON.after "]" (JSON.skip_ws rest)); [discriminate | apply IHe]. }
    destruct (Ascii.eqb c "{").
    { destruct (JSON.after "}" (JSON.skip_ws rest)); [discriminate | apply IHm]. }
    destruct (Ascii.eqb c quotation_mark).
    { destruct (JSON.parse_chars rest) as [[t r1]| |] eqn:Hc; try discriminate.
      simpl. intros [= <-]. now apply parse_chars_throws in Hc. }
    destruct (_ || _); [apply parse_number_throws|].
    destruct (JSON.strip_prefix "true" (String c rest)); [discriminate|].
    destruct (JSON.strip_prefix "false" (String c rest)); [discriminate|].
    destruct (JSON.strip_prefix "null" (String c rest)); [discriminate|].
    now intros [= <-].
  - intros s acc e. cbn [JSON.parse_elements].
    destruct (JSON.parse_value fuel s) as [[v1 r1]| |] eqn:Hv; try discriminate.
    + simpl. destruct (JSON.after "," (JSON.skip_ws r1)); [apply IHe|].
      destruct (JSON.after "]" (JSON.skip_ws r1)); [discriminate | now intros [= <-]].
    + simpl. intros [= <-]. now apply IHv in Hv.
  - intros s acc e. cbn [JSON.parse_members].
    destruct (JSON.after quotation_mark (JSON.skip_ws s)) as [r0|]; [|now intros [= <-]].
    destruct (JSON.parse_chars r0) as [[k r1]| |] eqn:Hk; try discriminate.
    + simpl. destruct (JSON.after ":" (JSON.skip_ws r1)) as [r2|]; [|now intros [= <-]].
      destruct (JSON.parse_value fuel r2) as [[v1 r3]| |] eqn:Hv; try discriminate.
      * simpl. destruct (JSON.after "," (JSON.skip_ws r3)); [apply IHm|].
        destruct (JSON.after "}" (JSON.skip_ws r3)); [discriminate | now intros [= <-]].
      * simpl. intros [= <-]. now apply IHv in Hv.
    + simpl. intros [= <-]. now apply parse_chars_throws in Hk.
Qed.

(** [JSON.parse] throws nothing but a syntax error. *)
Lemma parse_throws text e : JSON.parse text = Throw e -> e = SyntaxError.
Proof.
  unfold JSON.parse.
  destruct (JSON.parse_value _ text) as [[v r]| |] eqn:Hv; try discriminate.
  - simpl. destruct (JSON.skip_ws r); [discriminate | now intros [= <-]].
  - simpl. intros [= <-]. now apply (proj1 (parse_value_throws _)) in Hv.
Qed.

(** X7: the getters of the Number, Boolean and String accessors never
    throw, whatever the attribute holds; the getters of the Array and the
    PlainObject accessors throw nothing but a syntax error (the text is no
    JSON) or a type error (the decoded value has the wrong shape). *)
Theorem getters_throw_only (p : string) (this : Element) :
  (forall e, get (numberDescriptor p) this <> Throw e) /\
  (exists b, get (booleanDescriptor p) this = Normal (VBoolean b)) /\
  (exists s, get (stringDescriptor p) this = Normal (VString s)) /\
  (forall e, get (arrayDescriptor p) this = Throw e -> e = SyntaxError \/ e = TypeError) /\
  (forall e, get (objectDescriptor p) this = Throw e -> e = SyntaxError \/ e = TypeError).
Proof.
  split; [|split; [|split; [|split]]];
    cbn [get numberDescriptor booleanDescriptor stringDescriptor arrayDescriptor objectDescriptor].
  - intros e. destruct (getAttribute this p) as [[|c t]|]; simpl; try discriminate.
    destruct (StringToNumber (String c t)) eqn:Hn; simpl; try discriminate.
    now apply StringToNumber_no_throw in Hn.
  - eauto.
  - rewrite attribute_or_default. eauto.
  - intros e. rewrite attribute_or_default. cbn [ToString]. simpl.
    destruct (JSON.parse _) as [value| |] eqn:Hparse; simpl; try discriminate.
    + destruct (_ || _); [|discriminate]. intros [= <-]. now right.
    + intros [= <-]. left. now apply parse_throws in Hparse.
  - intros e. rewrite attribute_or_default. cbn [ToString]. simpl.
    destruct (JSON.parse _) as [value| |] eqn:Hparse; simpl; try discriminate.
    + destruct (_ || _); [|discriminate]. intros [= <-]. now right.
    + intros [= <-]. left. now apply parse_throws in Hparse.
Qed.

Lemma getters_throw_only_witness :
  get (arrayDescriptor "test-array") {[ "test-array" := "[1,2" ]} = Throw SyntaxError /\
  (SyntaxError = SyntaxError \/ SyntaxError = TypeError).
Proof.
  split; [reflexivity|].
  apply (proj1 (proj2 (proj2 (proj2
           (getters_throw_only "test-array" {[ "test-array" := "[1,2" ]})))) SyntaxError).
  reflexivity.
Defined.

(** X8: an attribute whose text is not empty and is no JSON text makes
    the getter of an Array or a PlainObject accessor throw the syntax error
    of [JSON.parse], and the read of the property ends with that error. *)
Theorem malformed_text_throws (c : Component) (n p text : string) (e : Exception)
    (d : PropertyDescriptor) :
  d = arrayDescriptor p \/ d = objectDescriptor p ->
  attributes c !! p = Some text ->
  text <> "" ->
  JSON.parse text = Throw e ->
  e = SyntaxError /\
  get d (attributes c) = Throw SyntaxError /\
  (own c !! n = Some (AccessorProperty d) -> read_property c n = (c, Throw SyntaxError)).
Proof.
  intros Hd Ha Hne Hparse.
  pose proof (parse_throws _ _ Hparse) as ->.
  assert (Hget : get d (attributes c) = Throw SyntaxError).
  { destruct Hd as [-> | ->]; cbn [get arrayDescriptor objectDescriptor];
      unfold getAttribute; rewrite Ha, attribute_or_default;
      (destruct text; [congruence|]); cbn [ToString]; simpl; now rewrite Hparse. }
  split; [reflexivity|]. split; [exact Hget|].
  intros Hown. unfold read_property, call_get. now rewrite Hown, Hget.
Qed.

Lemma malformed_text_throws_witness :
  let c := defineProperty (with_markup {[ "test-array" := "[1,2" ]})
             "testArray" (arrayDescriptor "test-array") in
  JSON.parse "[1,2" = Throw SyntaxError /\
  read_property c "testArray" = (c, Throw SyntaxError).
Proof.
  split; [reflexivity|].
  refine (proj2 (proj2 (malformed_text_throws
           (defineProperty (with_markup {[ "test-array" := "[1,2" ]})
              "testArray" (arrayDescriptor "test-array"))
           "testArray" "test-array" "[1,2" SyntaxError (arrayDescriptor "test-array")
           _ _ _ _)) _); try reflexivity; [now left | discriminate].
Defined.

(** X9: without the attribute every getter returns the zero value of its
    type, the value that the field decorator registers for a field without
    initial value; with the attribute present and empty the getters return
    the same, except the Boolean getter, which returns true. *)
Theorem absent_attribute_reads_zero_value (p : string) (t : TypeToken)
    (d : PropertyDescriptor) (this : Element) :
  select_descriptor p (zero_value t) = Some d ->
  (getAttribute this p = None -> get d this = Normal (zero_value t)) /\
  (getAttribute this p = Some "" ->
   get d this = Normal match t with
                       | BooleanConstructor => VBoolean true
                       | _ => zero_value t
                       end).
Proof.
  intros Hd.
  destruct t; simpl in Hd; injection Hd as <-;
    (split; intros Ha;
     cbn [get numberDescriptor booleanDescriptor stringDescriptor arrayDescriptor objectDescriptor];
     unfold hasAttribute; unfold getAttribute in Ha |- *; rewrite Ha; reflexivity).
Qed.

Lemma absent_attribute_reads_zero_value_witness :
  get (objectDescriptor "test-object") ∅ = Normal (VObject []) /\
  get (booleanDescriptor "test-bool") {[ "test-bool" := "" ]} = Normal (VBoolean true).
Proof.
  split.
  - apply (proj1 (absent_attribute_reads_zero_value "test-object" ObjectConstructor
                    (objectDescriptor "test-object") ∅ eq_refl)). reflexivity.
  - apply (proj2 (absent_attribute_reads_zero_value "test-bool" BooleanConstructor
                    (booleanDescriptor "test-bool") {[ "test-bool" := "" ]} eq_refl)).
    reflexivity.
Defined.

(* ===================================================================== *)
(** ** Further properties of the setters *)
(* ===================================================================== *)

Lemma toggleAttribute_force_twice (this : Element) (p : string) (b : bool) :
  toggleAttribute (toggleAttribute this p (Some b)) p (Some b)
  = toggleAttribute this p (Some b).
Proof.
  unfold toggleAttribute at 2 3.
  destruct (this !! p) eqn:Hp, b; unfold toggleAttribute;
    rewrite ?lookup_insert_eq, ?lookup_delete_eq, ?Hp; reflexivity.
Qed.

Lemma optional_boolean_defined fresh :
  fresh <> VUndefined -> optional_boolean fresh = Some (ToBoolean fresh).
Proof. destruct fresh; simpl; congruence. Qed.

(** Writing a value that is not [undefined] a second time changes nothing. *)
Lemma set_again (p : string) (declared : Value) (d : PropertyDescriptor)
    (this this' : Element) (fresh : Value) :
  select_descriptor p declared = Some d ->
  fresh <> VUndefined ->
  set d this fresh = Normal this' ->
  set d this' fresh = Normal this'.
Proof.
  intros Hd Hf. descriptor_cases Hd;
    cbn [set numberDescriptor booleanDescriptor stringDescriptor arrayDescriptor objectDescriptor].
  - destruct (ToString fresh); simpl; try discriminate. intros [= <-].
    unfold setAttribute. now rewrite insert_insert_eq.
  - rewrite (optional_boolean_defined _ Hf). intros [= <-].
    now rewrite toggleAttribute_force_twice.
  - destruct (ToString _); simpl; try discriminate. intros [= <-].
    unfold setAttribute. now rewrite insert_insert_eq.
  - destruct (stringified _); simpl; try discriminate. intros [= <-].
    unfold setAttribute. now rewrite insert_insert_eq.
  - destruct (stringified _); simpl; try discriminate. intros [= <-].
    unfold setAttribute. now rewrite insert_insert_eq.
Qed.

(** X10: writing the same value, other than [undefined], a second time
    through an installed setter leaves the attributes as the first write
    left them. *)
Theorem set_twice (p : string) (declared : Value) (d : PropertyDescriptor)
    (this this' : Element) (fresh : Value) :
  select_descriptor p declared = Some d ->
  fresh <> VUndefined ->
  set d this fresh = Normal this' ->
  set d this' fresh = Normal this'.
Proof.
  intros Hd Hf. descriptor_cases Hd;
    cbn [set numberDescriptor booleanDescriptor stringDescriptor arrayDescriptor objectDescriptor].
  - destruct (ToString fresh); simpl; try discriminate. intros [= <-].
    unfold setAttribute. now rewrite insert_insert_eq.
  - rewrite (optional_boolean_defined _ Hf). intros [= <-].
    now rewrite toggleAttribute_force_twice.
  - destruct (ToString _); simpl; try discriminate. intros [= <-].
    unfold setAttribute. now rewrite insert_insert_eq.
  - destruct (stringified _); simpl; try discriminate. intros [= <-].
    unfold setAttribute. now rewrite insert_insert_eq.
  - destruct (stringified _); simpl; try discriminate. intros [= <-].
    unfold setAttribute. now rewrite insert_insert_eq.
Qed.

Lemma set_twice_witness :
  set (numberDescriptor "test-number") {[ "test-number" := "789" ]} (VNumber (Int 789))
  = Normal {[ "test-number" := "789" ]}.
Proof.
  apply (set_twice "test-number" (VNumber (Int 123)) (numberDescriptor "test-number")
           ∅ {[ "test-number" := "789" ]} (VNumber (Int 789)) eq_refl).
  - discriminate.
  - reflexivity.
Defined.

(** X11: the Boolean setter hands its argument to [toggleAttribute]: a
    value other than [undefined] makes the property read its truthiness,
    [undefined] flips the property; a truthy write keeps the text of an
    attribute that is there and creates an absent attribute with the empty
    text. *)
Theorem boolean_setter_by_truthiness (p : string) (this : Element) (fresh : Value) :
  let this' := toggleAttribute this p (optional_boolean fresh) in
  set (booleanDescriptor p) this fresh = Normal this' /\
  get (booleanDescriptor p) this'
  = Normal (VBoolean match fresh with
                     | VUndefined => negb (hasAttribute this p)
                     | _ => ToBoolean fresh
                     end) /\
  (hasAttribute this p = true -> fresh <> VUndefined -> ToBoolean fresh = true -> this' = this) /\
  (hasAttribute this p = false -> ToBoolean fresh = true -> getAttribute this' p = Some "").
Proof.
  cbv zeta. split; [reflexivity|].
  cbn [get booleanDescriptor]. split; [|split].
  - assert (Hf : fresh = VUndefined \/
                 (fresh <> VUndefined /\
                  match fresh with
                  | VUndefined => negb (hasAttribute this p)
                  | _ => ToBoolean fresh
                  end = ToBoolean fresh)).
    { destruct fresh; (now left) || (right; split; [discriminate | reflexivity]). }
    destruct Hf as [-> | [Hf ->]]; unfold toggleAttribute, hasAttribute.
    + simpl.
      destruct (this !! p) as [text|] eqn:Hp;
        rewrite ?lookup_insert_eq, ?lookup_delete_eq; reflexivity.
    + rewrite (optional_boolean_defined _ Hf).
      destruct (this !! p) as [text|] eqn:Hp; destruct (ToBoolean fresh);
        rewrite ?lookup_insert_eq, ?lookup_delete_eq, ?Hp; reflexivity.
  - unfold toggleAttribute, hasAttribute.
    destruct (this !! p) eqn:Hp; [|discriminate]. intros _ Hf Ht.
    rewrite (optional_boolean_defined _ Hf), Ht. reflexivity.
  - unfold toggleAttribute, hasAttribute, getAttribute.
    destruct (this !! p) eqn:Hp; [discriminate|]. intros _ Ht.
    assert (Hf : fresh <> VUndefined) by (intros ->; discriminate).
    rewrite (optional_boolean_defined _ Hf), Ht. apply lookup_insert_eq.
Qed.

Lemma boolean_setter_by_truthiness_witness :
  set (booleanDescriptor "test-bool") {[ "test-bool" := "foo" ]} (VBoolean true)
  = Normal {[ "test-bool" := "foo" ]}.
Proof.
  pose proof (boolean_setter_by_truthiness "test-bool" {[ "test-bool" := "foo" ]}
                (VBoolean true)) as H.
  cbv zeta in H. destruct H as (Hset & _ & Hkeep & _).
  rewrite Hset, Hkeep; [reflexivity | reflexivity | discriminate | reflexivity].
Defined.

(** X12: writing a falsy value ([undefined], [null], false, 0, NaN, the
    empty string) to a String, Array or PlainObject accessor stores the
    text of the zero value, and the property reads the zero value. *)
Theorem falsy_write_resets (p : string) (this : Element) (fresh : Value) :
  ToBoolean fresh = false ->
  (set (stringDescriptor p) this fresh = Normal (setAttribute this p "") /\
   get (stringDescriptor p) (setAttribute this p "") = Normal (VString "")) /\
  (set (arrayDescriptor p) this fresh = Normal (setAttribute this p "[]") /\
   get (arrayDescriptor p) (setAttribute this p "[]") = Normal (VArray [])) /\
  (set (objectDescriptor p) this fresh = Normal (setAttribute this p "{}") /\
   get (objectDescriptor p) (setAttribute this p "{}") = Normal (VObject [])).
Proof.
  intros Hf.
  repeat split;
    cbn [get set stringDescriptor arrayDescriptor objectDescriptor];
    unfold or_else at 1; rewrite ?Hf, ?getAttribute_setAttribute; reflexivity.
Qed.

Lemma falsy_write_resets_witness :
  set (arrayDescriptor "test-array") {[ "test-array" := "[1,2,3]" ]} VNull
  = Normal {[ "test-array" := "[]" ]}.
Proof.
  rewrite (proj1 (proj1 (proj2 (falsy_write_resets "test-array" {[ "test-array" := "[1,2,3]" ]}
                                  VNull eq_refl)))).
  reflexivity.
Defined.

(** The number setter has no such default: it stores the text of whatever
    it is given. *)
Example number_setter_null :
  set (numberDescriptor "test-number") ∅ VNull = Normal {[ "test-number" := "null" ]} /\
  get (numberDescriptor "test-number") {[ "test-number" := "null" ]} = Normal (VNumber NaN).
Proof. split; reflexivity. Qed.

(** X13: a write through the accessor of one attribute does not change
    what the accessor of another attribute reads. *)
Theorem properties_are_independent (p q : string) (declared declared' : Value)
    (d e : PropertyDescriptor) (this this' : Element) (fresh : Value) :
  select_descriptor p declared = Some d ->
  select_descriptor q declared' = Some e ->
  p <> q ->
  set d this fresh = Normal this' ->
  get e this' = get e this.
Proof.
  intros Hd He Hpq Hset.
  apply (get_depends_on_attribute q declared' e); [exact He|].
  apply (set_keeps_other_attributes p declared d this this' fresh q Hd Hset). congruence.
Qed.

Lemma properties_are_independent_witness :
  get (stringDescriptor "test-string") {[ "test-number" := "789"; "test-string" := "foo" ]}
  = get (stringDescriptor "test-string") {[ "test-string" := "foo" ]}.
Proof.
  apply (properties_are_independent "test-number" "test-string"
           (VNumber (Int 123)) (VString "foo")
           (numberDescriptor "test-number") (stringDescriptor "test-string")
           {[ "test-string" := "foo" ]} _ (VNumber (Int 789)) eq_refl eq_refl).
  - discriminate.
  - reflexivity.
Defined.

(** X14: the setters of the Array and PlainObject accessors do not test
    the shape of what they store: a truthy JSON value that is no array is
    written through the Array setter without an error, and the next read
    throws a type error; likewise for an array or a primitive written
    through the PlainObject setter. *)
Theorem wrong_shape_write_poisons_reads (p : string) (this : Element) (fresh : Value) :
  json_valid fresh = true ->
  ToBoolean fresh = true ->
  (Array_isArray fresh = false ->
   exists this', set (arrayDescriptor p) this fresh = Normal this' /\
                 get (arrayDescriptor p) this' = Throw TypeError) /\
  (Array_isArray fresh = true \/ typeof fresh <> "object" ->
   exists this', set (objectDescriptor p) this fresh = Normal this' /\
                 get (objectDescriptor p) this' = Throw TypeError).
Proof.
  intros Hv Ht.
  destruct (parse_stringify fresh Hv) as (text & Hto & Hne & Hback).
  assert (Hset : forall dflt, stringified (or_else fresh dflt) = Normal text).
  { intros dflt. unfold or_else. rewrite Ht. unfold stringified. now rewrite Hto. }
  assert (Htext : or_else (attribute_value (getAttribute (setAttribute this p text) p))
                    = or_else (VString text)).
  { now rewrite getAttribute_setAttribute. }
  split; intros Hshape; exists (setAttribute this p text);
    cbn [get set arrayDescriptor objectDescriptor]; rewrite Hset, Htext;
    (destruct text; [congruence|]); (split; [reflexivity|]);
    cbn [or_else ToBoolean ToString]; simpl; rewrite Hback; simpl.
  - rewrite Hshape. simpl. now rewrite !orb_true_r.
  - destruct Hshape as [Hshape | Hshape].
    + rewrite Hshape. now rewrite !orb_true_r.
    + destruct fresh; simpl in *; congruence.
Qed.

Lemma wrong_shape_write_poisons_reads_witness :
  exists this',
    set (arrayDescriptor "test-array") ∅ (VObject [("foo", VString "bar")]) = Normal this' /\
    get (arrayDescriptor "test-array") this' = Throw TypeError.
Proof.
  apply (proj1 (wrong_shape_write_poisons_reads "test-array" ∅
                  (VObject [("foo", VString "bar")]) eq_refl eq_refl)).
  reflexivity.
Defined.

(* ===================================================================== *)
(** ** Further properties of the binder *)
(* ===================================================================== *)

(** X15: when the normalizer throws for the identifier of a declaration,
    the binder stops with that error, whatever the declared value is: the
    declarations before it stay bound, nothing is installed for it, and the
    declarations behind it are not reached. *)
Theorem naming_error_stops_binding
    (mustParameterize : string -> Completion string)
    (c : Component) (before after : list (string * Value))
    (n : string) (value : Value) (e : Exception) :
  mustParameterize n = Throw e ->
  snd (initializeAttributable mustParameterize c before) = Normal tt ->
  initializeAttributable mustParameterize c (before ++ (n, value) :: after)%list
  = (fst (initializeAttributable mustParameterize c before), Throw e).
Proof.
  intros Hn Hb. unfold initializeAttributable, all in *.
  rewrite for_of_app.
  destruct (for_of mustParameterize c before) as [c1 [[]| |]]; simpl in Hb; try discriminate.
  simpl. unfold bind_declaration. now rewrite Hn.
Qed.

Lemma naming_error_stops_binding_witness :
  initializeAttributable Util.mustKebabCase fresh_component
    (test_before ++ ("label", VFunction) :: test_after)%list
  = (fst (initializeAttributable Util.mustKebabCase fresh_component test_before),
     Throw (DOMException "label is not a valid name" "SyntaxError")).
Proof.
  apply (naming_error_stops_binding Util.mustKebabCase fresh_component test_before test_after
           "label" VFunction); reflexivity.
Defined.

(** X16: the binder rejects exactly the declared values [undefined],
    functions, symbols and bigints, with a type error and without touching
    the component; for every other value, [null] included, it installs the
    accessor of the selected descriptor as an own property, also when the
    first write of the default throws afterwards. *)
Theorem binder_installs_or_rejects
    (mustParameterize : string -> Completion string)
    (c : Component) (before : list (string * Value)) (n p : string) (value : Value) :
  mustParameterize n = Normal p ->
  snd (initializeAttributable mustParameterize c before) = Normal tt ->
  let c1 := fst (initializeAttributable mustParameterize c before) in
  let result := initializeAttributable mustParameterize c (before ++ [(n, value)])%list in
  match value with
  | VUndefined | VFunction | VSymbol | VBigInt _ => result = (c1, Throw TypeError)
  | _ => exists d, select_descriptor p value = Some d /\
                   own (fst result) !! n = Some (AccessorProperty d)
  end.
Proof.
  intros Hn Hb. unfold initializeAttributable, all in *. cbv zeta.
  rewrite for_of_app.
  destruct (for_of mustParameterize c before) as [c1 [[]| |]]; simpl in Hb; try discriminate.
  cbn [fst for_of].
  assert (Hstep : forall d, select_descriptor p value = Some d ->
            own (fst (match bind_declaration mustParameterize c1 (n, value) with
                      | (component', Normal _) => (component', Normal tt)
                      | stopped => stopped
                      end)) !! n = Some (AccessorProperty d)).
  { intros d Hd.
    assert (H : own (fst (bind_declaration mustParameterize c1 (n, value))) !! n
                = Some (AccessorProperty d)).
    { unfold bind_declaration. rewrite Hn, Hd.
      destruct (_ && _); [rewrite call_set_own|]; apply defineProperty_own. }
    destruct (bind_declaration mustParameterize c1 (n, value)) as [c2 [[]| |]]; exact H. }
  destruct value; try (unfold bind_declaration; rewrite Hn; reflexivity);
    eexists; (split; [reflexivity|]); apply Hstep; reflexivity.
Qed.

Lemma binder_installs_or_rejects_witness :
  initializeAttributable Util.mustKebabCase fresh_component
    (test_before ++ [("fooBar", VBigInt 1)])%list
  = (fst (initializeAttributable Util.mustKebabCase fresh_component test_before),
     Throw TypeError).
Proof.
  apply (binder_installs_or_rejects Util.mustKebabCase fresh_component test_before
           "fooBar" "foo-bar" (VBigInt 1)); reflexivity.
Defined.

(** X17: the binder never removes or rewrites an attribute that is present
    when it starts, declared or not, whether the binding completes or
    stops with an error. *)
Theorem binding_keeps_markup
    (mustParameterize : string -> Completion string)
    (c : Component) (registry : Registry) (p text : string) :
  attributes c !! p = Some text ->
  attributes (fst (initializeAttributable mustParameterize c registry)) !! p = Some text.
Proof. intros H. unfold initializeAttributable, all. now apply for_of_keeps_present. Qed.

Lemma binding_keeps_markup_witness :
  attributes (fst (initializeAttributable Util.mustKebabCase
                     (with_markup {[ "test-string" := "bar"; "lang" := "en" ]})
                     (test_declarations ++ [("label", VUndefined)])%list))
  !! "lang" = Some "en".
Proof.
  apply (binding_keeps_markup Util.mustKebabCase
           (with_markup {[ "test-string" := "bar"; "lang" := "en" ]})
           (test_declarations ++ [("label", VUndefined)])%list "lang" "en").
  reflexivity.
Defined.

Section Untouched.
Variable mustParameterize : string -> Completion string.

Lemma bind_declaration_authored c entry :
  authored (fst (bind_declaration mustParameterize c entry)) = authored c.
Proof.
  destruct entry as [n value]. unfold bind_declaration.
  destruct (mustParameterize n) as [p| |]; try reflexivity.
  destruct (select_descriptor p value) as [d|]; try reflexivity.
  destruct (_ && _); [|reflexivity].
  unfold call_set. now destruct (set d _ value).
Qed.

Lemma for_of_authored entries : forall c,
  authored (fst (for_of mustParameterize c entries)) = authored c.
Proof.
  induction entries as [|entry entries IH]; intros c; simpl; [reflexivity|].
  pose proof (bind_declaration_authored c entry) as H.
  destruct (bind_declaration mustParameterize c entry) as [c' [[]| |]]; simpl in *;
    try assumption.
  now rewrite IH.
Qed.

End Untouched.

(** X18: the binder touches nothing but what is declared: an own property
    and an attribute that no declaration names are after the binding what
    they were before, and so are the accessor pairs of the class and the
    record of their calls. *)
Theorem binding_touches_declared_only
    (mustParameterize : string -> Completion string)
    (c : Component) (registry : Registry) (m q : string) :
  let bound := fst (initializeAttributable mustParameterize c registry) in
  (Forall (apart mustParameterize m q) registry ->
   own bound !! m = own c !! m /\ attributes bound !! q = attributes c !! q) /\
  authored bound = authored c /\
  calls bound = calls c.
Proof.
  cbv zeta. unfold initializeAttributable, all. split; [|split].
  - intros H. now apply for_of_apart.
  - apply for_of_authored.
  - apply for_of_calls.
Qed.

Lemma binding_touches_declared_only_witness :
  let bound := fst (initializeAttributable Util.mustKebabCase
                      (with_markup {[ "lang" := "en" ]}) test_declarations) in
  own bound !! "lang" = own (with_markup {[ "lang" := "en" ]}) !! "lang" /\
  attributes bound !! "test-id" = attributes (with_markup {[ "lang" := "en" ]}) !! "test-id".
Proof.
  apply (proj1 (binding_touches_declared_only Util.mustKebabCase
                  (with_markup {[ "lang" := "en" ]}) test_declarations "lang" "test-id")).
  stands_apart.
Defined.

(** What a setter does on an element without its attribute depends on the
    value only. *)
Lemma set_on_absent (p : string) (v : Value) (d : PropertyDescriptor) :
  select_descriptor p v = Some d ->
  exists r : Completion (option string),
    forall a : Element, a !! p = None ->
      set d a v = match r with
                  | Normal u => Normal (written p u a)
                  | Throw e => Throw e
                  | Unmodelled => Unmodelled
                  end.
Proof.
  intros Hd.
  destruct v; simpl in Hd; try discriminate; injection Hd as <-;
    cbn [set numberDescriptor booleanDescriptor stringDescriptor arrayDescriptor objectDescriptor].
  - exists (text ← stringified (or_else VNull (VObject [])); Normal (Some text)).
    intros a _. now destruct (stringified _).
  - exists (Normal (if b then Some "" else None)). intros a Ha.
    cbn [optional_boolean ToBoolean]. unfold toggleAttribute. rewrite Ha. now destruct b.
  - exists (text ← ToString (VNumber n); Normal (Some text)).
    intros a _. now destruct (ToString _).
  - exists (text ← ToString (or_else (VString s) (VString "")); Normal (Some text)).
    intros a _. now destruct (ToString _).
  - exists (text ← stringified (or_else (VArray elements) (VArray [])); Normal (Some text)).
    intros a _. now destruct (stringified _).
  - exists (text ← stringified (or_else (VObject properties) (VObject [])); Normal (Some text)).
    intros a _. now destruct (stringified _).
Qed.

Lemma written_other p u a q : q <> p -> written p u a !! q = a !! q.
Proof. intros H. destruct u; simpl; [now rewrite lookup_insert_ne | reflexivity]. Qed.

Lemma written_commute p1 u1 p2 u2 a :
  p1 <> p2 -> written p1 u1 (written p2 u2 a) = written p2 u2 (written p1 u1 a).
Proof.
  intros H. destruct u1, u2; simpl; try reflexivity. now apply insert_insert_ne.
Qed.

Section Order.
Variable mustParameterize : string -> Completion string.

(** The body of the loop, by the presence of the attribute and by what the
    setter writes. *)
Lemma bind_declaration_written c n v p d r :
  mustParameterize n = Normal p ->
  select_descriptor p v = Some d ->
  (forall a : Element, a !! p = None ->
     set d a v = match r with
                 | Normal u => Normal (written p u a)
                 | Throw e => Throw e
                 | Unmodelled => Unmodelled
                 end) ->
  bind_declaration mustParameterize c (n, v)
  = match attributes c !! p, r with
    | None, Normal u =>
        ({| attributes := written p u (attributes c);
            own := <[n := AccessorProperty d]> (own c);
            authored := authored c; calls := calls c |}, Normal tt)
    | None, Throw e => (defineProperty c n d, Throw e)
    | None, Unmodelled => (defineProperty c n d, Unmodelled)
    | Some _, _ => (defineProperty c n d, Normal tt)
    end.
Proof.
  intros Hp Hd Hset. unfold bind_declaration. rewrite Hp, Hd.
  rewrite has_property_defineProperty, defineProperty_attributes.
  unfold hasAttribute. destruct (attributes c !! p) eqn:Ha; [reflexivity|]. cbn [andb negb].
  unfold call_set. rewrite defineProperty_attributes, (Hset _ Ha). now destruct r.
Qed.

(** Two declarations with different identifiers and different attributes,
    bound one after the other in either order. *)
Lemma bind_declaration_swap c e1 e2 p1 p2 c' :
  mustParameterize (fst e1) = Normal p1 ->
  mustParameterize (fst e2) = Normal p2 ->
  fst e1 <> fst e2 -> p1 <> p2 ->
  for_of mustParameterize c [e1; e2] = (c', Normal tt) ->
  for_of mustParameterize c [e2; e1] = (c', Normal tt).
Proof.
  destruct e1 as [n1 v1], e2 as [n2 v2]. cbn [fst]. intros Hp1 Hp2 Hn Hp.
  cbn [for_of].
  destruct (select_descriptor p1 v1) as [d1|] eqn:Hd1;
    [|unfold bind_declaration at 1; rewrite Hp1, Hd1; discriminate].
  destruct (select_descriptor p2 v2) as [d2|] eqn:Hd2.
  2:{ destruct (bind_declaration mustParameterize c (n1, v1)) as [c1 [[]| |]];
        try discriminate.
      unfold bind_declaration at 1. rewrite Hp2, Hd2. discriminate. }
  destruct (set_on_absent p1 v1 d1 Hd1) as [r1 Hr1].
  destruct (set_on_absent p2 v2 d2 Hd2) as [r2 Hr2].
  rewrite (bind_declaration_written c n1 v1 p1 d1 r1 Hp1 Hd1 Hr1).
  rewrite (bind_declaration_written c n2 v2 p2 d2 r2 Hp2 Hd2 Hr2).
  assert (Hown : <[n1 := AccessorProperty d1]> (<[n2 := AccessorProperty d2]> (own c))
                 = <[n2 := AccessorProperty d2]> (<[n1 := AccessorProperty d1]> (own c))).
  { now apply insert_insert_ne. }
  destruct (attributes c !! p1) as [t1|] eqn:Ha1, (attributes c !! p2) as [t2|] eqn:Ha2.
  - rewrite (bind_declaration_written _ n2 v2 p2 d2 r2 Hp2 Hd2 Hr2).
    rewrite (bind_declaration_written _ n1 v1 p1 d1 r1 Hp1 Hd1 Hr1).
    cbn [attributes defineProperty]. rewrite Ha1, Ha2.
    intros [= <-]. unfold defineProperty. cbn [attributes own authored calls].
    now rewrite Hown.
  - rewrite (bind_declaration_written _ n2 v2 p2 d2 r2 Hp2 Hd2 Hr2).
    cbn [attributes defineProperty]. rewrite Ha2.
    destruct r2 as [u2| |]; try discriminate.
    rewrite (bind_declaration_written _ n1 v1 p1 d1 r1 Hp1 Hd1 Hr1).
    cbn [attributes]. rewrite (written_other p2 u2 _ p1 Hp), Ha1.
    intros [= <-]. unfold defineProperty. cbn [attributes own authored calls].
    now rewrite Hown.
  - destruct r1 as [u1| |]; try discriminate.
    rewrite (bind_declaration_written _ n2 v2 p2 d2 r2 Hp2 Hd2 Hr2).
    cbn [attributes]. rewrite (written_other p1 u1 _ p2 (not_eq_sym Hp)), Ha2.
    rewrite (bind_declaration_written _ n1 v1 p1 d1 (Normal u1) Hp1 Hd1 Hr1).
    cbn [attributes defineProperty]. rewrite Ha1.
    intros [= <-]. unfold defineProperty. cbn [attributes own authored calls].
    now rewrite Hown.
  - destruct r1 as [u1| |]; try discriminate.
    rewrite (bind_declaration_written _ n2 v2 p2 d2 r2 Hp2 Hd2 Hr2).
    cbn [attributes]. rewrite (written_other p1 u1 _ p2 (not_eq_sym Hp)), Ha2.
    destruct r2 as [u2| |]; try discriminate.
    rewrite (bind_declaration_written _ n1 v1 p1 d1 (Normal u1) Hp1 Hd1 Hr1).
    cbn [attributes]. rewrite (written_other p2 u2 _ p1 Hp), Ha1.
    intros [= <-]. cbn [attributes own authored calls].
    now rewrite Hown, (written_commute p1 u1 p2 u2 _ Hp).
Qed.

End Order.

(** X19: two neighbouring declarations with different identifiers and
    different attributes can change places: when the binding completes in
    one order, the binding in the other order gives the same component. *)
Theorem declaration_order
    (mustParameterize : string -> Completion string)
    (c : Component) (before after : list (string * Value))
    (e1 e2 : string * Value) (p1 p2 : string) :
  mustParameterize (fst e1) = Normal p1 ->
  mustParameterize (fst e2) = Normal p2 ->
  fst e1 <> fst e2 -> p1 <> p2 ->
  snd (initializeAttributable mustParameterize c (before ++ e1 :: e2 :: after)%list) = Normal tt ->
  initializeAttributable mustParameterize c (before ++ e2 :: e1 :: after)%list
  = initializeAttributable mustParameterize c (before ++ e1 :: e2 :: after)%list.
Proof.
  intros Hp1 Hp2 Hn Hp. unfold initializeAttributable, all.
  rewrite !for_of_app.
  destruct (for_of mustParameterize c before) as [c1 [[]| |]]; try reflexivity.
  change (e1 :: e2 :: after) with ([e1; e2] ++ after)%list.
  change (e2 :: e1 :: after) with ([e2; e1] ++ after)%list.
  rewrite !for_of_app.
  destruct (for_of mustParameterize c1 [e1; e2]) as [c2 [[]| |]] eqn:H12;
    cbn [snd]; try discriminate.
  intros _. now rewrite (bind_declaration_swap mustParameterize c1 e1 e2 p1 p2 c2 Hp1 Hp2 Hn Hp H12).
Qed.

Lemma declaration_order_witness :
  initializeAttributable Util.mustKebabCase fresh_component
    [("testString", VString "foo"); ("testNumber", VNumber (Int 123))]
  = initializeAttributable Util.mustKebabCase fresh_component
      [("testNumber", VNumber (Int 123)); ("testString", VString "foo")].
Proof.
  apply (declaration_order Util.mustKebabCase fresh_component [] []
           ("testNumber", VNumber (Int 123)) ("testString", VString "foo")
           "test-number" "test-string"); try reflexivity; discriminate.
Defined.

Lemma select_descriptor_defined p v d : select_descriptor p v = Some d -> v <> VUndefined.
Proof. intros H ->. discriminate. Qed.

(** A setter that leaves the attributes alone where its attribute is
    absent does so on every element without that attribute: it is the
    Boolean setter with the value false. *)
Lemma set_nothing_absent (p : string) (v : Value) (d : PropertyDescriptor) (a a2 : Element) :
  select_descriptor p v = Some d ->
  a !! p = None -> set d a v = Normal a ->
  a2 !! p = None -> set d a2 v = Normal a2.
Proof.
  intros Hd Ha Hset Ha2.
  assert (Hins : forall text, Normal (setAttribute a p text) = Normal a -> False).
  { intros text [= H]. unfold setAttribute in H.
    assert (H' : <[p:=text]> a !! p = a !! p) by now rewrite H.
    rewrite lookup_insert_eq, Ha in H'. discriminate. }
  destruct v; simpl in Hd; try discriminate; injection Hd as <-;
    cbn [set numberDescriptor booleanDescriptor stringDescriptor arrayDescriptor objectDescriptor]
      in Hset |- *.
  - destruct (stringified _); simpl in Hset; try discriminate.
    exfalso. exact (Hins _ Hset).
  - cbn [optional_boolean ToBoolean] in *. unfold toggleAttribute in *.
    rewrite Ha in Hset. rewrite Ha2. destruct b; [|reflexivity].
    exfalso. exact (Hins "" Hset).
  - destruct (ToString (VNumber n)); simpl in Hset; try discriminate.
    exfalso. exact (Hins _ Hset).
  - destruct (ToString _); simpl in Hset; try discriminate.
    exfalso. exact (Hins _ Hset).
  - destruct (stringified _); simpl in Hset; try discriminate.
    exfalso. exact (Hins _ Hset).
  - destruct (stringified _); simpl in Hset; try discriminate.
    exfalso. exact (Hins _ Hset).
Qed.

Section Rebinding.
Variable mustParameterize : string -> Completion string.

(** What a step of the loop that completes has done. *)
Lemma bind_declaration_completes c entry c' :
  bind_declaration mustParameterize c entry = (c', Normal tt) ->
  exists p d,
    mustParameterize (fst entry) = Normal p /\
    select_descriptor p (snd entry) = Some d /\
    own c' = <[fst entry := AccessorProperty d]> (own c) /\
    authored c' = authored c /\ calls c' = calls c /\
    ((attributes c !! p <> None /\ attributes c' = attributes c) \/
     (attributes c !! p = None /\ set d (attributes c) (snd entry) = Normal (attributes c'))).
Proof.
  destruct entry as [n value]. unfold bind_declaration. cbn [fst snd].
  destruct (mustParameterize n) as [p| |] eqn:Hp; try discriminate.
  destruct (select_descriptor p value) as [d|] eqn:Hd; try discriminate.
  rewrite has_property_defineProperty, defineProperty_attributes.
  unfold hasAttribute. destruct (attributes c !! p) eqn:Ha; cbn [andb negb].
  - intros [= <-]. exists p, d.
    refine (conj eq_refl (conj Hd (conj eq_refl (conj eq_refl (conj eq_refl _))))).
    left. split; [|reflexivity]. now rewrite Ha.
  - unfold call_set. rewrite defineProperty_attributes.
    destruct (set d (attributes c) value) as [a| |] eqn:Hset; try discriminate.
    intros [= <-]. exists p, d.
    refine (conj eq_refl (conj Hd (conj eq_refl (conj eq_refl (conj eq_refl _))))).
    right. now split.
Qed.

Lemma settled_after_step c entry c' :
  bind_declaration mustParameterize c entry = (c', Normal tt) ->
  settled mustParameterize (attributes c') entry.
Proof.
  intros H. destruct (bind_declaration_completes _ _ _ H)
    as (p & d & Hp & Hd & _ & _ & _ & [[Ha Heq] | [Ha Hset]]).
  - exists p, d. split; [exact Hp|]. split; [exact Hd|]. rewrite Heq. intros Hn. contradiction.
  - exists p, d. split; [exact Hp|]. split; [exact Hd|]. intros _.
    apply (set_again p (snd entry) d (attributes c)); [exact Hd | | exact Hset].
    exact (select_descriptor_defined _ _ _ Hd).
Qed.

(** A settled declaration stays settled when attributes are added. *)
Lemma settled_grows (a a2 : Element) entry :
  (forall q text, a !! q = Some text -> a2 !! q = Some text) ->
  settled mustParameterize a entry -> settled mustParameterize a2 entry.
Proof.
  intros Hgrow (p & d & Hp & Hd & Hset). exists p, d.
  split; [exact Hp|]. split; [exact Hd|]. intros Ha2.
  assert (Ha : a !! p = None).
  { destruct (a !! p) as [text|] eqn:Ha; [|reflexivity].
    rewrite (Hgrow _ _ Ha) in Ha2. discriminate. }
  exact (set_nothing_absent p (snd entry) d a a2 Hd Ha (Hset Ha) Ha2).
Qed.

Lemma for_of_settles entries : forall c c',
  for_of mustParameterize c entries = (c', Normal tt) ->
  Forall (settled mustParameterize (attributes c')) entries /\
  own c' = install mustParameterize (own c) entries /\
  authored c' = authored c /\ calls c' = calls c.
Proof.
  induction entries as [|entry entries IH]; intros c c'.
  - simpl. intros [= <-]. repeat split. constructor.
  - simpl. destruct (bind_declaration mustParameterize c entry) as [c1 [[]| |]] eqn:Hstep;
      try discriminate.
    intros Hrest. destruct (IH _ _ Hrest) as (Hall & Hown & Hauth & Hcalls).
    destruct (bind_declaration_completes _ _ _ Hstep)
      as (p & d & Hp & Hd & Hown1 & Hauth1 & Hcalls1 & _).
    split; [|split; [|split]].
    + constructor; [|exact Hall].
      apply (settled_grows (attributes c1)); [|exact (settled_after_step _ _ _ Hstep)].
      intros q text Hq.
      pose proof (for_of_keeps_present mustParameterize entries q text c1 Hq) as H.
      now rewrite Hrest in H.
    + rewrite Hown, Hown1.
      change (install mustParameterize (own c) (entry :: entries))
        with (install mustParameterize (install_one mustParameterize (own c) entry) entries).
      unfold install_one. now rewrite Hp, Hd.
    + congruence.
    + congruence.
Qed.

(** The loop over settled declarations installs the accessors and does
    nothing else. *)
Lemma for_of_settled entries : forall c,
  Forall (settled mustParameterize (attributes c)) entries ->
  for_of mustParameterize c entries
  = ({| attributes := attributes c;
        own := install mustParameterize (own c) entries;
        authored := authored c; calls := calls c |}, Normal tt).
Proof.
  induction entries as [|entry entries IH]; intros c Hall.
  - now destruct c.
  - apply Forall_cons in Hall as [(p & d & Hp & Hd & Hset) Hall].
    assert (Hstep : bind_declaration mustParameterize c entry
                    = (defineProperty c (fst entry) d, Normal tt)).
    { destruct entry as [n value]. cbn [fst snd] in *. unfold bind_declaration. rewrite Hp, Hd.
      rewrite has_property_defineProperty, defineProperty_attributes.
      unfold hasAttribute. destruct (attributes c !! p) eqn:Ha; [reflexivity|]. cbn [andb negb].
      unfold call_set. rewrite defineProperty_attributes, (Hset eq_refl). reflexivity. }
    cbn [for_of]. rewrite Hstep. rewrite (IH (defineProperty c (fst entry) d) Hall).
    change (install mustParameterize (own c) (entry :: entries))
      with (install mustParameterize (install_one mustParameterize (own c) entry) entries).
    unfold install_one. rewrite Hp, Hd. reflexivity.
Qed.

Lemma insert_install_insert entries : forall (m : gmap string Property) n x x',
  <[n := x]> (install mustParameterize (<[n := x']> m) entries)
  = <[n := x]> (install mustParameterize m entries).
Proof.
  induction entries as [|entry entries IH]; intros m n x x'.
  - simpl. apply insert_insert_eq.
  - change (install mustParameterize (<[n := x']> m) (entry :: entries))
      with (install mustParameterize
              (install_one mustParameterize (<[n := x']> m) entry) entries).
    change (install mustParameterize m (entry :: entries))
      with (install mustParameterize (install_one mustParameterize m entry) entries).
    unfold install_one.
    destruct (mustParameterize (fst entry)) as [p| |]; try apply IH.
    destruct (select_descriptor p (snd entry)) as [d|]; try apply IH.
    destruct (decide (fst entry = n)) as [-> | Hne].
    + now rewrite insert_insert_eq.
    + rewrite (insert_insert_ne m (fst entry) n) by congruence. apply IH.
Qed.

Lemma install_twice entries : forall m,
  install mustParameterize (install mustParameterize m entries) entries
  = install mustParameterize m entries.
Proof.
  induction entries as [|entry entries IH] using rev_ind; intros m; [reflexivity|].
  assert (Happ : forall m', install mustParameterize m' (entries ++ [entry])%list
                 = install_one mustParameterize (install mustParameterize m' entries) entry).
  { intros m'. unfold install. now rewrite fold_left_app. }
  rewrite !Happ. unfold install_one.
  destruct (mustParameterize (fst entry)) as [p| |]; try apply IH.
  destruct (select_descriptor p (snd entry)) as [d|]; try apply IH.
  rewrite (insert_install_insert entries). f_equal. apply IH.
Qed.

End Rebinding.

(** X20: binding is idempotent: when the binding of a registry completes,
    binding the same registry to the bound component again changes
    nothing, and so does a registry that holds the declarations twice in a
    row. *)
Theorem binding_twice
    (mustParameterize : string -> Completion string)
    (c c' : Component) (registry : Registry) :
  initializeAttributable mustParameterize c registry = (c', Normal tt) ->
  initializeAttributable mustParameterize c' registry = (c', Normal tt) /\
  initializeAttributable mustParameterize c (registry ++ registry)%list = (c', Normal tt).
Proof.
  unfold initializeAttributable, all. intros H.
  assert (Hagain : for_of mustParameterize c' registry = (c', Normal tt)).
  { destruct (for_of_settles mustParameterize registry c c' H) as (Hall & Hown & _ & _).
    rewrite (for_of_settled mustParameterize registry c' Hall).
    rewrite Hown, install_twice, <- Hown. now destruct c'. }
  split; [exact Hagain|]. rewrite for_of_app, H. exact Hagain.
Qed.

Lemma binding_twice_witness :
  initializeAttributable Util.mustKebabCase mounted test_declarations = (mounted, Normal tt).
Proof.
  assert (H : initializeAttributable Util.mustKebabCase fresh_component test_declarations
              = (mounted, Normal tt)).
  { unfold mounted.
    destruct (initializeAttributable Util.mustKebabCase fresh_component test_declarations)
      as [c' r] eqn:H.
    assert (Hr : snd (initializeAttributable Util.mustKebabCase fresh_component
                        test_declarations) = Normal tt) by (vm_compute; reflexivity).
    rewrite H in Hr. simpl in Hr. now rewrite Hr. }
  exact (proj1 (binding_twice Util.mustKebabCase fresh_component mounted test_declarations H)).
Defined.

(** X21: two declarations whose identifiers differ and normalize to one
    attribute share it: when the attribute is absent and the setter of the
    first declaration creates it, the binder installs both accessors but
    does not call the setter of the second, so the second property reads
    what its getter decodes from the text of the first default. *)
Theorem shared_attribute_first_wins
    (mustParameterize : string -> Completion string)
    (c : Component) (n1 n2 : string) (v1 v2 : Value) (p : string)
    (d1 d2 : PropertyDescriptor) (a1 : Element) (text : string) :
  mustParameterize n1 = Normal p ->
  mustParameterize n2 = Normal p ->
  n1 <> n2 ->
  select_descriptor p v1 = Some d1 ->
  select_descriptor p v2 = Some d2 ->
  attributes c !! p = None ->
  set d1 (attributes c) v1 = Normal a1 ->
  a1 !! p = Some text ->
  let result := initializeAttributable mustParameterize c [(n1, v1); (n2, v2)] in
  snd result = Normal tt /\
  attributes (fst result) = a1 /\
  own (fst result) !! n1 = Some (AccessorProperty d1) /\
  own (fst result) !! n2 = Some (AccessorProperty d2) /\
  read_property (fst result) n2 = (fst result, get d2 a1).
Proof.
  intros Hp1 Hp2 Hn Hd1 Hd2 Ha Hset Htext. cbv zeta.
  unfold initializeAttributable, all. cbn [for_of].
  rewrite (bind_declaration_absent mustParameterize c n1 v1 p d1 Hp1 Hd1 Ha).
  unfold call_set. rewrite defineProperty_attributes, Hset.
  rewrite (bind_declaration_present mustParameterize
             (with_attributes (defineProperty c n1 d1) a1) n2 v2 p d2 text Hp2 Hd2 Htext).
  cbn [fst snd].
  assert (Hown2 : own (defineProperty (with_attributes (defineProperty c n1 d1) a1) n2 d2) !! n2
                  = Some (AccessorProperty d2)) by apply defineProperty_own.
  split; [reflexivity|]. split; [reflexivity|]. split; [|split; [exact Hown2|]].
  - cbn [own defineProperty with_attributes].
    rewrite lookup_insert_ne by congruence. apply lookup_insert_eq.
  - now rewrite (read_property_accessor _ n2 d2 Hown2).
Qed.

Lemma shared_attribute_first_wins_witness :
  let result := initializeAttributable Util.mustKebabCase fresh_component
                  [("fooBar", VNumber (Int 1)); ("FooBar", VString "a")] in
  snd result = Normal tt /\
  attributes (fst result) = {[ "foo-bar" := "1" ]} /\
  read_property (fst result) "FooBar"
  = (fst result, get (stringDescriptor "foo-bar") {[ "foo-bar" := "1" ]}).
Proof.
  destruct (shared_attribute_first_wins Util.mustKebabCase fresh_component
              "fooBar" "FooBar" (VNumber (Int 1)) (VString "a") "foo-bar"
              (numberDescriptor "foo-bar") (stringDescriptor "foo-bar")
              {[ "foo-bar" := "1" ]} "1" eq_refl eq_refl ltac:(discriminate) eq_refl eq_refl
              eq_refl eq_refl eq_refl) as (H1 & H2 & _ & _ & H3).
  split; [exact H1|]. split; [exact H2 | exact H3].
Defined.

(* ===================================================================== *)
(** ** From the declaration to the bound property *)
(* ===================================================================== *)

Lemma valid_value_selects p v :
  valid_value v = true -> exists d, select_descriptor p v = Some d.
Proof. destruct v; simpl; try discriminate; eauto. Qed.

Lemma zero_value_valid t : valid_value (zero_value t) = true.
Proof. now destruct t. Qed.

Lemma TypeToken_eqb_refl t : TypeToken_eqb t t = true.
Proof. now destruct t. Qed.

(** The initializer accepts [undefined] and the values whose constructor
    is the declared type, and records the value, or the zero value of the
    type, as the one declaration of an empty registry. *)
Lemma attribute_initializer_accepts options context value :
  value = VUndefined \/ constructor_of value = Normal (Some (type options)) ->
  attribute_initializer options context value []
  = ([(name context, nullish value (zero_value (type options)))], Normal VUndefined) /\
  (value <> VUndefined -> nullish value (zero_value (type options)) = value).
Proof.
  intros [-> | Hc].
  - split; [reflexivity | congruence].
  - unfold attribute_initializer.
    assert (Hu : is_undefined value = false) by (destruct value; try reflexivity; discriminate).
    rewrite Hu, Hc. simpl. rewrite TypeToken_eqb_refl. simpl.
    split; [reflexivity|]. intros _. destruct value; try reflexivity; discriminate.
Qed.

(** X22: from the declaration to the bound property.  For a field whose
    initial value is [undefined], or a valid value with the constructor of
    the declared type, the initializer of the field decorator records the
    declaration (with the zero value of the type for [undefined]) and
    returns [undefined]; binding the recorded declaration to a component
    without the attribute completes, the property reads the recorded
    default, and the attribute holds its text. *)
Theorem declared_field_is_bound
    (mustParameterize : string -> Completion string)
    (options : AttributeOptions) (context : DecoratorContext) (value : Value)
    (c : Component) (p : string) :
  kind context = KindField ->
  value = VUndefined \/
  (constructor_of value = Normal (Some (type options)) /\ valid_value value = true) ->
  mustParameterize (name context) = Normal p ->
  attributes c !! p = None ->
  let default := nullish value (zero_value (type options)) in
  exists initializer,
    attribute options context = Normal initializer /\
    initializer value [] = ([(name context, default)], Normal VUndefined) /\
    let result := initializeAttributable mustParameterize c [(name context, default)] in
    snd result = Normal tt /\
    read_property (fst result) (name context) = (fst result, Normal default) /\
    exists text, encoded default = Normal text /\ attributes (fst result) !! p = text.
Proof.
  intros Hk Hvalue Hp Ha default.
  exists (attribute_initializer options context).
  split; [unfold attribute; now rewrite Hk|].
  assert (Hinit : attribute_initializer options context value []
                  = ([(name context, default)], Normal VUndefined) /\
                  valid_value default = true).
  { destruct Hvalue as [-> | [Hc Hv]].
    - split; [reflexivity | apply zero_value_valid].
    - destruct (attribute_initializer_accepts options context value (or_intror Hc))
        as [Hi Hn].
      split; [exact Hi|]. subst default. rewrite Hn; [exact Hv|].
      intros ->. discriminate. }
  destruct Hinit as [Hinit Hvalid]. split; [exact Hinit|].
  destruct (valid_value_selects p default Hvalid) as [d Hd].
  cbv zeta. rewrite initializeAttributable_one.
  rewrite (bind_declaration_absent mustParameterize c (name context) default p d Hp Hd Ha).
  destruct (set_get p (attributes c) default d Hd Hvalid)
    as (this' & Hset & Hget & text & Henc & Htext).
  unfold call_set. rewrite defineProperty_attributes, Hset. cbn [fst snd].
  split; [reflexivity|]. split.
  - rewrite (read_property_accessor _ (name context) d).
    + cbn [attributes with_attributes]. now rewrite Hget.
    + cbn [own with_attributes]. apply defineProperty_own.
  - exists text. split; [exact Henc|]. cbn [attributes with_attributes]. now apply Htext.
Qed.

Lemma declared_field_is_bound_witness :
  exists initializer,
    attribute {| type := ArrayConstructor |} (field "testArray") = Normal initializer /\
    initializer VUndefined [] = ([("testArray", VArray [])], Normal VUndefined) /\
    let result := initializeAttributable Util.mustKebabCase fresh_component
                    [("testArray", VArray [])] in
    snd result = Normal tt /\
    read_property (fst result) "testArray" = (fst result, Normal (VArray [])) /\
    exists text, encoded (VArray []) = Normal text /\
                 attributes (fst result) !! "test-array" = text.
Proof.
  apply (declared_field_is_bound Util.mustKebabCase {| type := ArrayConstructor |}
           (field "testArray") VUndefined fresh_component "test-array");
    try reflexivity. now left.
Defined.

(** X23: the [mountCallback] of a class under the class decorator binds
    before it runs the callback of the extended class: for a registry whose
    binding completes, the callback of the extended class gets the bound
    component, on which a declared property with a valid default, apart
    from the other declarations and without markup, already reads its
    default and shows it in its attribute; the accessors of the author and
    their calls are as before. *)
Theorem decorated_class_mounts_bound_component
    (mustParameterize : string -> Completion string)
    (super_mountCallback : Component -> Component * Completion unit)
    (context : DecoratorContext)
    (this : Component) (before after : list (string * Value))
    (n : string) (value : Value) (p : string) (d : PropertyDescriptor) :
  kind context = KindClass ->
  mustParameterize n = Normal p ->
  select_descriptor p value = Some d ->
  valid_value value = true ->
  attributes this !! p = None ->
  Forall (apart mustParameterize n p) before ->
  Forall (apart mustParameterize n p) after ->
  snd (initializeAttributable mustParameterize this (before ++ (n, value) :: after)%list)
  = Normal tt ->
  exists mountCallback bound,
    attributable mustParameterize super_mountCallback context = Normal mountCallback /\
    mountCallback (before ++ (n, value) :: after)%list this = super_mountCallback bound /\
    read_property bound n = (bound, Normal value) /\
    (exists text, encoded value = Normal text /\ attributes bound !! p = text) /\
    authored bound = authored this /\ calls bound = calls this.
Proof.
  intros Hkind Hp Hd Hv Ha Hbefore Hafter Hdone.
  set (registry := (before ++ (n, value) :: after)%list) in *.
  exists (fun metadata this0 =>
            match initializeAttributable mustParameterize this0 metadata with
            | (this', Normal _) => super_mountCallback this'
            | stopped => stopped
            end),
         (fst (initializeAttributable mustParameterize this registry)).
  split; [unfold attributable; now rewrite Hkind|].
  split.
  { cbv beta. destruct (initializeAttributable mustParameterize this registry)
      as [c' [[]| |]]; simpl in Hdone; try discriminate. reflexivity. }
  destruct (binding_split mustParameterize this before (n, value) after n p
              Hbefore Hafter Hdone) as (_ & Ha1 & _ & _ & Hown & Hattr & Hcalls).
  fold registry in Hown, Hattr, Hcalls.
  set (c1 := fst (initializeAttributable mustParameterize this before)) in *.
  set (bound := fst (initializeAttributable mustParameterize this registry)) in *.
  rewrite Ha in Ha1.
  pose proof (bind_declaration_absent mustParameterize c1 n value p d Hp Hd Ha1) as Hstep.
  rewrite Hstep in Hown, Hattr.
  destruct (set_get p (attributes c1) value d Hd Hv)
    as (this' & Hset & Hget & text & Henc & Htext).
  unfold call_set in Hown, Hattr. rewrite defineProperty_attributes, Hset in Hown, Hattr.
  simpl in Hown, Hattr. rewrite lookup_insert_eq in Hown. rewrite (Htext Ha1) in Hattr.
  split; [|split; [|split]].
  - rewrite (read_property_accessor _ _ _ Hown). f_equal. rewrite <- Hget.
    apply (get_depends_on_attribute p value d); [exact Hd|].
    now rewrite Hattr, (Htext Ha1).
  - exists text. now split.
  - subst bound. unfold initializeAttributable, all. apply for_of_authored.
  - exact Hcalls.
Qed.

Lemma decorated_class_mounts_bound_component_witness :
  exists mountCallback bound,
    attributable Util.mustKebabCase (fun c => (c, Normal tt))
      {| kind := KindClass; name := "InitializeAttributeTest" |} = Normal mountCallback /\
    mountCallback (test_before ++ ("testArray", test_array) :: test_after)%list fresh_component
    = (bound, Normal tt) /\
    read_property bound "testArray" = (bound, Normal test_array).
Proof.
  pose proof (decorated_class_mounts_bound_component Util.mustKebabCase
                (fun c => (c, Normal tt))
                {| kind := KindClass; name := "InitializeAttributeTest" |}
                fresh_component test_before test_after
                "testArray" test_array "test-array" (arrayDescriptor "test-array")
                eq_refl eq_refl eq_refl eq_refl eq_refl) as H.
  assert (H1 : Forall (apart Util.mustKebabCase "testArray" "test-array") test_before)
    by stands_apart.
  assert (H2 : Forall (apart Util.mustKebabCase "testArray" "test-array") test_after)
    by stands_apart.
  destruct (H H1 H2 eq_refl) as (mountCallback & bound & Hm & Hrun & Hread & _).
  exists mountCallback, bound. split; [exact Hm|]. split; [exact Hrun | exact Hread].
Defined.

(** The text that a setter stores for a valid value that is no boolean. *)
Lemma set_text (p : string) (v : Value) (d : PropertyDescriptor) (this : Element) :
  select_descriptor p v = Some d -> valid_value v = true ->
  (forall b, v <> VBoolean b) ->
  exists text, encoded v = Normal (Some text) /\ set d this v = Normal (setAttribute this p text).
Proof.
  intros Hd Hv Hb. pose proof (select_descriptor_valid p v d Hd Hv) as Hk.
  destruct v; try contradiction; subst d; simpl in Hv.
  - now destruct (Hb b).
  - destruct (Number_roundtrip n Hv) as (text & Hto & _ & _).
    exists text. simpl. now rewrite Hto.
  - exists s. simpl. split; [reflexivity|]. now destruct s.
  - destruct (parse_stringify (VArray elements) Hv) as (text & Hto & _ & _).
    exists text. split; [exact Hto|]. simpl. unfold stringified.
    change (or_else (VArray elements) (VArray [])) with (VArray elements). now rewrite Hto.
  - destruct (parse_stringify (VObject properties) Hv) as (text & Hto & _ & _).
    exists text. split; [exact Hto|]. simpl. unfold stringified.
    change (or_else (VObject properties) (VObject [])) with (VObject properties).
    now rewrite Hto.
Qed.

(** X24: writing a valid value of its kind to a bound property goes
    through the installed setter: the property then reads the value, the
    attribute holds its text (for a value that is no boolean), and the own
    properties, the other attributes, and the accessors of the author with
    their calls are as before. *)
Theorem bound_property_reflects_writes
    (c : Component) (n p : string) (d : PropertyDescriptor) (fresh : Value) :
  own c !! n = Some (AccessorProperty d) ->
  select_descriptor p fresh = Some d ->
  valid_value fresh = true ->
  exists c',
    write_property c n fresh = (c', Normal tt) /\
    read_property c' n = (c', Normal fresh) /\
    own c' = own c /\ authored c' = authored c /\ calls c' = calls c /\
    (forall q, q <> p -> attributes c' !! q = attributes c !! q) /\
    ((forall b, fresh <> VBoolean b) ->
     exists text, encoded fresh = Normal (Some text) /\ attributes c' !! p = Some text).
Proof.
  intros Hown Hd Hv.
  destruct (set_get p (attributes c) fresh d Hd Hv) as (this' & Hset & Hget & _).
  exists (with_attributes c this').
  assert (Hwrite : write_property c n fresh = (with_attributes c this', Normal tt)).
  { unfold write_property, call_set. now rewrite Hown, Hset. }
  split; [exact Hwrite|]. split.
  { rewrite (read_property_accessor _ n d); [|exact Hown].
    cbn [attributes with_attributes]. now rewrite Hget. }
  split; [reflexivity|]. split; [reflexivity|]. split; [reflexivity|]. split.
  - intros q Hq. cbn [attributes with_attributes].
    exact (set_keeps_other_attributes p fresh d _ _ fresh q Hd Hset Hq).
  - intros Hb. destruct (set_text p fresh d (attributes c) Hd Hv Hb) as (text & Henc & Hset').
    exists text. split; [exact Henc|]. cbn [attributes with_attributes].
    rewrite Hset in Hset'. injection Hset' as ->. apply lookup_insert_eq.
Qed.

Lemma bound_property_reflects_writes_witness :
  exists c',
    write_property mounted "testNumber" (VNumber (Int 789)) = (c', Normal tt) /\
    read_property c' "testNumber" = (c', Normal (VNumber (Int 789))).
Proof.
  assert (Hown : own mounted !! "testNumber"
                 = Some (AccessorProperty (numberDescriptor "test-number"))).
  { unfold mounted, initializeAttributable, all.
    change test_declarations with ([("testNumber", VNumber (Int 123))] ++ tl test_declarations)%list.
    rewrite for_of_app.
    assert (H1 : for_of Util.mustKebabCase fresh_component [("testNumber", VNumber (Int 123))]
                 = call_set (numberDescriptor "test-number")
                     (defineProperty fresh_component "testNumber"
                        (numberDescriptor "test-number")) (VNumber (Int 123))).
    { change (for_of Util.mustKebabCase fresh_component [("testNumber", VNumber (Int 123))])
        with (initializeAttributable Util.mustKebabCase fresh_component
                [("testNumber", VNumber (Int 123))]).
      rewrite initializeAttributable_one.
      now apply (bind_declaration_absent Util.mustKebabCase fresh_component "testNumber"
                   (VNumber (Int 123)) "test-number"). }
    rewrite H1. unfold call_set at 1. cbn [set numberDescriptor]. simpl ToString.
    cbv beta iota. cbn [mbind Completion_bind].
    rewrite for_of_other_names; [apply defineProperty_own | other_names]. }
  destruct (bound_property_reflects_writes mounted "testNumber" "test-number"
              (numberDescriptor "test-number") (VNumber (Int 789)) Hown eq_refl eq_refl)
    as (c' & Hw & Hr & _).
  exists c'. now split.
Defined.

